(** * Blog platform: content retrieval, comment tree and mutation layer

    A shallow embedding of the Express controllers of the backend
    ([commentController], [postController]) over a model of the Sequelize
    calls they make, followed by the properties of the specification that
    concern them.

    Layout:
    - [JS]: the JavaScript primitives the controllers rely on
      ([parseInt], [substring], [split], [trim], truthiness, [Math.ceil]
      of a quotient);
    - [User], [Post], [Comment], [Like]: the rows of the four tables, as
      the [init] calls of the models declare them;
    - [Db]: the entity store, its lookups, ORDER BY, LIMIT/OFFSET and
      ILIKE;
    - [Orm]: the Sequelize calls the controllers make and what each
      returns, throws and leaves in the store;
    - [Prog]: controller bodies as sequences of awaited calls, with
      [try]/[catch], a runner for a request served alone that counts the
      calls, and a runner for two requests in flight;
    - [Http]: [req.user], JSON bodies and responses;
    - [CommentController], [PostController], [Validation]: the code
      under verification;
    - the vocabulary of the properties;
    - [Auth], [Schemas], [Routes]: the authentication middleware, the
      request schemas and the two routers in front of the controllers;
    - [AuthController]: registration, login and profile, over the store
      with the sequence of user keys;
    - [UsePostsAdvanced], [UseComments]: the updaters of the client's
      cached listing and comment list;
    - examples, and the theorems.

    Conventions of the model. Each awaited ORM call is one round trip.
    A string is a sequence of UTF-16 code units below 256, one [ascii]
    each. A number is an integer that is a double, or [None] where
    [parseInt] or the arithmetic on its results gave NaN or an infinity;
    the controllers hand such a number to the store only, which refuses
    it as a key, a LIMIT or an OFFSET, as it refuses a negative LIMIT or
    OFFSET, one beyond the 64-bit integers, and a column the table does
    not have; the call then throws. Where a query fixes no order among
    rows (rows that tie under ORDER BY, the rows of a [hasMany] include)
    they come in the order the store gives them, which is a component
    of the store and arbitrary; the calls of the model leave it as it
    was. The [order] option of an include that is
    not [separate] has no effect. The [count] of [findAndCountAll] is
    that of the rows of the LEFT JOIN with the includes, as no
    [distinct] is asked for; a count of rows is below 2^53 and so is
    the number it denotes. *)

From Stdlib Require Import ZArith List String Ascii Bool Lia.
From Stdlib Require Import Sorting.Sorted Sorting.Permutation.
Import ListNotations.

Local Open Scope string_scope.
Local Open Scope Z_scope.

(* ================================================================== *)
(** ** JavaScript primitives *)
(* ================================================================== *)

Module JS.

(** Strings are sequences of UTF-16 code units; the embedding covers
    the code units below 256, one [ascii] each, so that the no-break
    space U+00A0 is [ascii_of_nat 160]. *)

Definition chars (s : string) : list ascii := list_ascii_of_string s.
Definition of_chars (l : list ascii) : string := string_of_list_ascii l.

(** [!s] is false exactly for a non-empty string. *)
Definition truthy_string (s : string) : bool :=
  match s with EmptyString => false | _ => true end.

Definition truthy_opt_string (s : option string) : bool :=
  match s with Some s => truthy_string s | None => false end.

(** [!n] for a number that is never NaN: only [0] is falsy. *)
Definition truthy_num (n : Z) : bool := negb (n =? 0).

(** White space skipped by [parseInt] and removed by [trim]: of the
    code units below 256 these are TAB, LF, VT, FF, CR, SP and the
    no-break space U+00A0. *)
Definition is_ws (c : ascii) : bool :=
  let n := nat_of_ascii c in
  ((9 <=? n) && (n <=? 13))%nat || (n =? 32)%nat || (n =? 160)%nat.

Fixpoint skip_ws (l : list ascii) : list ascii :=
  match l with
  | c :: l' => if is_ws c then skip_ws l' else l
  | [] => []
  end.

(** Value of a digit in the given radix, if it is one. *)
Definition digit_val (radix : Z) (c : ascii) : option Z :=
  let n := Z.of_nat (nat_of_ascii c) in
  let v :=
    if (48 <=? n) && (n <=? 57) then Some (n - 48)
    else if (97 <=? n) && (n <=? 122) then Some (n - 87)
    else if (65 <=? n) && (n <=? 90) then Some (n - 55)
    else None in
  match v with
  | Some d => if d <? radix then Some d else None
  | None => None
  end.

(** Longest prefix of digits, read most significant first; [acc] is
    [None] as long as no digit was seen. *)
Fixpoint read_digits (radix : Z) (acc : option Z) (l : list ascii)
  : option Z :=
  match l with
  | [] => acc
  | c :: l' =>
      match digit_val radix c with
      | Some d =>
          read_digits radix
            (Some (match acc with Some a => a * radix + d | None => d end))
            l'
      | None => acc
      end
  end.

(** The Number value of a mathematical integer: the nearest double,
    a tie going to the even significand of 53 bits. [None] stands for
    an infinity, which is what an integer of magnitude
    [2^1024 - 2^970] or more rounds to. *)
Definition to_number (z : Z) : option Z :=
  let a := Z.abs z in
  let e := Z.log2 a - 52 in
  if e <=? 0 then Some z
  else
    let q := Z.shiftr a e in
    let r := a - Z.shiftl q e in
    let half := Z.shiftl 1 (e - 1) in
    let q' := if (half <? r) || ((r =? half) && Z.odd q)
              then q + 1 else q in
    let v := Z.shiftl q' e in
    if v <? 2 ^ 1024 then Some (Z.sgn z * v) else None.

(** [parseInt(s)] with no radix argument; [None] stands for a result
    that is no finite number: NaN, or an infinity for a numeral
    beyond the range of the doubles. Leading white space is skipped,
    one sign is accepted, a [0x]/[0X] prefix selects radix 16, the
    longest digit prefix is read, and the integer read is rounded to
    a double. *)
Definition parseInt (s : string) : option Z :=
  let l := skip_ws (chars s) in
  let '(sign, l) :=
    match l with
    | "-"%char :: l' => (-1, l')
    | "+"%char :: l' => (1, l')
    | _ => (1, l)
    end in
  let '(radix, l) :=
    match l with
    | "0"%char :: "x"%char :: l' => (16, l')
    | "0"%char :: "X"%char :: l' => (16, l')
    | _ => (10, l)
    end in
  match read_digits radix None l with
  | Some m => to_number (sign * m)
  | None => None
  end.

(** [s.substring(0, n)]: the first [n] code units, or all of [s]. *)
Fixpoint substring0 (n : nat) (s : string) : string :=
  match n, s with
  | O, _ => EmptyString
  | S n', String c s' => String c (substring0 n' s')
  | S _, EmptyString => EmptyString
  end.

(** [s.trim()]. *)
Definition trim (s : string) : string :=
  of_chars (rev (skip_ws (rev (skip_ws (chars s))))).

(** [s.split(',')]: always at least one piece. *)
Fixpoint split_on (sep : ascii) (cur : list ascii) (l : list ascii)
  : list string :=
  match l with
  | [] => [of_chars (rev cur)]
  | c :: l' =>
      if Ascii.eqb c sep then of_chars (rev cur) :: split_on sep [] l'
      else split_on sep (c :: cur) l'
  end.

Definition split (sep : ascii) (s : string) : list string :=
  split_on sep [] (chars s).

(** Numbers produced by a division: a finite value, NaN or an
    infinity. *)
Inductive num : Type :=
| Fin (z : Z)
| NaN
| PosInf
| NegInf.

(** [Math.ceil(a / b)] for integers [a] and [b]. *)
Definition ceil_div (a b : Z) : num :=
  if b =? 0 then
    if a =? 0 then NaN else if 0 <? a then PosInf else NegInf
  else Fin (- ((- a) / b)).

(** [n < m] for an integer [n]; a comparison with NaN is false. *)
Definition lt_num (n : Z) (m : num) : bool :=
  match m with
  | Fin z => n <? z
  | NaN => false
  | PosInf => true
  | NegInf => false
  end.

Definition lower (c : ascii) : ascii :=
  let n := nat_of_ascii c in
  if ((65 <=? n) && (n <=? 90))%nat then ascii_of_nat (n + 32) else c.

End JS.

(* ================================================================== *)
(** ** Rows of the four tables *)
(* ================================================================== *)

(** Dates are instants on an integer time line. An optional attribute
    ([allowNull: true]) is an [option]. *)

Module User.
Record t : Type := mk {
  id : Z;
  username : string;
  email : string;
  password : string;
  firstName : option string;
  lastName : option string;
  avatar : option string;
  isActive : bool;
  lastLogin : option Z;
  createdAt : Z;
  updatedAt : Z
}.
End User.

Module Post.
Record t : Type := mk {
  id : Z;
  title : string;
  content : string;
  excerpt : option string;
  imageUrl : option string;
  isPublished : bool;
  publishedAt : option Z;
  viewCount : Z;
  authorId : Z;
  createdAt : Z;
  updatedAt : Z
}.
End Post.

Module Comment.
Record t : Type := mk {
  id : Z;
  content : string;
  postId : Z;
  authorId : Z;
  parentId : option Z;
  isApproved : bool;
  createdAt : Z;
  updatedAt : Z
}.

Definition with_isApproved (b : bool) (c : t) : t :=
  mk (id c) (content c) (postId c) (authorId c) (parentId c) b
     (createdAt c) (updatedAt c).
End Comment.

Module Like.
Record t : Type := mk {
  id : Z;
  userId : Z;
  postId : Z;
  createdAt : Z;
  updatedAt : Z
}.
End Like.

(* ================================================================== *)
(** ** The entity store and the ORM calls *)
(* ================================================================== *)

Module Db.

Inductive Table : Type := Users | Posts | Comments | Likes.

(** Tables hold their rows in insertion order; the [next_*] fields are
    the sequences behind the [autoIncrement] keys. [place t k] is the
    position the store gives to the row of key [k] of table [t] when
    it hands out rows among which the query fixes no order; it is
    arbitrary, and no statement changes it. *)
Record Store : Type := mkStore {
  users : list User.t;
  posts : list Post.t;
  comments : list Comment.t;
  likes : list Like.t;
  next_post_id : Z;
  next_comment_id : Z;
  next_like_id : Z;
  place : Table -> Z -> Z
}.

Definition set_posts (ps : list Post.t) (db : Store) : Store :=
  mkStore (users db) ps (comments db) (likes db)
          (next_post_id db) (next_comment_id db) (next_like_id db)
          (place db).

Definition set_comments (cs : list Comment.t) (db : Store) : Store :=
  mkStore (users db) (posts db) cs (likes db)
          (next_post_id db) (next_comment_id db) (next_like_id db)
          (place db).

Definition set_likes (ls : list Like.t) (db : Store) : Store :=
  mkStore (users db) (posts db) (comments db) ls
          (next_post_id db) (next_comment_id db) (next_like_id db)
          (place db).

Definition set_place (pl : Table -> Z -> Z) (db : Store) : Store :=
  mkStore (users db) (posts db) (comments db) (likes db)
          (next_post_id db) (next_comment_id db) (next_like_id db) pl.

(** The placement under which rows come in insertion order. *)
Definition as_inserted (_ : Table) (_ : Z) : Z := 0.

(** What an awaited ORM call can throw. *)
Inductive Err : Type :=
| ValidationError
| UniqueConstraintError
| ForeignKeyConstraintError
| DatabaseError.

(** *** Joined authors *)

(** The three [attributes] selections used on the [author] include:
    [['id','username','avatar']], the same with first and last name,
    and no selection at all. *)
Inductive AuthorAttrs : Type := Public | Profile | AllAttrs.

Inductive Author : Type :=
| AuthorPublic (id : Z) (username : string) (avatar : option string)
| AuthorProfile (id : Z) (username : string)
                (firstName lastName avatar : option string)
| AuthorAll (u : User.t).

Definition select_author (a : AuthorAttrs) (u : User.t) : Author :=
  match a with
  | Public => AuthorPublic (User.id u) (User.username u) (User.avatar u)
  | Profile =>
      AuthorProfile (User.id u) (User.username u) (User.firstName u)
                    (User.lastName u) (User.avatar u)
  | AllAttrs => AuthorAll u
  end.

(** *** Lookups *)

Definition find_user (id : Z) (db : Store) : option User.t :=
  find (fun u => User.id u =? id) (users db).

Definition find_post (id : Z) (db : Store) : option Post.t :=
  find (fun p => Post.id p =? id) (posts db).

Definition find_comment (id : Z) (db : Store) : option Comment.t :=
  find (fun c => Comment.id c =? id) (comments db).

Definition like_of (postId userId : Z) (l : Like.t) : bool :=
  (Like.postId l =? postId) && (Like.userId l =? userId).

Definition find_like (postId userId : Z) (db : Store) : option Like.t :=
  find (like_of postId userId) (likes db).

Definition join_author (a : AuthorAttrs) (authorId : Z) (db : Store)
  : option Author :=
  option_map (select_author a) (find_user authorId db).

Definition count_comments (postId : Z) (db : Store) : Z :=
  Z.of_nat (List.length (filter (fun c => Comment.postId c =? postId)
                           (comments db))).

Definition count_likes (postId : Z) (db : Store) : Z :=
  Z.of_nat (List.length (filter (fun l => Like.postId l =? postId) (likes db))).

(** *** ORDER BY *)

Section Sort.
Context {A : Type} (leb : A -> A -> bool).

Fixpoint insert_by (x : A) (l : list A) : list A :=
  match l with
  | [] => [x]
  | y :: l' => if leb x y then x :: l else y :: insert_by x l'
  end.

(** Rows with equal keys keep the order they are given in. *)
Definition sort_by (l : list A) : list A :=
  fold_right insert_by [] l.
End Sort.

(** *** Rows in the order of the store *)

Definition by_place {A} (key : A -> Z) (pos : Z -> Z) (x y : A) : bool :=
  pos (key x) <=? pos (key y).

Definition scan_posts (db : Store) : list Post.t :=
  sort_by (by_place Post.id (place db Posts)) (posts db).

Definition scan_comments (db : Store) : list Comment.t :=
  sort_by (by_place Comment.id (place db Comments)) (comments db).

Definition scan_likes (db : Store) : list Like.t :=
  sort_by (by_place Like.id (place db Likes)) (likes db).

Inductive SortOrder : Type := ASC | DESC.

(** A column value; [VNull] sorts after every other value when
    ascending and before when descending. *)
Inductive Value : Type :=
| VNum (z : Z)
| VStr (s : string)
| VBool (b : bool)
| VNull.

Definition value_leb (a b : Value) : bool :=
  match a, b with
  | _, VNull => true
  | VNull, _ => false
  | VNum x, VNum y => x <=? y
  | VStr x, VStr y => String.leb x y
  | VBool x, VBool y => implb x y
  | _, _ => true
  end.

Definition order_leb {A} (key : A -> Value) (o : SortOrder) (x y : A)
  : bool :=
  match o with
  | ASC => value_leb (key x) (key y)
  | DESC => value_leb (key y) (key x)
  end.

(** The columns of [posts] ([Post.init]); there is no [tags] column. *)
Inductive PostColumn : Type :=
| Pid | Ptitle | Pcontent | Pexcerpt | PimageUrl | PisPublished
| PpublishedAt | PviewCount | PauthorId | PcreatedAt | PupdatedAt.

Definition post_column (name : string) : option PostColumn :=
  if String.eqb name "id" then Some Pid
  else if String.eqb name "title" then Some Ptitle
  else if String.eqb name "content" then Some Pcontent
  else if String.eqb name "excerpt" then Some Pexcerpt
  else if String.eqb name "imageUrl" then Some PimageUrl
  else if String.eqb name "isPublished" then Some PisPublished
  else if String.eqb name "publishedAt" then Some PpublishedAt
  else if String.eqb name "viewCount" then Some PviewCount
  else if String.eqb name "authorId" then Some PauthorId
  else if String.eqb name "createdAt" then Some PcreatedAt
  else if String.eqb name "updatedAt" then Some PupdatedAt
  else None.

Definition opt_str (s : option string) : Value :=
  match s with Some s => VStr s | None => VNull end.

Definition opt_num (z : option Z) : Value :=
  match z with Some z => VNum z | None => VNull end.

Definition post_value (c : PostColumn) (p : Post.t) : Value :=
  match c with
  | Pid => VNum (Post.id p)
  | Ptitle => VStr (Post.title p)
  | Pcontent => VStr (Post.content p)
  | Pexcerpt => opt_str (Post.excerpt p)
  | PimageUrl => opt_str (Post.imageUrl p)
  | PisPublished => VBool (Post.isPublished p)
  | PpublishedAt => opt_num (Post.publishedAt p)
  | PviewCount => VNum (Post.viewCount p)
  | PauthorId => VNum (Post.authorId p)
  | PcreatedAt => VNum (Post.createdAt p)
  | PupdatedAt => VNum (Post.updatedAt p)
  end.

(** *** LIMIT and OFFSET *)

(** The largest [bigint], the type of LIMIT and OFFSET. *)
Definition bigint_max : Z := 2 ^ 63 - 1.

Definition is_bigint (n : Z) : bool := (0 <=? n) && (n <=? bigint_max).

(** Both must be numbers, non-negative and within [bigint], or the
    query is refused. *)
Definition window {A} (limit offset : option Z) (l : list A)
  : option (list A) :=
  match limit, offset with
  | Some n, Some k =>
      if negb (is_bigint n && is_bigint k) then None
      else Some (firstn (Z.to_nat n) (skipn (Z.to_nat k) l))
  | _, _ => None
  end.

(** *** ILIKE *)

(** [%] matches any run of characters, [_] any one character and a
    backslash makes the next pattern character literal. *)
Fixpoint like (p s : list ascii) : bool :=
  match p with
  | [] => match s with [] => true | _ => false end
  | "%"%char :: p' =>
      (fix any (s : list ascii) : bool :=
         like p' s || match s with [] => false | _ :: s' => any s' end) s
  | "_"%char :: p' =>
      match s with [] => false | _ :: s' => like p' s' end
  | "\"%char :: c :: p' =>
      match s with [] => false | d :: s' => Ascii.eqb c d && like p' s' end
  | c :: p' =>
      match s with [] => false | d :: s' => Ascii.eqb c d && like p' s' end
  end.

Definition ilike (pattern s : string) : bool :=
  like (map JS.lower (JS.chars pattern)) (map JS.lower (JS.chars s)).

End Db.

(* ================================================================== *)
(** ** The ORM calls made by the controllers *)
(* ================================================================== *)

Module Orm.
Import Db.

(** [whereClause] of [getPosts]; [isPublished: true] is always part
    of it. [w_authorId] holds the result of [parseInt]. *)
Record PostWhere : Type := mkPostWhere {
  w_search : option string;
  w_tags : option (list string);
  w_authorId : option (option Z)
}.

(** A post with its [author], [comments] and [likes] includes. *)
Record PostRow : Type := mkPostRow {
  row_post : Post.t;
  row_author : option Author;
  row_comments : list (Z * string * Z);
  row_likes : list Z
}.

(** A top-level comment with its [author] and [replies] includes. *)
Record CommentRow : Type := mkCommentRow {
  row_comment : Comment.t;
  row_cauthor : option Author;
  row_replies : list (Comment.t * option Author)
}.

(** Values given to [Post.create]; [tags] is not an attribute of the
    model and is dropped by [build]. *)
Record PostValues : Type := mkPostValues {
  v_title : string;
  v_content : string;
  v_excerpt : option string;
  v_imageUrl : option string;
  v_authorId : Z;
  v_isPublished : bool;
  v_publishedAt : option Z
}.

(** Attributes changed on a post instance before [save]; [None] is an
    attribute left alone ([update] ignores [undefined] values). *)
Record PostPatch : Type := mkPostPatch {
  set_title : option string;
  set_content : option string;
  set_excerpt : option string;
  set_imageUrl : option string;
  set_viewCount : option Z
}.

Record CommentValues : Type := mkCommentValues {
  cv_content : string;
  cv_postId : Z;
  cv_parentId : option Z;
  cv_authorId : Z
}.

(** One constructor per awaited call. A key of [None] is NaN, as
    [parseInt] gives it for a parameter that is not a number. *)
Inductive Call : Type -> Type :=
| PostFindByPk (id : option Z) : Call (option Post.t)
| PostFindByPkAuthor (id : option Z) (a : AuthorAttrs)
  : Call (option (Post.t * option Author))
| PostFindAndCountAll (w : PostWhere) (limit offset : option Z)
                      (sortBy : string) (sortOrder : SortOrder)
  : Call (Z * list PostRow)
| PostCreate (v : PostValues) (now : Z) : Call Post.t
| PostSave (p : Post.t) (patch : PostPatch) (now : Z) : Call unit
| PostDestroy (p : Post.t) : Call unit
| PostGetCommentsWithAuthors (p : Post.t)
  : Call (list (Comment.t * option Author))
| CommentFindByPk (id : option Z) : Call (option Comment.t)
| CommentFindByPkAuthor (id : option Z)
  : Call (option (Comment.t * option Author))
| CommentFindAndCountAll (postId : option Z) (limit offset : option Z)
  : Call (Z * list CommentRow)
| CommentCount (postId : Z) : Call Z
| CommentCreate (v : CommentValues) (now : Z) : Call Comment.t
| CommentSave (c : Comment.t) (content : option string) (now : Z)
  : Call unit
| CommentDestroy (c : Comment.t) : Call unit
| LikeCount (postId : Z) : Call Z
| LikeFindOne (postId userId : Z) : Call (option Like.t)
| LikeCreate (postId userId : Z) (now : Z) : Call Like.t
| LikeDestroy (l : Like.t) : Call unit.

(** *** Validators and hooks of the models *)

(** The [len: [lo, hi]] validator. *)
Definition len_between (lo hi : Z) (s : string) : bool :=
  let n := Z.of_nat (String.length s) in
  (lo <=? n) && (n <=? hi).

(** [beforeCreate] of [Post]. *)
Definition beforeCreate (excerpt : option string) (content : string)
  : option string :=
  if negb (JS.truthy_opt_string excerpt) && JS.truthy_string content
  then Some (JS.substring0 200 content ++ "...")%string
  else excerpt.

(** *** Cascades *)

Definition orphaned (dead : list Z) (c : Comment.t) : bool :=
  match Comment.parentId c with
  | Some p => existsb (Z.eqb p) dead
  | None => false
  end.

(** Deleting the comments [dead] deletes their replies, the replies of
    those, and so on ([onDelete: 'CASCADE'] on [parentId]). *)
Fixpoint cascade (fuel : nat) (dead : list Z) (cs : list Comment.t)
  : list Comment.t :=
  match fuel with
  | O => cs
  | S fuel' =>
      match filter (orphaned dead) cs with
      | [] => cs
      | gone =>
          cascade fuel' (map Comment.id gone)
                  (filter (fun c => negb (orphaned dead c)) cs)
      end
  end.

Definition delete_comments (doomed : Comment.t -> bool)
           (cs : list Comment.t) : list Comment.t :=
  let gone := filter doomed cs in
  let rest := filter (fun c => negb (doomed c)) cs in
  cascade (List.length rest) (map Comment.id gone) rest.

(** *** Queries *)

Definition matches (w : PostWhere) (p : Post.t) : bool :=
  Post.isPublished p
  && match w_search w with
     | Some s =>
         let pat := ("%" ++ s ++ "%")%string in
         ilike pat (Post.title p) || ilike pat (Post.content p)
     | None => true
     end
  && match w_authorId w with
     | Some (Some a) => Post.authorId p =? a
     | _ => true
     end.

(** The [comments] and [likes] includes have no order of their own. *)
Definition join_post (db : Store) (p : Post.t) : PostRow :=
  mkPostRow p
    (join_author Public (Post.authorId p) db)
    (map (fun c => (Comment.id c, Comment.content c, Comment.createdAt c))
         (filter (fun c => Comment.postId c =? Post.id p)
                 (scan_comments db)))
    (map Like.id
         (filter (fun l => Like.postId l =? Post.id p) (scan_likes db))).

Definition with_author (a : AuthorAttrs) (db : Store) (c : Comment.t)
  : Comment.t * option Author :=
  (c, join_author a (Comment.authorId c) db).

Definition by_createdAt (o : SortOrder) (x y : Comment.t) : bool :=
  order_leb (fun c => VNum (Comment.createdAt c)) o x y.

Definition is_reply_to (parent : Z) (c : Comment.t) : bool :=
  match Comment.parentId c with
  | Some p => p =? parent
  | None => false
  end.

Definition is_top_level (postId : Z) (c : Comment.t) : bool :=
  (Comment.postId c =? postId)
  && match Comment.parentId c with None => true | Some _ => false end.

(** The [replies] include. Its [order] option is not part of the
    query, as the include is not [separate]. *)
Definition replies_of (db : Store) (parent : Z)
  : list (Comment.t * option Author) :=
  map (with_author Public db)
      (filter (is_reply_to parent) (scan_comments db)).

Definition join_comment (db : Store) (c : Comment.t) : CommentRow :=
  mkCommentRow c
    (join_author Public (Comment.authorId c) db)
    (replies_of db (Comment.id c)).

(** *** The count of [findAndCountAll]

    The count query joins the includes as the query for the rows does
    and counts the keys of the joined rows. A row with [n] rows of a
    [hasMany] include is there [n] times, and once when [n] is 0; an
    [author] include adds nothing. *)

Definition joined (n : Z) : Z := Z.max 1 n.

Definition count_replies (parent : Z) (db : Store) : Z :=
  Z.of_nat (List.length (filter (is_reply_to parent) (comments db))).

Definition post_join_rows (db : Store) (p : Post.t) : Z :=
  joined (count_comments (Post.id p) db)
  * joined (count_likes (Post.id p) db).

Definition comment_join_rows (db : Store) (c : Comment.t) : Z :=
  joined (count_replies (Comment.id c) db).

Definition total (l : list Z) : Z := fold_right Z.add 0 l.

Section Exec.

(** The [isUrl] validator of the validation library. *)
Variable isUrl : string -> bool.

Definition valid_imageUrl (u : option string) : bool :=
  match u with Some u => isUrl u | None => true end.

Definition valid_opt (lo hi : Z) (s : option string) : bool :=
  match s with Some s => len_between lo hi s | None => true end.

(** [set] marks an attribute as changed only when the new value
    differs from the one the instance holds; [save] validates and
    writes the changed attributes only, and does nothing when there
    is none. *)
Definition changed_str (cur : string) (x : option string)
  : option string :=
  match x with
  | Some v => if String.eqb v cur then None else Some v
  | None => None
  end.

Definition changed_opt_str (cur : option string) (x : option string)
  : option string :=
  match x, cur with
  | Some v, Some c => if String.eqb v c then None else Some v
  | Some v, None => Some v
  | None, _ => None
  end.

Definition changed_num (cur : Z) (x : option Z) : option Z :=
  match x with
  | Some v => if v =? cur then None else Some v
  | None => None
  end.

Definition changes (p : Post.t) (patch : PostPatch) : PostPatch :=
  mkPostPatch
    (changed_str (Post.title p) (set_title patch))
    (changed_str (Post.content p) (set_content patch))
    (changed_opt_str (Post.excerpt p) (set_excerpt patch))
    (changed_opt_str (Post.imageUrl p) (set_imageUrl patch))
    (changed_num (Post.viewCount p) (set_viewCount patch)).

Definition no_change (patch : PostPatch) : bool :=
  match set_title patch, set_content patch, set_excerpt patch,
        set_imageUrl patch, set_viewCount patch with
  | None, None, None, None, None => true
  | _, _, _, _, _ => false
  end.

(** The UPDATE statement of [save]: the changed attributes and
    [updatedAt]. The [beforeUpdate] hook of [Post] acts only when
    [isPublished] changed, which no patch does. *)
Definition apply_patch (patch : PostPatch) (now : Z) (p : Post.t)
  : Post.t :=
  Post.mk (Post.id p)
    (match set_title patch with Some x => x | None => Post.title p end)
    (match set_content patch with
     | Some x => x | None => Post.content p end)
    (match set_excerpt patch with
     | Some x => Some x | None => Post.excerpt p end)
    (match set_imageUrl patch with
     | Some x => Some x | None => Post.imageUrl p end)
    (Post.isPublished p)
    (Post.publishedAt p)
    (match set_viewCount patch with
     | Some x => x | None => Post.viewCount p end)
    (Post.authorId p)
    (Post.createdAt p)
    now.

Definition update_where {A} (sel : A -> bool) (f : A -> A)
           (l : list A) : list A :=
  map (fun x => if sel x then f x else x) l.

(** An INSERT takes the next key of its sequence, also when a
    constraint then rejects it. *)
Definition bump_post_id (db : Store) : Store :=
  mkStore (users db) (posts db) (comments db) (likes db)
          (next_post_id db + 1) (next_comment_id db) (next_like_id db)
          (place db).

Definition bump_comment_id (db : Store) : Store :=
  mkStore (users db) (posts db) (comments db) (likes db)
          (next_post_id db) (next_comment_id db + 1) (next_like_id db)
          (place db).

Definition bump_like_id (db : Store) : Store :=
  mkStore (users db) (posts db) (comments db) (likes db)
          (next_post_id db) (next_comment_id db) (next_like_id db + 1)
          (place db).

Definition is_some {A} (o : option A) : bool :=
  match o with Some _ => true | None => false end.

(** The meaning of a call: what it returns or throws, and the store
    it leaves. Validators run before the statement is sent; unique
    and foreign keys are checked by the store. [destroy] and [save]
    address the row by the key of the instance and are not errors
    when no row has it. *)
Definition exec {X} (c : Call X) (db : Store) : (Err + X) * Store :=
  match c in Call X return (Err + X) * Store with
  | PostFindByPk None => (inl DatabaseError, db)
  | PostFindByPk (Some id) => (inr (find_post id db), db)
  | PostFindByPkAuthor None _ => (inl DatabaseError, db)
  | PostFindByPkAuthor (Some id) a =>
      (inr (option_map
              (fun p => (p, join_author a (Post.authorId p) db))
              (find_post id db)), db)
  | PostFindAndCountAll w limit offset sortBy sortOrder =>
      match w_tags w, w_authorId w, post_column sortBy with
      | Some _, _, _ => (inl DatabaseError, db)
      | None, Some None, _ => (inl DatabaseError, db)
      | None, _, None => (inl DatabaseError, db)
      | None, _, Some col =>
          let hits := filter (matches w) (scan_posts db) in
          match window limit offset
                  (sort_by (order_leb (post_value col) sortOrder) hits)
          with
          | None => (inl DatabaseError, db)
          | Some page =>
              (inr (total (map (post_join_rows db) hits),
                    map (join_post db) page), db)
          end
      end
  | PostCreate v now =>
      if negb (len_between 1 255 (v_title v)
               && len_between 1 50000 (v_content v)
               && valid_imageUrl (v_imageUrl v))
      then (inl ValidationError, db)
      else if negb (is_some (find_user (v_authorId v) db))
      then (inl ForeignKeyConstraintError, bump_post_id db)
      else
        let p :=
          Post.mk (next_post_id db) (v_title v) (v_content v)
                  (beforeCreate (v_excerpt v) (v_content v))
                  (v_imageUrl v) (v_isPublished v) (v_publishedAt v)
                  0 (v_authorId v) now now in
        (inr p, bump_post_id (set_posts (posts db ++ [p]) db))
  | PostSave p patch now =>
      let ch := changes p patch in
      if no_change ch then (inr tt, db)
      else if negb (valid_opt 1 255 (set_title ch)
                    && valid_opt 1 50000 (set_content ch)
                    && valid_imageUrl (set_imageUrl ch))
      then (inl ValidationError, db)
      else
        (inr tt,
         set_posts (update_where (fun q => Post.id q =? Post.id p)
                                 (apply_patch ch now) (posts db)) db)
  | PostDestroy p =>
      let db1 :=
        set_posts (filter (fun q => negb (Post.id q =? Post.id p))
                          (posts db)) db in
      let db2 :=
        set_comments
          (delete_comments (fun c => Comment.postId c =? Post.id p)
                           (comments db1)) db1 in
      (inr tt,
       set_likes (filter (fun l => negb (Like.postId l =? Post.id p))
                         (likes db2)) db2)
  | PostGetCommentsWithAuthors p =>
      (inr (map (with_author AllAttrs db)
                (sort_by (by_createdAt ASC)
                   (filter (fun c => Comment.postId c =? Post.id p)
                           (scan_comments db)))), db)
  | CommentFindByPk None => (inl DatabaseError, db)
  | CommentFindByPk (Some id) => (inr (find_comment id db), db)
  | CommentFindByPkAuthor None => (inl DatabaseError, db)
  | CommentFindByPkAuthor (Some id) =>
      (inr (option_map (with_author Public db) (find_comment id db)), db)
  | CommentFindAndCountAll None _ _ => (inl DatabaseError, db)
  | CommentFindAndCountAll (Some postId) limit offset =>
      let hits := filter (is_top_level postId) (scan_comments db) in
      match window limit offset (sort_by (by_createdAt DESC) hits) with
      | None => (inl DatabaseError, db)
      | Some page =>
          (inr (total (map (comment_join_rows db) hits),
                map (join_comment db) page), db)
      end
  | CommentCount postId => (inr (count_comments postId db), db)
  | CommentCreate v now =>
      if negb (len_between 1 5000 (cv_content v))
      then (inl ValidationError, db)
      else if negb (is_some (find_post (cv_postId v) db)
                    && is_some (find_user (cv_authorId v) db)
                    && match cv_parentId v with
                       | Some p => is_some (find_comment p db)
                       | None => true
                       end)
      then (inl ForeignKeyConstraintError, bump_comment_id db)
      else
        let c :=
          Comment.mk (next_comment_id db) (cv_content v) (cv_postId v)
                     (cv_authorId v) (cv_parentId v) true now now in
        (inr c, bump_comment_id (set_comments (comments db ++ [c]) db))
  | CommentSave c content now =>
      match changed_str (Comment.content c) content with
      | None => (inr tt, db)
      | Some s =>
          if negb (len_between 1 5000 s) then (inl ValidationError, db)
          else
            (inr tt,
             set_comments
               (update_where
                  (fun d => Comment.id d =? Comment.id c)
                  (fun d =>
                     Comment.mk (Comment.id d) s (Comment.postId d)
                                (Comment.authorId d) (Comment.parentId d)
                                (Comment.isApproved d)
                                (Comment.createdAt d) now)
                  (comments db)) db)
      end
  | CommentDestroy c =>
      (inr tt,
       set_comments
         (delete_comments (fun d => Comment.id d =? Comment.id c)
                          (comments db)) db)
  | LikeCount postId => (inr (count_likes postId db), db)
  | LikeFindOne postId userId => (inr (find_like postId userId db), db)
  | LikeCreate postId userId now =>
      if is_some (find_like postId userId db)
      then (inl UniqueConstraintError, bump_like_id db)
      else if negb (is_some (find_post postId db)
                    && is_some (find_user userId db))
      then (inl ForeignKeyConstraintError, bump_like_id db)
      else
        let l := Like.mk (next_like_id db) userId postId now now in
        (inr l, bump_like_id (set_likes (likes db ++ [l]) db))
  | LikeDestroy l =>
      (inr tt,
       set_likes (filter (fun m => negb (Like.id m =? Like.id l))
                         (likes db)) db)
  end.

End Exec.

End Orm.

(* ================================================================== *)
(** ** Controller bodies as programs over the store *)
(* ================================================================== *)

Module Prog.
Import Db Orm.

(** An [async] body: it returns, throws, or awaits a call and goes on
    with what the call returned or threw. *)
Inductive t (A : Type) : Type :=
| Ret (a : A)
| Throw (e : Err)
| Await {X : Type} (c : Call X) (k : Err + X -> t A).

Arguments Ret {A} a.
Arguments Throw {A} e.
Arguments Await {A X} c k.

(** [await c]: a rejected promise throws at the [await]. *)
Definition await {X} (c : Call X) : t X :=
  Await c (fun r => match r with inl e => Throw e | inr x => Ret x end).

Fixpoint bind {A B} (p : t A) (f : A -> t B) : t B :=
  match p with
  | Ret a => f a
  | Throw e => Throw e
  | Await c k => Await c (fun r => bind (k r) f)
  end.

(** [try { p } catch (error) { h }]. *)
Fixpoint try_catch {A} (p : t A) (h : Err -> t A) : t A :=
  match p with
  | Ret a => Ret a
  | Throw e => h e
  | Await c k => Await c (fun r => try_catch (k r) h)
  end.

(** [Promise.all(l.map(f))]. The bodies [f x] only read the store, so
    the order in which their calls reach it does not show; they are
    run one after the other. *)
Fixpoint all {A B} (f : A -> t B) (l : list A) : t (list B) :=
  match l with
  | [] => Ret []
  | x :: l' =>
      bind (f x) (fun y => bind (all f l') (fun ys => Ret (y :: ys)))
  end.

Section Run.
Variable isUrl : string -> bool.

(** What a request leaves behind: its result, the store, and the
    number of calls that went to the store. *)
Record Outcome (A : Type) : Type := mkOutcome {
  result : Err + A;
  store : Store;
  trips : nat
}.

Arguments mkOutcome {A}.

Fixpoint run_from {A} (n : nat) (p : t A) (db : Store) : Outcome A :=
  match p with
  | Ret a => mkOutcome (inr a) db n
  | Throw e => mkOutcome (inl e) db n
  | Await c k =>
      let '(r, db') := exec isUrl c db in run_from (S n) (k r) db'
  end.

(** A request served alone. *)
Definition run {A} (p : t A) (db : Store) : Outcome A :=
  run_from 0 p db.

(** One call of a request in flight. *)
Definition step {A} (p : t A) (db : Store) : t A * Store :=
  match p with
  | Await c k => let '(r, db') := exec isUrl c db in (k r, db')
  | _ => (p, db)
  end.

(** Two requests in flight: the schedule says whose call reaches the
    store next ([true] for the first); when it is exhausted the
    first request runs to its end, then the second. *)
Fixpoint interleave {A B} (sched : list bool) (p : t A) (q : t B)
         (db : Store) : (Err + A) * (Err + B) * Store :=
  match sched with
  | [] =>
      let o1 := run p db in
      let o2 := run q (store _ o1) in
      (result _ o1, result _ o2, store _ o2)
  | true :: sched' =>
      let '(p', db') := step p db in interleave sched' p' q db'
  | false :: sched' =>
      let '(q', db') := step q db in interleave sched' p q' db'
  end.

End Run.

Arguments result {A} o.
Arguments store {A} o.
Arguments trips {A} o.

End Prog.

Declare Scope prog_scope.
Delimit Scope prog_scope with prog.
Notation "x <- p ;; q" := (Prog.bind p (fun x => q))
  (at level 61, p at next level, right associativity) : prog_scope.
Notation "p ;;; q" := (Prog.bind p (fun _ => q))
  (at level 61, right associativity) : prog_scope.

(* ================================================================== *)
(** ** Requests and responses *)
(* ================================================================== *)

Module Http.
Import Db Orm.

(** [req.user], set by the authentication middleware. *)
Record AuthUser : Type := mkAuthUser {
  id : Z;
  email : string;
  username : string
}.

Record Pagination : Type := mkPagination {
  currentPage : option Z;
  totalPages : JS.num;
  totalItems : Z;
  hasNextPage : bool;
  hasPrevPage : bool
}.

(** An element of [posts] in the answer of [getPosts]. *)
Record PostItem : Type := mkPostItem {
  item : PostRow;
  commentCount : Z;
  likeCount : Z;
  isLiked : bool
}.

(** [post] in the answer of [getPostById]. *)
Record PostDetail : Type := mkPostDetail {
  detail_post : Post.t;
  detail_author : option Author;
  detail_comments : list (Comment.t * option Author);
  detail_likeCount : Z;
  detail_isLiked : bool
}.

Inductive Body : Type :=
| ErrorBody (error : string)
| MessageBody (message : string)
| LikedBody (message : string) (liked : bool)
| PostsBody (posts : list PostItem) (pagination : Pagination)
| PostDetailBody (post : PostDetail)
| PostMessageBody (message : string)
                  (post : option (Post.t * option Author))
| CommentsBody (comments : list CommentRow) (pagination : Pagination)
| CommentMessageBody (message : string)
                     (comment : option (Comment.t * option Author)).

Record Response : Type := mkResponse {
  status : Z;
  body : Body
}.

(** [res.status(code).json(b)]. *)
Definition json (code : Z) (b : Body) : Prog.t Response :=
  Prog.Ret (mkResponse code b).

(** The status codes by the names the specification gives them. *)
Definition NotFound : Z := 404.
Definition Forbidden : Z := 403.
Definition Unauthenticated : Z := 401.
Definition BadRequest : Z := 400.
Definition Internal : Z := 500.

(** Arithmetic on numbers that may be NaN or an infinity: the result
    is the double nearest to the exact one. *)
Definition num_sub (a : option Z) (b : Z) : option Z :=
  match a with
  | Some x => JS.to_number (x - b)
  | None => None
  end.

Definition num_mul (a b : option Z) : option Z :=
  match a, b with
  | Some x, Some y => JS.to_number (x * y)
  | _, _ => None
  end.

(** The [pagination] object both listings build. *)
Definition pagination (pageNumber limitNumber : option Z) (count : Z)
  : Pagination :=
  let pages :=
    match limitNumber with
    | Some l => JS.ceil_div count l
    | None => JS.NaN
    end in
  mkPagination pageNumber pages count
    (match pageNumber with
     | Some n => JS.lt_num n pages
     | None => false
     end)
    (match pageNumber with
     | Some n => 1 <? n
     | None => false
     end).

Definition default {A} (d : A) (o : option A) : A :=
  match o with Some x => x | None => d end.

End Http.

(* ================================================================== *)
(** ** commentController *)
(* ================================================================== *)

Module CommentController.
Import Db Orm Prog Http.
Local Open Scope prog_scope.

Definition internal_error (_ : Err) : Prog.t Response :=
  json 500 (ErrorBody "Internal server error").

Definition getComments (postId : string) (page limit : option string)
  : Prog.t Response :=
  try_catch
    (let page := default "1" page in
     let limit := default "20" limit in
     let pageNumber := JS.parseInt page in
     let limitNumber := JS.parseInt limit in
     let offset := num_mul (num_sub pageNumber 1) limitNumber in
     post <- await (PostFindByPk (JS.parseInt postId)) ;;
     match post with
     | None => json 404 (ErrorBody "Post not found")
     | Some _ =>
         comments <- await (CommentFindAndCountAll (JS.parseInt postId)
                                                   limitNumber offset) ;;
         json 200 (CommentsBody (snd comments)
                     (pagination pageNumber limitNumber (fst comments)))
     end)
    internal_error.

(** [CreateCommentRequest]. *)
Record CreateCommentRequest : Type := mkCreateCommentRequest {
  content : string;
  postId : Z;
  parentId : option Z
}.

(** [if (parentId)]: absent and [0] are both falsy. *)
Definition supplied (parentId : option Z) : option Z :=
  match parentId with
  | Some p => if JS.truthy_num p then Some p else None
  | None => None
  end.

Definition createComment (user : option AuthUser)
           (req : CreateCommentRequest) (now : Z) : Prog.t Response :=
  try_catch
    (match user with
     | None => json 401 (ErrorBody "User not authenticated")
     | Some user =>
         post <- await (PostFindByPk (Some (postId req))) ;;
         match post with
         | None => json 404 (ErrorBody "Post not found")
         | Some _ =>
             parent_ok <-
               match supplied (parentId req) with
               | Some p =>
                   parentComment <- await (CommentFindByPk (Some p)) ;;
                   Ret (match parentComment with
                        | None => false
                        | Some pc => Comment.postId pc =? postId req
                        end)
               | None => Ret true
               end ;;
             if negb parent_ok
             then json 404 (ErrorBody "Parent comment not found")
             else
               comment <- await (CommentCreate
                                   (mkCommentValues (content req)
                                      (postId req) (parentId req)
                                      (Http.id user)) now) ;;
               createdComment <-
                 await (CommentFindByPkAuthor (Some (Comment.id comment))) ;;
               json 201 (CommentMessageBody "Comment created successfully"
                                            createdComment)
         end
     end)
    internal_error.

Definition updateComment (user : option AuthUser) (id : string)
           (content : option string) (now : Z) : Prog.t Response :=
  try_catch
    (match user with
     | None => json 401 (ErrorBody "User not authenticated")
     | Some user =>
         comment <- await (CommentFindByPk (JS.parseInt id)) ;;
         match comment with
         | None => json 404 (ErrorBody "Comment not found")
         | Some comment =>
             if negb (Comment.authorId comment =? Http.id user)
             then json 403
                    (ErrorBody "Not authorized to update this comment")
             else
               await (CommentSave comment content now) ;;;
               updatedComment <-
                 await (CommentFindByPkAuthor (Some (Comment.id comment))) ;;
               json 200 (CommentMessageBody "Comment updated successfully"
                                            updatedComment)
         end
     end)
    internal_error.

Definition deleteComment (user : option AuthUser) (id : string)
  : Prog.t Response :=
  try_catch
    (match user with
     | None => json 401 (ErrorBody "User not authenticated")
     | Some user =>
         comment <- await (CommentFindByPk (JS.parseInt id)) ;;
         match comment with
         | None => json 404 (ErrorBody "Comment not found")
         | Some comment =>
             if negb (Comment.authorId comment =? Http.id user)
             then json 403
                    (ErrorBody "Not authorized to delete this comment")
             else
               await (CommentDestroy comment) ;;;
               json 200 (MessageBody "Comment deleted successfully")
         end
     end)
    internal_error.

End CommentController.

(* ================================================================== *)
(** ** postController *)
(* ================================================================== *)

Module PostController.
Import Db Orm Prog Http.
Local Open Scope prog_scope.

Definition internal_error (_ : Err) : Prog.t Response :=
  json 500 (ErrorBody "Internal server error").

(** [PostQuery]: the query string of the listing. *)
Record PostQuery : Type := mkPostQuery {
  page : option string;
  limit : option string;
  sortBy : option string;
  sortOrder : option SortOrder;
  search : option string;
  tags : option string;
  authorId : option string
}.

(** [if (s) ...] on an optional string: the value when truthy. *)
Definition when_truthy (s : option string) : option string :=
  match s with
  | Some s => if JS.truthy_string s then Some s else None
  | None => None
  end.

Definition whereClause (q : PostQuery) : PostWhere :=
  mkPostWhere
    (when_truthy (search q))
    (option_map (fun t => map JS.trim (JS.split ","%char t))
                (when_truthy (tags q)))
    (option_map JS.parseInt (when_truthy (authorId q))).

(** [req.user ? (await Like.findOne(...)) !== null : false]. *)
Definition isLikedBy (user : option AuthUser) (postId : Z)
  : Prog.t bool :=
  match user with
  | Some user =>
      like <- await (LikeFindOne postId (Http.id user)) ;;
      Ret (is_some like)
  | None => Ret false
  end.

(** The callback mapped over [posts.rows]. *)
Definition withCounts (user : option AuthUser) (post : PostRow)
  : Prog.t PostItem :=
  commentCount <- await (CommentCount (Post.id (row_post post))) ;;
  likeCount <- await (LikeCount (Post.id (row_post post))) ;;
  isLiked <- isLikedBy user (Post.id (row_post post)) ;;
  Ret (mkPostItem post commentCount likeCount isLiked).

Definition getPosts (user : option AuthUser) (q : PostQuery)
  : Prog.t Response :=
  try_catch
    (let page := default "1" (page q) in
     let limit := default "10" (limit q) in
     let sortBy := default "createdAt" (sortBy q) in
     let sortOrder := default DESC (sortOrder q) in
     let pageNumber := JS.parseInt page in
     let limitNumber := JS.parseInt limit in
     let offset := num_mul (num_sub pageNumber 1) limitNumber in
     posts <- await (PostFindAndCountAll (whereClause q) limitNumber
                                         offset sortBy sortOrder) ;;
     postsWithCounts <- all (withCounts user) (snd posts) ;;
     json 200 (PostsBody postsWithCounts
                 (pagination pageNumber limitNumber (fst posts))))
    internal_error.

Definition getPostById (user : option AuthUser) (id : string) (now : Z)
  : Prog.t Response :=
  try_catch
    (post <- await (PostFindByPkAuthor (JS.parseInt id) Profile) ;;
     match post with
     | None => json 404 (ErrorBody "Post not found")
     | Some (post, author) =>
         if negb (Post.isPublished post)
         then json 404 (ErrorBody "Post not found")
         else
           let viewCount := Post.viewCount post + 1 in
           await (PostSave post
                    (mkPostPatch None None None None (Some viewCount))
                    now) ;;;
           let post :=
             apply_patch (mkPostPatch None None None None (Some viewCount))
                         now post in
           commentsWithAuthors <- await (PostGetCommentsWithAuthors post) ;;
           likeCount <- await (LikeCount (Post.id post)) ;;
           isLiked <- isLikedBy user (Post.id post) ;;
           json 200 (PostDetailBody
                       (mkPostDetail post author commentsWithAuthors
                                     likeCount isLiked))
     end)
    internal_error.

(** [CreatePostRequest]. *)
Record CreatePostRequest : Type := mkCreatePostRequest {
  title : string;
  content : string;
  excerpt : option string;
  imageUrl : option string;
  c_tags : option (list string)
}.

Definition createPost (user : option AuthUser) (req : CreatePostRequest)
           (now : Z) : Prog.t Response :=
  try_catch
    (match user with
     | None => json 401 (ErrorBody "User not authenticated")
     | Some user =>
         post <- await (PostCreate
                          (mkPostValues (title req) (content req)
                             (excerpt req) (imageUrl req) (Http.id user)
                             true (Some now)) now) ;;
         createdPost <- await (PostFindByPkAuthor (Some (Post.id post))
                                                  Public) ;;
         json 201 (PostMessageBody "Post created successfully" createdPost)
     end)
    internal_error.

(** [UpdatePostRequest]. *)
Record UpdatePostRequest : Type := mkUpdatePostRequest {
  u_title : option string;
  u_content : option string;
  u_excerpt : option string;
  u_imageUrl : option string;
  u_tags : option (list string)
}.

Definition updatePost (user : option AuthUser) (id : string)
           (req : UpdatePostRequest) (now : Z) : Prog.t Response :=
  try_catch
    (match user with
     | None => json 401 (ErrorBody "User not authenticated")
     | Some user =>
         post <- await (PostFindByPk (JS.parseInt id)) ;;
         match post with
         | None => json 404 (ErrorBody "Post not found")
         | Some post =>
             if negb (Post.authorId post =? Http.id user)
             then json 403
                    (ErrorBody "Not authorized to update this post")
             else
               await (PostSave post
                        (mkPostPatch (u_title req) (u_content req)
                           (u_excerpt req) (u_imageUrl req) None)
                        now) ;;;
               updatedPost <- await (PostFindByPkAuthor
                                       (Some (Post.id post)) Public) ;;
               json 200 (PostMessageBody "Post updated successfully"
                                         updatedPost)
         end
     end)
    internal_error.

Definition deletePost (user : option AuthUser) (id : string)
  : Prog.t Response :=
  try_catch
    (match user with
     | None => json 401 (ErrorBody "User not authenticated")
     | Some user =>
         post <- await (PostFindByPk (JS.parseInt id)) ;;
         match post with
         | None => json 404 (ErrorBody "Post not found")
         | Some post =>
             if negb (Post.authorId post =? Http.id user)
             then json 403
                    (ErrorBody "Not authorized to delete this post")
             else
               await (PostDestroy post) ;;;
               json 200 (MessageBody "Post deleted successfully")
         end
     end)
    internal_error.

Definition likePost (user : option AuthUser) (id : string) (now : Z)
  : Prog.t Response :=
  try_catch
    (match user with
     | None => json 401 (ErrorBody "User not authenticated")
     | Some user =>
         post <- await (PostFindByPk (JS.parseInt id)) ;;
         match post with
         | None => json 404 (ErrorBody "Post not found")
         | Some post =>
             existingLike <- await (LikeFindOne (Post.id post)
                                                (Http.id user)) ;;
             match existingLike with
             | Some existingLike =>
                 await (LikeDestroy existingLike) ;;;
                 json 200 (LikedBody "Post unliked" false)
             | None =>
                 await (LikeCreate (Post.id post) (Http.id user) now) ;;;
                 json 200 (LikedBody "Post liked" true)
             end
         end
     end)
    internal_error.

End PostController.

(* ================================================================== *)
(** ** Request validation (middleware/validation) *)
(* ================================================================== *)

Module Validation.

(** [Joi.string().min(lo).max(hi)]. *)
Definition string_between (lo hi : Z) (s : string) : bool :=
  Orm.len_between lo hi s.

(** [createCommentSchema]: [content] of 1 to 5000 characters, [postId]
    a positive integer, [parentId] a positive integer when present. *)
Definition createCommentSchema
           (b : CommentController.CreateCommentRequest) : bool :=
  string_between 1 5000 (CommentController.content b)
  && (0 <? CommentController.postId b)
  && match CommentController.parentId b with
     | Some p => 0 <? p
     | None => true
     end.

End Validation.

(* ================================================================== *)
(** ** Vocabulary of the properties *)
(* ================================================================== *)

Import Db Orm Prog Http.

Arguments JS.parseInt : simpl never.
Arguments JS.to_number : simpl never.
Arguments find_user : simpl never.
Arguments find_post : simpl never.
Arguments find_comment : simpl never.
Arguments find_like : simpl never.
Arguments len_between : simpl never.
Arguments sort_by : simpl never.
Arguments window : simpl never.
Arguments scan_posts : simpl never.
Arguments scan_comments : simpl never.
Arguments scan_likes : simpl never.
Arguments total : simpl never.
Arguments post_join_rows : simpl never.
Arguments comment_join_rows : simpl never.

(** The status a served request answered with. *)
Definition status_of (o : Outcome Response) : option Z :=
  match result o with
  | inr r => Some (status r)
  | inl _ => None
  end.

(** The [liked] flag of the answer of [likePost], if it has one. *)
Definition liked_of (o : Outcome Response) : option bool :=
  match result o with
  | inr (mkResponse _ (LikedBody _ liked)) => Some liked
  | _ => None
  end.

(** *** Requests *)

(** A request to one of the ten controllers. *)
Inductive Request : Type :=
| GetComments (postId : string) (page limit : option string)
| CreateComment (user : option AuthUser)
                (req : CommentController.CreateCommentRequest)
| PutComment (user : option AuthUser) (id : string) (content : option string)
| DelComment (user : option AuthUser) (id : string)
| GetPosts (user : option AuthUser) (q : PostController.PostQuery)
| GetPostById (user : option AuthUser) (id : string)
| CreatePost (user : option AuthUser) (req : PostController.CreatePostRequest)
| PutPost (user : option AuthUser) (id : string)
          (req : PostController.UpdatePostRequest)
| DelPost (user : option AuthUser) (id : string)
| LikePost (user : option AuthUser) (id : string).

(** The controller a request is routed to; [now] is the time it is
    served at. *)
Definition controller (now : Z) (r : Request) : Prog.t Response :=
  match r with
  | GetComments postId page limit =>
      CommentController.getComments postId page limit
  | CreateComment user req => CommentController.createComment user req now
  | PutComment user id content =>
      CommentController.updateComment user id content now
  | DelComment user id => CommentController.deleteComment user id
  | GetPosts user q => PostController.getPosts user q
  | GetPostById user id => PostController.getPostById user id now
  | CreatePost user req => PostController.createPost user req now
  | PutPost user id req => PostController.updatePost user id req now
  | DelPost user id => PostController.deletePost user id
  | LikePost user id => PostController.likePost user id now
  end.

(** Requests served one after the other, each at its time. *)
Fixpoint serve_all (isUrl : string -> bool) (rs : list (Z * Request))
         (db : Store) : Store :=
  match rs with
  | [] => db
  | (now, r) :: rs' =>
      serve_all isUrl rs' (store (run isUrl (controller now r) db))
  end.

(** The authenticated principal of a request, if it has one. *)
Definition actor (r : Request) : option AuthUser :=
  match r with
  | GetComments _ _ _ => None
  | CreateComment user _ | PutComment user _ _ | DelComment user _
  | GetPosts user _ | GetPostById user _ | CreatePost user _
  | PutPost user _ _ | DelPost user _ | LikePost user _ => user
  end.

(** The [authorId] of the stored post or comment that an update or a
    delete addresses. *)
Definition target_author (r : Request) (db : Store) : option Z :=
  match r with
  | PutPost _ id _ | DelPost _ id =>
      match JS.parseInt id with
      | Some n => option_map Post.authorId (find_post n db)
      | None => None
      end
  | PutComment _ id _ | DelComment _ id =>
      match JS.parseInt id with
      | Some n => option_map Comment.authorId (find_comment n db)
      | None => None
      end
  | _ => None
  end.

(** *** Likes, comments and pages *)

(** The Like rows of a (user, post) pair. *)
Definition pair_likes (userId postId : Z) (db : Store) : list Like.t :=
  filter (like_of postId userId) (likes db).

(** [likePost] called once per element of [times], one call after the
    other; the answers' [liked] flags and the final store. *)
Fixpoint toggles (isUrl : string -> bool) (u : AuthUser) (id : string)
         (times : list Z) (db : Store) : list (option bool) * Store :=
  match times with
  | [] => ([], db)
  | now :: times' =>
      let o := run isUrl (PostController.likePost (Some u) id now) db in
      let '(flags, db') := toggles isUrl u id times' (store o) in
      (liked_of o :: flags, db')
  end.

(** A request that has made its first [n] calls. *)
Fixpoint advance {A} (isUrl : string -> bool) (n : nat) (p : Prog.t A)
         (db : Store) : Prog.t A * Store :=
  match n with
  | O => (p, db)
  | S n' => let '(p', db') := step isUrl p db in advance isUrl n' p' db'
  end.

(** Every stored comment with a [parentId] has its parent stored, on
    the same post. *)
Definition parents_on_same_post (db : Store) : Prop :=
  forall c pid,
    In c (comments db) ->
    Comment.parentId c = Some pid ->
    exists parent,
      find_comment pid db = Some parent
      /\ Comment.postId parent = Comment.postId c.

(** Forgetting the moderation flag. *)
Definition unflag (c : Comment.t) : Comment.t :=
  Comment.with_isApproved true c.

Definition unflag_store (db : Store) : Store :=
  set_comments (map unflag (comments db)) db.

Definition unflag_joined (x : Comment.t * option Author)
  : Comment.t * option Author :=
  (unflag (fst x), snd x).

Definition unflag_row (r : CommentRow) : CommentRow :=
  mkCommentRow (unflag (row_comment r)) (row_cauthor r)
               (map unflag_joined (row_replies r)).

Definition unflag_body (b : Body) : Body :=
  match b with
  | CommentsBody rows pg => CommentsBody (map unflag_row rows) pg
  | PostDetailBody d =>
      PostDetailBody
        (mkPostDetail (detail_post d) (detail_author d)
                      (map unflag_joined (detail_comments d))
                      (detail_likeCount d) (detail_isLiked d))
  | CommentMessageBody m c => CommentMessageBody m (option_map unflag_joined c)
  | _ => b
  end.

Definition unflag_result (r : Err + Response) : Err + Response :=
  match r with
  | inr (mkResponse s b) => inr (mkResponse s (unflag_body b))
  | inl e => inl e
  end.

(** Two stores that differ at most in the [isApproved] values of their
    comments. *)
Definition same_but_isApproved (db1 db2 : Store) : Prop :=
  unflag_store db1 = unflag_store db2.

(** [createdAt] descending, resp. ascending. *)
Definition newest_first (l : list Comment.t) : Prop :=
  StronglySorted (fun a b => Comment.createdAt b <= Comment.createdAt a) l.

Definition oldest_first (l : list Comment.t) : Prop :=
  StronglySorted (fun a b => Comment.createdAt a <= Comment.createdAt b) l.

(** Page [pg] with [lim] rows to the page is a window the store grants
    and that integer arithmetic on doubles computes exactly: the page
    is at least 1, the limit is not negative, and page, limit and offset
    are below [2^53]. *)
Definition page_window (pg lim : Z) : Prop :=
  1 <= pg < 2 ^ 53 /\ 0 <= lim < 2 ^ 53 /\ (pg - 1) * lim < 2 ^ 53.

(** [pageNumber] and [limitNumber] of [getPosts], and the call it
    makes for the page. *)
Definition pageNumber (q : PostController.PostQuery) : option Z :=
  JS.parseInt (default "1" (PostController.page q)).

Definition limitNumber (q : PostController.PostQuery) : option Z :=
  JS.parseInt (default "10" (PostController.limit q)).

Definition offsetNumber (q : PostController.PostQuery) : option Z :=
  num_mul (num_sub (pageNumber q) 1) (limitNumber q).

Definition listing_call (q : PostController.PostQuery)
  : Call (Z * list PostRow) :=
  PostFindAndCountAll (PostController.whereClause q) (limitNumber q)
    (offsetNumber q)
    (default "createdAt" (PostController.sortBy q))
    (default DESC (PostController.sortOrder q)).

(** The paging parameters of a listing describe a page: the limit and
    the offset are numbers, not negative and within [bigint]. *)
Definition paging_describes_a_page (q : PostController.PostQuery) : bool :=
  match limitNumber q, offsetNumber q with
  | Some l, Some k => is_bigint l && is_bigint k
  | _, _ => false
  end.

Definition with_paging (page limit : option string)
           (q : PostController.PostQuery) : PostController.PostQuery :=
  PostController.mkPostQuery page limit
    (PostController.sortBy q) (PostController.sortOrder q)
    (PostController.search q) (PostController.tags q)
    (PostController.authorId q).

(** The actor and the post of a toggle are stored. *)
Definition toggle_ready (u : AuthUser) (n : Z) (p : Post.t) (usr : User.t)
           (db : Store) : Prop :=
  find_post n db = Some p /\ find_user (Http.id u) db = Some usr.

(** The row [Like.create] stores. *)
Definition new_like (u : AuthUser) (p : Post.t) (now : Z) (db : Store)
  : Like.t :=
  Like.mk (next_like_id db) (Http.id u) (Post.id p) now now.

(** The element of [postsWithCounts] for one row of the page. *)
Definition counted (viewer : option AuthUser) (db : Store) (row : PostRow)
  : PostItem :=
  mkPostItem row
    (count_comments (Post.id (row_post row)) db)
    (count_likes (Post.id (row_post row)) db)
    (match viewer with
     | Some v => is_some (find_like (Post.id (row_post row)) (Http.id v) db)
     | None => false
     end).

(** The calls the callback of [getPosts] makes for one row. *)
Definition calls_per_post (viewer : option AuthUser) : nat :=
  match viewer with Some _ => 3 | None => 2 end.

(** A listing request with only paging and sorting parameters. *)
Definition listing (page limit sortBy : option string)
  : PostController.PostQuery :=
  PostController.mkPostQuery page limit sortBy None None None None.

(** [leb] read as a relation. *)
Definition ordered_by {A} (leb : A -> A -> bool) (a b : A) : Prop :=
  leb a b = true.

(** *** A small store for the examples

    Two users; three published posts and a draft; on post 1 two
    top-level comments and two replies to the first, one of them
    unapproved; no like. Rows come in insertion order. *)

Definition alice : User.t :=
  User.mk 1 "alice" "alice@example.org" "hash-a" None None None true None 0 0.

Definition bob : User.t :=
  User.mk 2 "bob" "bob@example.org" "hash-b" None None None true None 0 0.

Definition as_alice : AuthUser := mkAuthUser 1 "alice@example.org" "alice".
Definition as_bob : AuthUser := mkAuthUser 2 "bob@example.org" "bob".

Definition demo_post (id author : Z) (published : bool) (at_ : Z) : Post.t :=
  Post.mk id "A title" "Some content" (Some "Some content...") None
          published (if published then Some at_ else None) 0 author at_ at_.

Definition demo_comment (id post author : Z) (parent : option Z)
           (approved : bool) (at_ : Z) : Comment.t :=
  Comment.mk id "A remark" post author parent approved at_ at_.

Definition demo : Store :=
  mkStore
    [alice; bob]
    [demo_post 1 1 true 10; demo_post 2 1 true 20; demo_post 3 2 true 30;
     demo_post 4 2 false 40]
    [demo_comment 1 1 2 None true 50;
     demo_comment 2 1 1 None true 60;
     demo_comment 3 1 1 (Some 1) false 70;
     demo_comment 4 1 2 (Some 1) true 80;
     demo_comment 5 2 2 None true 90]
    []
    5 6 1
    as_inserted.

Definition any_url (_ : string) : bool := true.

(** The example store once Alice has liked post 2. *)
Definition demo_liked : Store :=
  store (run any_url (PostController.likePost (Some as_alice) "2" 99) demo).

(** The example store with every comment approved. *)
Definition demo_approved : Store :=
  set_comments (map unflag (comments demo)) demo.


(** The keys of the comment table are positive, below the sequence and
    pairwise distinct. *)
Definition comment_keys_ok (db : Store) : Prop :=
  NoDup (map Comment.id (comments db))
  /\ 0 < next_comment_id db
  /\ forall c, In c (comments db) -> 0 < Comment.id c < next_comment_id db.

Definition comment_table_ok (db : Store) : Prop :=
  comment_keys_ok db /\ parents_on_same_post db.

(** A store with users and nothing else, its sequences at 1. *)
Definition fresh (us : list User.t) (pl : Table -> Z -> Z) : Store :=
  mkStore us [] [] [] 1 1 1 pl.

(* ================================================================== *)
(** ** Vocabulary of the further properties *)
(* ================================================================== *)

(** *** Constraints of the schema *)

(** The unique index of [likes]: at most one row for a user and a
    post. *)
Definition likes_unique (db : Store) : Prop :=
  forall userId postId,
    (List.length (pair_likes userId postId db) <= 1)%nat.

(** The rows of a table carry pairwise distinct keys, positive and
    below the table's sequence. *)
Definition keyed {A} (key : A -> Z) (next : Z) (l : list A) : Prop :=
  NoDup (map key l)
  /\ 0 < next
  /\ forall x, In x l -> 0 < key x < next.

(** The foreign keys of the three tables find their rows. *)
Definition references_ok (db : Store) : Prop :=
  (forall p, In p (posts db) -> find_user (Post.authorId p) db <> None)
  /\ (forall c,
         In c (comments db) ->
         find_post (Comment.postId c) db <> None
         /\ find_user (Comment.authorId c) db <> None
         /\ forall pid,
             Comment.parentId c = Some pid -> find_comment pid db <> None)
  /\ (forall l,
         In l (likes db) ->
         find_post (Like.postId l) db <> None
         /\ find_user (Like.userId l) db <> None).

(** What the declarations of the models promise of a store. *)
Definition schema_ok (db : Store) : Prop :=
  keyed Post.id (next_post_id db) (posts db)
  /\ keyed Comment.id (next_comment_id db) (comments db)
  /\ keyed Like.id (next_like_id db) (likes db)
  /\ likes_unique db
  /\ references_ok db.

(** *** Requests that address a stored row *)

(** The path parameter a request addresses a post or a comment by. *)
Definition target_key (r : Request) : option string :=
  match r with
  | PutPost _ id _ | DelPost _ id | LikePost _ id | GetPostById _ id
  | PutComment _ id _ | DelComment _ id => Some id
  | GetComments postId _ _ => Some postId
  | _ => None
  end.

(** Whether the row with key [n] that the request addresses is stored. *)
Definition target_stored (r : Request) (n : Z) (db : Store) : bool :=
  match r with
  | PutComment _ _ _ | DelComment _ _ => is_some (find_comment n db)
  | _ => is_some (find_post n db)
  end.

(** The request is one of a signed-in user, or needs none. *)
Definition signed_in (r : Request) : bool :=
  match r with
  | GetComments _ _ _ | GetPosts _ _ | GetPostById _ _ => true
  | CreateComment user _ | PutComment user _ _ | DelComment user _
  | CreatePost user _ | PutPost user _ _ | DelPost user _
  | LikePost user _ => is_some user
  end.

(** *** Threads *)

(** The comment with key [n] and the replies below it: its replies,
    their replies, and so on. *)
Inductive in_thread (cs : list Comment.t) (n : Z) : Comment.t -> Prop :=
| thread_root c :
    In c cs -> Comment.id c = n -> in_thread cs n c
| thread_reply c parent :
    In c cs -> in_thread cs n parent ->
    Comment.parentId c = Some (Comment.id parent) ->
    in_thread cs n c.

(** A comment that a cascade from the keys [dead] reaches. *)
Inductive reached (dead : list Z) (cs : list Comment.t)
  : Comment.t -> Prop :=
| reached_first c pid :
    Comment.parentId c = Some pid -> In pid dead -> reached dead cs c
| reached_next c parent :
    In parent cs -> reached dead cs parent ->
    Comment.parentId c = Some (Comment.id parent) ->
    reached dead cs c.

(** *** Edits *)

(** A comment with a new content, written at [now]. *)
Definition edited (s : string) (now : Z) (c : Comment.t) : Comment.t :=
  Comment.mk (Comment.id c) s (Comment.postId c) (Comment.authorId c)
             (Comment.parentId c) (Comment.isApproved c)
             (Comment.createdAt c) now.

(** *** The life of a post *)

(** [p'] is a later state of the post [p]: key, author, creation time
    and publication are those of [p], and the views are not fewer. *)
Definition later_version (p p' : Post.t) : Prop :=
  Post.id p' = Post.id p
  /\ Post.authorId p' = Post.authorId p
  /\ Post.createdAt p' = Post.createdAt p
  /\ Post.isPublished p' = Post.isPublished p
  /\ Post.publishedAt p' = Post.publishedAt p
  /\ Post.viewCount p <= Post.viewCount p'.

(** The posts of [db'] continue those of [db]: the sequence did not go
    back, and what [db'] stores under a key that [db] had given out is a
    later state of what [db] stored under it. *)
Definition posts_continue (db db' : Store) : Prop :=
  next_post_id db <= next_post_id db'
  /\ forall m p',
      find_post m db' = Some p' ->
      m < next_post_id db ->
      exists p, find_post m db = Some p /\ later_version p p'.

(** *** Listings *)

(** The posts a listing query selects: the published ones that match
    its [search] and [authorId], in the order of the store. *)
Definition selected (q : PostController.PostQuery) (db : Store)
  : list Post.t :=
  filter (matches (PostController.whereClause q)) (scan_posts db).

(** The rows of the join of the selected posts with their comments and
    likes, which [findAndCountAll] counts. *)
Definition joined_total (q : PostController.PostQuery) (db : Store) : Z :=
  total (map (post_join_rows db) (selected q db)).

Definition posts_newest_first (l : list Post.t) : Prop :=
  StronglySorted (fun a b => Post.createdAt b <= Post.createdAt a) l.

(** The post of an element of the answer. *)
Definition post_of (it : PostItem) : Post.t := row_post (item it).

(** *** Search *)

(** A character that stands for itself in an ILIKE pattern. *)
Definition literal (c : ascii) : bool :=
  negb (Ascii.eqb c "%" || Ascii.eqb c "_" || Ascii.eqb c "\").

(** A search term without pattern characters. *)
Definition plain (s : string) : bool := forallb literal (JS.chars s).

(** A string with the case of its letters forgotten. *)
Definition caseless (s : string) : list ascii := map JS.lower (JS.chars s).

(** [s] occurs in [t]. *)
Definition occurs_in (s t : list ascii) : Prop :=
  exists before after, t = (before ++ s ++ after)%list.

(** The [where] of a listing that only searches. *)
Definition searching (s : string) : PostWhere :=
  mkPostWhere (Some s) None None.

(* ================================================================== *)
(** ** Authentication middleware (middleware/auth) *)
(* ================================================================== *)

Module Auth.

(** [JWTPayload], without the two dates the middleware does not
    read. *)
Record JWTPayload : Type := mkJWTPayload {
  jwt_id : Z;
  jwt_email : string;
  jwt_username : string
}.

(** [authHeader?.split(' ')[1]]. *)
Definition token_of (authorization : option string) : option string :=
  match authorization with
  | Some authHeader => nth_error (JS.split " "%char authHeader) 1
  | None => None
  end.

(** [req.user] as the middleware fills it in from the stored user. *)
Definition as_user (user : User.t) : AuthUser :=
  mkAuthUser (User.id user) (User.email user) (User.username user).

(** The two messages of the middleware, ['Token de acesso (e acute)
    necess(a acute)rio'] and ['Token inv(a acute)lido ou expirado'],
    with the code units 233 and 225 of their accented letters. *)
Definition token_required : string :=
  ("Token de acesso " ++ String (ascii_of_nat 233) " necess"
     ++ String (ascii_of_nat 225) "rio")%string.

Definition token_invalid : string :=
  ("Token inv" ++ String (ascii_of_nat 225) "lido ou expirado")%string.

Section Middleware.

(** [jwt.verify(token, JWT_SECRET)]; [None] when it throws. *)
Variable verify : string -> option JWTPayload.

(** The middleware answers, or calls [next] with [req.user] set. *)
Definition authenticateToken (authorization : option string)
           (db : Store) : Response + AuthUser :=
  match PostController.when_truthy (token_of authorization) with
  | None => inl (mkResponse 401 (ErrorBody token_required))
  | Some token =>
      match verify token with
      | Some decoded =>
          match find_user (jwt_id decoded) db with
          | Some user =>
              if User.isActive user then inr (as_user user)
              else inl (mkResponse 401 (ErrorBody token_invalid))
          | None =>
              inl (mkResponse 401 (ErrorBody token_invalid))
          end
      | None =>
          inl (mkResponse 401 (ErrorBody token_invalid))
      end
  end.

(** [optionalAuth] always calls [next]; [req.user] is set when the
    token designates a stored, active user. *)
Definition optionalAuth (authorization : option string) (db : Store)
  : option AuthUser :=
  match PostController.when_truthy (token_of authorization) with
  | Some token =>
      match verify token with
      | Some decoded =>
          match find_user (jwt_id decoded) db with
          | Some user =>
              if User.isActive user then Some (as_user user) else None
          | None => None
          end
      | None => None
      end
  | None => None
  end.

End Middleware.

(** The request interceptor of the client ([services/api]): the
    header it sets for the token it has stored. *)
Definition authorization_header (auth_token : option string)
  : option string :=
  match PostController.when_truthy auth_token with
  | Some token => Some ("Bearer " ++ token)%string
  | None => None
  end.

End Auth.

(* ================================================================== *)
(** ** Request schemas (middleware/validation) *)
(* ================================================================== *)

Module Schemas.

(** [.optional()]: an absent key passes. *)
Definition optional {A} (check : A -> bool) (x : option A) : bool :=
  match x with Some v => check v | None => true end.

(** [Joi.string().max(hi)]: the empty string is not a string to the
    library unless allowed. *)
Definition string_max (hi : Z) (s : string) : bool :=
  Validation.string_between 1 hi s.

(** [Joi.array().items(Joi.string().max(50)).max(10)]. *)
Definition tags_schema (tags : list string) : bool :=
  (Z.of_nat (List.length tags) <=? 10) && forallb (string_max 50) tags.

Section Joi.

(** [Joi.string().uri()] on a non-empty string. *)
Variable isUri : string -> bool.

Definition uri (s : string) : bool := JS.truthy_string s && isUri s.

Definition createPostSchema (b : PostController.CreatePostRequest)
  : bool :=
  Validation.string_between 1 255 (PostController.title b)
  && Validation.string_between 1 50000 (PostController.content b)
  && optional (string_max 500) (PostController.excerpt b)
  && optional uri (PostController.imageUrl b)
  && optional tags_schema (PostController.c_tags b).

Definition updatePostSchema (b : PostController.UpdatePostRequest)
  : bool :=
  optional (Validation.string_between 1 255) (PostController.u_title b)
  && optional (Validation.string_between 1 50000)
              (PostController.u_content b)
  && optional (string_max 500) (PostController.u_excerpt b)
  && optional uri (PostController.u_imageUrl b)
  && optional tags_schema (PostController.u_tags b).

End Joi.

End Schemas.

(* ================================================================== *)
(** ** The routers (routes/posts, routes/comments) *)
(* ================================================================== *)

Module Routes.

(** A request by its route, with the typed content of its path,
    query and body. *)
Inductive Route : Type :=
| GET_posts (q : PostController.PostQuery)
| GET_posts_id (id : string)
| POST_posts (body : PostController.CreatePostRequest)
| PUT_posts_id (id : string) (body : PostController.UpdatePostRequest)
| DELETE_posts_id (id : string)
| POST_posts_id_like (id : string)
| GET_comments_post (postId : string) (page limit : option string)
| POST_comments (body : CommentController.CreateCommentRequest)
| PUT_comments_id (id : string) (content : option string)
| DELETE_comments_id (id : string).

(** The routes behind [authenticateToken]. *)
Definition protected (rt : Route) : bool :=
  match rt with
  | GET_posts _ | GET_posts_id _ | GET_comments_post _ _ _ => false
  | _ => true
  end.

Section Router.

Variable isUrl : string -> bool.
Variable isUri : string -> bool.
Variable verify : string -> option Auth.JWTPayload.

(** What the client gets, and the store the request leaves. *)
Definition Served : Type := (Err + Response) * Store.

(** A middleware answers and the chain stops. *)
Definition stop (r : Response) (db : Store) : Served := (inr r, db).

(** The controller at the end of the chain. *)
Definition handle (p : Prog.t Response) (db : Store) : Served :=
  let o := run isUrl p db in (result o, store o).

(** [validateRequest(schema)]: the [message] and [details] of the
    400 body are texts of the validation library and are left
    out. *)
Definition validateRequest (passes : bool) (next : Store -> Served)
           (db : Store) : Served :=
  if passes then next db
  else stop (mkResponse 400 (ErrorBody "Validation error")) db.

Definition authenticated (authorization : option string)
           (next : AuthUser -> Store -> Served) (db : Store) : Served :=
  match Auth.authenticateToken verify authorization db with
  | inl r => stop r db
  | inr user => next user db
  end.

(** The two routers, a line for a line. *)
Definition serve (authorization : option string) (now : Z) (rt : Route)
           (db : Store) : Served :=
  match rt with
  | GET_posts q =>
      handle (PostController.getPosts
                (Auth.optionalAuth verify authorization db) q) db
  | GET_posts_id id =>
      handle (PostController.getPostById
                (Auth.optionalAuth verify authorization db) id now) db
  | POST_posts body =>
      authenticated authorization
        (fun user =>
           validateRequest (Schemas.createPostSchema isUri body)
             (handle (PostController.createPost (Some user) body now)))
        db
  | PUT_posts_id id body =>
      authenticated authorization
        (fun user =>
           validateRequest (Schemas.updatePostSchema isUri body)
             (handle (PostController.updatePost (Some user) id body now)))
        db
  | DELETE_posts_id id =>
      authenticated authorization
        (fun user => handle (PostController.deletePost (Some user) id))
        db
  | POST_posts_id_like id =>
      authenticated authorization
        (fun user => handle (PostController.likePost (Some user) id now))
        db
  | GET_comments_post postId page limit =>
      (* [optionalAuth] sets a user that [getComments] does not read *)
      handle (CommentController.getComments postId page limit) db
  | POST_comments body =>
      authenticated authorization
        (fun user =>
           validateRequest (Validation.createCommentSchema body)
             (handle (CommentController.createComment (Some user) body
                                                      now)))
        db
  | PUT_comments_id id content =>
      authenticated authorization
        (fun user =>
           handle (CommentController.updateComment (Some user) id content
                                                   now))
        db
  | DELETE_comments_id id =>
      authenticated authorization
        (fun user => handle (CommentController.deleteComment (Some user)
                                                             id))
        db
  end.

End Router.

End Routes.

(** The status of what a route served. *)
Definition served_status (s : Routes.Served) : option Z :=
  match fst s with
  | inr r => Some (status r)
  | inl _ => None
  end.

(** A token for the examples: the key of the user in decimal, after
    [token-]. *)
Definition demo_verify (token : string) : option Auth.JWTPayload :=
  if String.eqb token "token-1"
  then Some (Auth.mkJWTPayload 1 "alice@example.org" "alice")
  else if String.eqb token "token-2"
  then Some (Auth.mkJWTPayload 2 "bob@example.org" "bob")
  else if String.eqb token "token-7"
  then Some (Auth.mkJWTPayload 7 "eve@example.org" "eve")
  else None.

(** *** What an update asks for *)

(** The value an attribute has after an update that may supply one. *)
Definition updated (cur : string) (x : option string) : string :=
  match x with Some v => v | None => cur end.



(** A token has no space in it. *)
Definition spaceless (s : string) : bool :=
  forallb (fun c => negb (Ascii.eqb c " ")) (JS.chars s).

(* ================================================================== *)
(** ** authController *)
(* ================================================================== *)

Module AuthController.

(** The store with the sequence behind the keys of [users]. *)
Record Site : Type := mkSite {
  db : Store;
  next_user_id : Z
}.

Definition set_users (us : list User.t) (s : Site) : Site :=
  mkSite (mkStore us (posts (db s)) (comments (db s)) (likes (db s))
                  (next_post_id (db s)) (next_comment_id (db s))
                  (next_like_id (db s)) (place (db s)))
         (next_user_id s).

Definition bump_user_id (s : Site) : Site :=
  mkSite (db s) (next_user_id s + 1).

(** An [async] body over the site: it returns or throws, and leaves a
    site. *)
Definition M (A : Type) : Type := Site -> (Err + A) * Site.

Definition ret {A} (a : A) : M A := fun s => (inr a, s).

Definition bind {A B} (m : M A) (f : A -> M B) : M B :=
  fun s =>
    match m s with
    | (inr a, s') => f a s'
    | (inl e, s') => (inl e, s')
    end.

(** [try { m } catch (error) { h }]. *)
Definition try_catch {A} (m : M A) (h : Err -> M A) : M A :=
  fun s =>
    match m s with
    | (inr a, s') => (inr a, s')
    | (inl e, s') => h e s'
    end.

(** [CreateUserRequest], [LoginRequest] and the body of
    [PUT /auth/profile]. *)
Record CreateUserRequest : Type := mkCreateUserRequest {
  username : string;
  email : string;
  password : string;
  firstName : option string;
  lastName : option string
}.

Record LoginRequest : Type := mkLoginRequest {
  l_email : string;
  l_password : string
}.

Record UpdateProfileRequest : Type := mkUpdateProfileRequest {
  p_firstName : option string;
  p_lastName : option string;
  p_avatar : option string
}.

(** [user.toJSON()]: the attributes of the user without [password]. *)
Record UserJSON : Type := mkUserJSON {
  j_id : Z;
  j_username : string;
  j_email : string;
  j_firstName : option string;
  j_lastName : option string;
  j_avatar : option string;
  j_isActive : bool;
  j_lastLogin : option Z;
  j_createdAt : Z;
  j_updatedAt : Z
}.

Definition toJSON (u : User.t) : UserJSON :=
  mkUserJSON (User.id u) (User.username u) (User.email u)
             (User.firstName u) (User.lastName u) (User.avatar u)
             (User.isActive u) (User.lastLogin u) (User.createdAt u)
             (User.updatedAt u).

Inductive Body : Type :=
| Error (error : string)
| Session (message : string) (user : UserJSON) (token : string)
| Profile (user : UserJSON) (posts : list (Z * string * Z))
| Updated (message : string) (user : UserJSON).

Record Response : Type := mkResponse {
  status : Z;
  body : Body
}.

Definition json (code : Z) (b : Body) : M Response :=
  ret (mkResponse code b).

Definition internal_error (_ : Err) : M Response :=
  json 500 (Error "Internal server error").

(** The characters of [/^[a-zA-Z0-9_-]+$/]. *)
Definition username_char (c : ascii) : bool :=
  let n := nat_of_ascii c in
  ((97 <=? n) && (n <=? 122))%nat || ((65 <=? n) && (n <=? 90))%nat
  || ((48 <=? n) && (n <=? 57))%nat || (n =? 95)%nat || (n =? 45)%nat.

Definition username_pattern (s : string) : bool :=
  JS.truthy_string s && forallb username_char (JS.chars s).

(** A value fits a [STRING(n)] column. *)
Definition fits (n : Z) (s : string) : bool :=
  Z.of_nat (String.length s) <=? n.

Definition fits_opt (n : Z) (s : option string) : bool :=
  match s with Some s => fits n s | None => true end.

(** The users with this email or this username. *)
Definition email_or_username (email username : string) (u : User.t)
  : bool :=
  String.eqb (User.email u) email || String.eqb (User.username u) username.

(** A user with some attributes set. *)
Definition with_lastLogin (at_ now : Z) (w : User.t) : User.t :=
  User.mk (User.id w) (User.username w) (User.email w) (User.password w)
          (User.firstName w) (User.lastName w) (User.avatar w)
          (User.isActive w) (Some at_) (User.createdAt w) now.

Definition with_profile (firstName lastName avatar : option string)
           (now : Z) (w : User.t) : User.t :=
  User.mk (User.id w) (User.username w) (User.email w) (User.password w)
          (match firstName with Some x => Some x | None => User.firstName w
           end)
          (match lastName with Some x => Some x | None => User.lastName w
           end)
          (match avatar with Some x => Some x | None => User.avatar w end)
          (User.isActive w) (User.lastLogin w) (User.createdAt w) now.

Section Controller.

(** The [isEmail] validator of the model. *)
Variable isEmail : string -> bool.
(** [bcrypt.hash(password, 12)] with the salt it draws, and
    [bcrypt.compare]. *)
Variable hash : string -> Z -> string.
Variable compare : string -> string -> bool.
(** [jwt.sign(payload, JWT_SECRET, { expiresIn })] at a time. *)
Variable sign : Auth.JWTPayload -> Z -> string.

(** [generateToken({ id, email, username })]. *)
Definition generateToken (u : User.t) (now : Z) : string :=
  sign (Auth.mkJWTPayload (User.id u) (User.email u) (User.username u))
       now.

(** *** The calls on [User] *)

(** [User.findOne({ where: { [Op.or]: [{ email }, { username }] } })]. *)
Definition findOne_email_or_username (email username : string)
  : M (option User.t) :=
  fun s => (inr (find (email_or_username email username) (users (db s))),
            s).

(** [User.findOne({ where: { email } })]. *)
Definition findOne_email (email : string) : M (option User.t) :=
  fun s =>
    (inr (find (fun u => String.eqb (User.email u) email)
               (users (db s))), s).

(** [User.findByPk(id)]. *)
Definition findByPk (id : Z) : M (option User.t) :=
  fun s => (inr (find_user id (db s)), s).

(** [User.findByPk(id, { include: posts })] with the attributes
    [id], [title] and [createdAt] of the posts, which come in the
    order of the store. *)
Definition findByPk_posts (id : Z)
  : M (option (User.t * list (Z * string * Z))) :=
  fun s =>
    (inr (option_map
            (fun u =>
               (u, map (fun p => (Post.id p, Post.title p,
                                  Post.createdAt p))
                       (filter (fun p => Post.authorId p =? User.id u)
                               (scan_posts (db s)))))
            (find_user id (db s))), s).

(** [User.create]: the validators of the model run on the values
    given, the [beforeCreate] hook then replaces the password by
    its hash, and the row is inserted. A value longer than its
    column is refused before a key is taken; the insert takes the
    next key also when a unique index then refuses it. *)
Definition create (v : CreateUserRequest) (salt now : Z) : M User.t :=
  fun s =>
    if negb (len_between 3 50 (username v)
             && username_pattern (username v)
             && isEmail (email v)
             && len_between 6 255 (password v))
    then (inl ValidationError, s)
    else
      let hashed :=
        if JS.truthy_string (password v) then hash (password v) salt
        else password v in
      let u :=
        User.mk (next_user_id s) (username v) (email v) hashed
                (firstName v) (lastName v) None true None now now in
      if negb (fits 50 (username v) && fits 255 (email v)
               && fits 255 hashed && fits_opt 100 (firstName v)
               && fits_opt 100 (lastName v))
      then (inl DatabaseError, s)
      else if existsb (email_or_username (email v) (username v))
                      (users (db s))
      then (inl UniqueConstraintError, bump_user_id s)
      else
        (inr u, bump_user_id (set_users (users (db s) ++ [u]) s)).

(** [user.lastLogin = new Date(); await user.save()]: nothing is
    written when the attribute already has the value. What is
    returned is the instance as the controller then holds it. *)
Definition save_lastLogin (user : User.t) (now : Z) : M User.t :=
  fun s =>
    if match User.lastLogin user with
       | Some t => t =? now
       | None => false
       end
    then (inr user, s)
    else
      (inr (with_lastLogin now now user),
       set_users
         (update_where (fun w => User.id w =? User.id user)
                       (with_lastLogin now now) (users (db s))) s).

(** [user.update({ firstName, lastName, avatar })]. Keys without a
    value are dropped. When no value differs from the one the
    instance holds, nothing happens and the instance stays as it
    was. Otherwise the instance takes the values and the time, and
    the keys are written with [updatedAt]; the store refuses a name
    longer than its column. *)
Definition update_profile (user : User.t) (b : UpdateProfileRequest)
           (now : Z) : M User.t :=
  fun s =>
    match changed_opt_str (User.firstName user) (p_firstName b),
          changed_opt_str (User.lastName user) (p_lastName b),
          changed_opt_str (User.avatar user) (p_avatar b) with
    | None, None, None => (inr user, s)
    | _, _, _ =>
        if negb (fits_opt 100 (p_firstName b)
                 && fits_opt 100 (p_lastName b))
        then (inl DatabaseError, s)
        else
          (inr (with_profile (p_firstName b) (p_lastName b)
                             (p_avatar b) now user),
           set_users
             (update_where
                (fun w => User.id w =? User.id user)
                (with_profile (p_firstName b) (p_lastName b)
                              (p_avatar b) now)
                (users (db s))) s)
    end.

(** *** The controllers *)

Definition register (req : CreateUserRequest) (salt now : Z)
  : M Response :=
  try_catch
    (bind (findOne_email_or_username (email req) (username req))
       (fun existingUser =>
          match existingUser with
          | Some _ =>
              json 409
                (Error "User already exists with this email or username")
          | None =>
              bind (create req salt now)
                (fun user =>
                   json 201
                     (Session "User created successfully" (toJSON user)
                              (generateToken user now)))
          end))
    internal_error.

Definition login (req : LoginRequest) (now : Z) : M Response :=
  try_catch
    (bind (findOne_email (l_email req))
       (fun user =>
          match user with
          | None => json 401 (Error "Invalid credentials")
          | Some user =>
              if negb (User.isActive user)
              then json 401 (Error "Invalid credentials")
              else if negb (compare (l_password req) (User.password user))
              then json 401 (Error "Invalid credentials")
              else
                bind (save_lastLogin user now)
                  (fun user =>
                     json 200
                       (Session "Login successful" (toJSON user)
                                (generateToken user now)))
          end))
    internal_error.

Definition getProfile (user : option AuthUser) : M Response :=
  try_catch
    (match user with
     | None => json 401 (Error "User not authenticated")
     | Some user =>
         bind (findByPk_posts (Http.id user))
           (fun found =>
              match found with
              | None => json 404 (Error "User not found")
              | Some (user, posts) => json 200 (Profile (toJSON user) posts)
              end)
     end)
    internal_error.

Definition updateProfile (user : option AuthUser)
           (b : UpdateProfileRequest) (now : Z) : M Response :=
  try_catch
    (match user with
     | None => json 401 (Error "User not authenticated")
     | Some user =>
         bind (findByPk (Http.id user))
           (fun found =>
              match found with
              | None => json 404 (Error "User not found")
              | Some user =>
                  bind (update_profile user b now)
                    (fun user =>
                       json 200
                         (Updated "Profile updated successfully"
                                  (toJSON user)))
              end)
     end)
    internal_error.

End Controller.

End AuthController.

(** *** Vocabulary of the properties of the accounts *)

(** A request to one of the four controllers of [authController]. *)
Inductive AccountRequest : Type :=
| Register (req : AuthController.CreateUserRequest) (salt : Z)
| Login (req : AuthController.LoginRequest)
| GetProfile (user : option AuthUser)
| PutProfile (user : option AuthUser)
             (b : AuthController.UpdateProfileRequest).

(** Usernames, emails and keys are those of one user each. *)
Definition accounts_distinct (s : AuthController.Site) : Prop :=
  NoDup (map User.email (users (AuthController.db s)))
  /\ NoDup (map User.username (users (AuthController.db s)))
  /\ keyed User.id (AuthController.next_user_id s)
           (users (AuthController.db s)).

(** The values of a registration pass the validators of the model and
    fit the columns. *)
Definition registrable (isEmail : string -> bool) (hash : string -> Z -> string)
           (req : AuthController.CreateUserRequest) (salt : Z) : bool :=
  len_between 3 50 (AuthController.username req)
  && AuthController.username_pattern (AuthController.username req)
  && isEmail (AuthController.email req)
  && len_between 6 255 (AuthController.password req)
  && AuthController.fits 255 (AuthController.email req)
  && AuthController.fits 255 (hash (AuthController.password req) salt)
  && AuthController.fits_opt 100 (AuthController.firstName req)
  && AuthController.fits_opt 100 (AuthController.lastName req).

(** The account a registration stores. *)
Definition new_account (hash : string -> Z -> string)
           (req : AuthController.CreateUserRequest) (salt now : Z)
           (s : AuthController.Site) : User.t :=
  User.mk (AuthController.next_user_id s) (AuthController.username req)
          (AuthController.email req)
          (hash (AuthController.password req) salt)
          (AuthController.firstName req) (AuthController.lastName req)
          None true None now now.

(** Two users that differ at most in their profile: names, avatar and
    the two times a profile update or a login writes. *)
Definition same_account (u u' : User.t) : Prop :=
  User.id u' = User.id u
  /\ User.username u' = User.username u
  /\ User.email u' = User.email u
  /\ User.password u' = User.password u
  /\ User.isActive u' = User.isActive u
  /\ User.createdAt u' = User.createdAt u.

(** *** Functions for the examples *)

Definition demo_isEmail (s : string) : bool :=
  existsb (Ascii.eqb "@") (JS.chars s).

Definition demo_hash (password : string) (salt : Z) : string :=
  ("$2a$12$" ++ password)%string.

Definition demo_compare (password hashed : string) : bool :=
  String.eqb hashed ("$2a$12$" ++ password)%string.

Definition demo_sign (p : Auth.JWTPayload) (now : Z) : string :=
  ("signed." ++ Auth.jwt_username p)%string.


Definition demo_site : AuthController.Site := AuthController.mkSite demo 3.

Definition carol : AuthController.CreateUserRequest :=
  AuthController.mkCreateUserRequest "carol" "carol@example.org" "secret-c"
                                     (Some "Carol") None.

(** The controller an account request is routed to, and requests served
    one after the other, each at its time. *)
Definition account_controller (isEmail : string -> bool)
           (hash : string -> Z -> string) (compare : string -> string -> bool)
           (sign : Auth.JWTPayload -> Z -> string) (now : Z)
           (r : AccountRequest) : AuthController.M AuthController.Response :=
  match r with
  | Register req salt => AuthController.register isEmail hash sign req salt now
  | Login req => AuthController.login compare sign req now
  | GetProfile user => AuthController.getProfile user
  | PutProfile user b => AuthController.updateProfile user b now
  end.

Fixpoint serve_accounts (isEmail : string -> bool)
         (hash : string -> Z -> string) (compare : string -> string -> bool)
         (sign : Auth.JWTPayload -> Z -> string)
         (rs : list (Z * AccountRequest)) (s : AuthController.Site)
  : AuthController.Site :=
  match rs with
  | [] => s
  | (now, r) :: rs' =>
      serve_accounts isEmail hash compare sign rs'
        (snd (account_controller isEmail hash compare sign now r s))
  end.

(** The status an account request was answered with. *)
Definition account_status (r : Err + AuthController.Response) : option Z :=
  match r with
  | inr r => Some (AuthController.status r)
  | inl _ => None
  end.

(** Every account of [s] is an account of [s'], with the key, username,
    email, password and activity it had. *)
Definition accounts_continue (s s' : AuthController.Site) : Prop :=
  forall u,
    In u (users (AuthController.db s)) ->
    exists u',
      In u' (users (AuthController.db s')) /\ same_account u u'.

(** *** Listing comments *)

(** The top-level comments of a post as [getComments] orders them. *)
Definition thread_heads (n : Z) (db : Store) : list Comment.t :=
  sort_by (by_createdAt DESC) (filter (is_top_level n) (scan_comments db)).

(** The comments an answer of [getComments] shows: the top-level ones
    and the replies they carry. *)
Definition shown_comments (rows : list CommentRow) : list Comment.t :=
  flat_map (fun r => row_comment r :: map fst (row_replies r)) rows.

(* ================================================================== *)
(** ** The client: hooks/usePostsAdvanced and hooks/useComments *)
(* ================================================================== *)

Module UsePostsAdvanced.

(** The value the list query caches: the answer of the listing. *)
Record PostsData : Type := mkPostsData {
  posts : option (list PostItem);
  pagination : option Pagination
}.

(** The value the query [['post', postId]] caches: the answer of
    [getPostById], an object with the key [post]. [isLiked] and
    [likeCount] are keys of that object that only [onMutate] sets;
    [None] is [undefined]. *)
Record PostData : Type := mkPostData {
  post : PostDetail;
  isLiked : option bool;
  likeCount : option JS.num
}.

(** The part of the query cache that the like mutation reads and
    writes: the entry of the post and that of the list. *)
Record Cache : Type := mkCache {
  post_data : option PostData;
  posts_data : option PostsData
}.

(** [undefined] is falsy. *)
Definition truthy (b : option bool) : bool :=
  match b with Some b => b | None => false end.

(** [n + d] for a number [n] that may be [undefined]: with
    [undefined] the sum is NaN. *)
Definition plus (n : option JS.num) (d : Z) : JS.num :=
  match n with
  | Some (JS.Fin x) =>
      match JS.to_number (x + d) with
      | Some v => JS.Fin v
      | None => if 0 <? x then JS.PosInf else JS.NegInf
      end
  | Some other => other
  | None => JS.NaN
  end.

(** The updater given to [setQueryData(['post', postId], ...)]. With
    nothing cached [old] is [undefined], and reading [old.likeCount]
    throws: the result is [None]. *)
Definition onMutate_post (old : option PostData) : option PostData :=
  match old with
  | Some old =>
      Some (mkPostData (post old)
              (Some (negb (truthy (isLiked old))))
              (Some (if truthy (isLiked old)
                     then plus (likeCount old) (- 1)
                     else plus (likeCount old) 1)))
  | None => None
  end.

(** The update of one post of the list in [onMutate] of the like
    mutation. *)
Definition toggled (postId : Z) (post : PostItem) : PostItem :=
  if Post.id (row_post (item post)) =? postId
  then mkPostItem (item post) (commentCount post)
                  (if Http.isLiked post then Http.likeCount post - 1
                   else Http.likeCount post + 1)
                  (negb (Http.isLiked post))
  else post.

(** The updater given to [setQueryData(queryKey, ...)]: [old] is
    [None] when nothing is cached. *)
Definition onMutate_posts (postId : Z) (old : option PostsData)
  : PostsData :=
  mkPostsData
    (match old with
     | Some old => option_map (map (toggled postId)) (posts old)
     | None => None
     end)
    (match old with Some old => pagination old | None => None end).

(** [onMutate] of the like mutation: the two entries are read for the
    context, then the entry of the post is updated, then that of the
    list. When the first update throws, the second is not made and
    the mutation fails before its request is sent: the result is
    [None]. Otherwise it is the context and the cache. *)
Definition onMutate (postId : Z) (c : Cache) : option (Cache * Cache) :=
  match onMutate_post (post_data c) with
  | Some d =>
      Some (c, mkCache (Some d) (Some (onMutate_posts postId (posts_data c))))
  | None => None
  end.

(** [setQueryData] of an answer of the listing. *)
Definition cached (b : Body) : option PostsData :=
  match b with
  | PostsBody items pgn => Some (mkPostsData (Some items) (Some pgn))
  | _ => None
  end.

(** [posts: postsData?.posts || []], what the hook hands to the
    page. *)
Definition shown (c : Cache) : list PostItem :=
  match posts_data c with
  | Some data => default [] (posts data)
  | None => []
  end.

End UsePostsAdvanced.

(** What a reader sees of an element of a listing: the post, its counts
    and whether the reader likes it. *)
Definition counts_shown (it : PostItem) : Z * Z * Z * bool :=
  (Post.id (post_of it), commentCount it, likeCount it, isLiked it).

(** The body of an answer. *)
Definition body_of (o : Outcome Response) : option Body :=
  match result o with
  | inr r => Some (body r)
  | inl _ => None
  end.

Module UseComments.

(** A [Comment] of the client state: a comment of an answer with its
    author and, when the answer carries them, its replies. *)
Record t : Type := mk {
  comment : Comment.t;
  author : option Author;
  replies : option (list (Comment.t * option Author))
}.

(** An element of [response.comments] of a listing, and the
    [response.comment] of a creation or an update, which has no
    [replies]. *)
Definition of_row (r : CommentRow) : t :=
  mk (row_comment r) (row_cauthor r) (Some (row_replies r)).

Definition of_comment (x : Comment.t * option Author) : t :=
  mk (fst x) (snd x) None.

(** [setComments(response.comments)]. *)
Definition fetched (b : Body) : list t :=
  match b with
  | CommentsBody rows _ => map of_row rows
  | _ => []
  end.

(** The updater of [addComment]. *)
Definition addComment (parentId : option Z)
           (created : Comment.t * option Author) (prev : list t) : list t :=
  match CommentController.supplied parentId with
  | Some parentId =>
      map (fun comment_ =>
             if Comment.id (comment comment_) =? parentId
             then mk (comment comment_) (author comment_)
                     (Some (default [] (replies comment_) ++ [created])%list)
             else comment_)
          prev
  | None => of_comment created :: prev
  end.

(** The updater of [updateComment]. *)
Definition updateComment (commentId : Z)
           (updated : Comment.t * option Author) (prev : list t) : list t :=
  map (fun comment_ =>
         if Comment.id (comment comment_) =? commentId
         then of_comment updated
         else mk (comment comment_) (author comment_)
                 (Some (default []
                          (option_map
                             (map (fun reply =>
                                     if Comment.id (fst reply) =? commentId
                                     then updated else reply))
                             (replies comment_)))))
      prev.

(** The updater of [deleteComment]. *)
Definition deleteComment (commentId : Z) (prev : list t) : list t :=
  map (fun comment_ =>
         mk (comment comment_) (author comment_)
            (Some (default []
                     (option_map
                        (filter (fun reply =>
                                   negb (Comment.id (fst reply)
                                         =? commentId)))
                        (replies comment_)))))
      (filter (fun comment_ =>
                 negb (Comment.id (comment comment_) =? commentId))
              prev).

(** What is rendered of a comment: [comment.replies] or nothing. *)
Definition rendered (c : t)
  : Comment.t * option Author * list (Comment.t * option Author) :=
  (comment c, author c, default [] (replies c)).

End UseComments.

(** The comment of an answer of [createComment] or [updateComment]. *)
Definition comment_of (o : Outcome Response)
  : option (Comment.t * option Author) :=
  match result o with
  | inr (mkResponse _ (CommentMessageBody _ c)) => c
  | _ => None
  end.

(** The listing the client asks for: page 1, 20 to the page. *)
Definition first_page (postId : string) : Prog.t Response :=
  CommentController.getComments postId (Some "1") (Some "20").

(** The store places the comment it stores next after the replies to
    [parentId] that it holds. *)
Definition placed_last (parentId : option Z) (db : Store) : Prop :=
  forall pid x,
    parentId = Some pid ->
    In x (comments db) ->
    Comment.parentId x = Some pid ->
    place db Comments (Comment.id x)
    <= place db Comments (next_comment_id db).

(** A rewriting of comments that leaves their place in the listings
    alone: key, post, parent and creation time. *)
Definition keeps_place (g : Comment.t -> Comment.t) : Prop :=
  forall x,
    Comment.id (g x) = Comment.id x
    /\ Comment.postId (g x) = Comment.postId x
    /\ Comment.parentId (g x) = Comment.parentId x
    /\ Comment.createdAt (g x) = Comment.createdAt x.

(* ================================================================== *)
(** ** The code on examples *)
(* ================================================================== *)

Example parseInt_plain : JS.parseInt "42" = Some 42.
Proof. reflexivity. Qed.

Example parseInt_prefix : JS.parseInt "  -12px" = Some (-12).
Proof. reflexivity. Qed.

Example parseInt_hex : JS.parseInt "0x1f" = Some 31.
Proof. reflexivity. Qed.

Example parseInt_nan : JS.parseInt "abc" = None.
Proof. reflexivity. Qed.

Example parseInt_empty : JS.parseInt "" = None.
Proof. reflexivity. Qed.

(** A no-break space before the digits is skipped. *)
Example parseInt_nbsp :
  JS.parseInt (String (ascii_of_nat 160) "2") = Some 2.
Proof. reflexivity. Qed.

(** Above [2^53] the integer read is rounded to a double, and a numeral
    of 310 digits reads as an infinity. *)
Example parseInt_rounds :
  JS.parseInt "9007199254740993" = Some 9007199254740992
  /\ JS.parseInt "9223372036854775807" = Some 9223372036854775808.
Proof. split; vm_compute; reflexivity. Qed.

Example parseInt_infinity :
  JS.parseInt (JS.of_chars (repeat "9"%char 310)) = None
  /\ JS.parseInt (JS.of_chars (repeat "9"%char 308)) <> None.
Proof. split; vm_compute; [reflexivity|discriminate]. Qed.

Example split_trim :
  map JS.trim (JS.split ","%char "a, b ,c") = ["a"; "b"; "c"].
Proof. reflexivity. Qed.

Example ceil_div_25_20 : JS.ceil_div 25 20 = JS.Fin 2.
Proof. reflexivity. Qed.

Example ilike_substring : ilike "%foo%" "A Food blog" = true.
Proof. reflexivity. Qed.

Example ilike_no_match : ilike "%foo%" "A blog" = false.
Proof. reflexivity. Qed.

(** The default listing of the example store: the three published
    posts, newest first, on one page. [totalItems] is 6: post 1 is
    counted once for each of its four comments. *)
Example getPosts_default_page :
  exists items,
    result (run any_url (PostController.getPosts None (listing None None None))
                demo)
    = inr (mkResponse 200
             (PostsBody items (mkPagination (Some 1) (JS.Fin 1) 6 false false)))
    /\ map (fun i => Post.id (row_post (item i))) items = [3; 2; 1]
    /\ map commentCount items = [0; 1; 4].
Proof. eexists. split; [vm_compute; reflexivity|]. split; reflexivity. Qed.

(** A second page of one post. *)
Example getPosts_second_page :
  exists items,
    result (run any_url
              (PostController.getPosts None
                 (listing (Some "2") (Some "1") None)) demo)
    = inr (mkResponse 200
             (PostsBody items (mkPagination (Some 2) (JS.Fin 6) 6 true true)))
    /\ map (fun i => Post.id (row_post (item i))) items = [2].
Proof. eexists. split; [vm_compute; reflexivity|]. reflexivity. Qed.

(** A limit of zero is taken as given: an empty page of infinitely
    many. *)
Example getPosts_limit_zero :
  result (run any_url
            (PostController.getPosts None (listing None (Some "0") None))
            demo)
  = inr (mkResponse 200
           (PostsBody [] (mkPagination (Some 1) JS.PosInf 6 true false))).
Proof. reflexivity. Qed.

(** A filter on tags names a column the posts do not have. *)
Example getPosts_tags :
  status_of
    (run any_url
       (PostController.getPosts None
          (PostController.mkPostQuery None None None None None (Some "a,b")
                                      None)) demo)
  = Some Internal.
Proof. reflexivity. Qed.

(** Alice deletes her post 1: its five rows of comments go with it. *)
Example deletePost_cascades :
  let o := run any_url (PostController.deletePost (Some as_alice) "1") demo in
  status_of o = Some 200
  /\ map Post.id (posts (store o)) = [2; 3; 4]
  /\ map Comment.id (comments (store o)) = [5].
Proof. repeat split. Qed.

(** Bob deletes his comment 1: its two replies go with it. *)
Example deleteComment_cascades :
  let o :=
    run any_url (CommentController.deleteComment (Some as_bob) "1") demo in
  status_of o = Some 200
  /\ map Comment.id (comments (store o)) = [2; 5].
Proof. repeat split. Qed.

(** A page or a limit beyond the 64-bit integers is refused. *)
Example getPosts_limit_beyond_bigint :
  status_of
    (run any_url
       (PostController.getPosts None
          (listing None (Some "9223372036854775808") None)) demo)
  = Some Internal
  /\ status_of
       (run any_url
          (PostController.getPosts None
             (listing (Some "9223372036854775808") (Some "1") None)) demo)
     = Some Internal.
Proof. split; reflexivity. Qed.

(** The replies of a comment come in the order of the store, whatever
    their creation times: with the rows of the example store placed by
    descending key, the reply created at 80 comes before the one
    created at 70. *)
Example getComments_replies_in_store_order :
  exists rows pgn,
    result (run any_url (CommentController.getComments "1" None None)
                (set_place (fun _ k => - k) demo))
    = inr (mkResponse 200 (CommentsBody rows pgn))
    /\ map (fun r => map (fun x => Comment.createdAt (fst x)) (row_replies r))
           rows
       = [[]; [80; 70]]
    /\ totalItems pgn = 3.
Proof.
  eexists. eexists. split; [vm_compute; reflexivity|]. split; reflexivity.
Qed.

(* ================================================================== *)
(** ** Properties *)
(* ================================================================== *)

(** *** Generic facts about the store *)

Lemma find_some_id {A} (key : A -> Z) (n : Z) (l : list A) (x : A) :
  find (fun y => key y =? n) l = Some x -> key x = n /\ In x l.
Proof.
  intros H. apply find_some in H. destruct H as [Hin Heq].
  split; [now apply Z.eqb_eq | exact Hin].
Qed.

Lemma find_post_id n db p : find_post n db = Some p -> Post.id p = n.
Proof. intros H. now apply (find_some_id Post.id) in H. Qed.

Lemma find_comment_id n db c :
  find_comment n db = Some c -> Comment.id c = n.
Proof. intros H. now apply (find_some_id Comment.id) in H. Qed.

Lemma find_update_where {A} (key : A -> Z) (f : A -> A) (n m : Z)
      (l : list A) :
  (forall x, key (f x) = key x) ->
  find (fun y => key y =? m) (update_where (fun y => key y =? n) f l)
  = if m =? n then option_map f (find (fun y => key y =? m) l)
    else find (fun y => key y =? m) l.
Proof.
  intros Hkey. induction l as [|x l IH]; simpl.
  - now destruct (m =? n).
  - destruct (Z.eqb_spec (key x) n) as [Hx|Hx].
    + rewrite Hkey. destruct (Z.eqb_spec (key x) m) as [Hm|Hm].
      * assert ((m =? n) = true) as -> by (apply Z.eqb_eq; lia). reflexivity.
      * exact IH.
    + destruct (Z.eqb_spec (key x) m) as [Hm|Hm].
      * assert ((m =? n) = false) as -> by (apply Z.eqb_neq; lia). reflexivity.
      * exact IH.
Qed.

(** *** Ownership *)

(** C3. For every existing post or comment and every authenticated actor
    whose id differs from the entity's [authorId], each of [updatePost],
    [deletePost], [updateComment] and [deleteComment] answers Forbidden
    and leaves the store as it was. *)
Theorem ownership_forbidden :
  forall (isUrl : string -> bool) (now : Z) (r : Request) (db : Store)
         (who : AuthUser) (author : Z),
    actor r = Some who ->
    target_author r db = Some author ->
    author <> Http.id who ->
    let o := run isUrl (controller now r) db in
    status_of o = Some Forbidden /\ store o = db.
Proof.
  intros isUrl now r db who author Hactor Htarget Hne.
  destruct r as [postId page limit|user req|user id content|user id
                 |user q|user id|user req|user id req|user id|user id];
    simpl in Htarget; try discriminate;
    simpl in Hactor; subst user;
    (destruct (JS.parseInt id) as [n|] eqn:Hid; [|discriminate]).
  - destruct (find_comment n db) as [c|] eqn:Hc; [|discriminate].
    injection Htarget as <-.
    unfold run, controller, CommentController.updateComment; cbn.
    rewrite Hid; cbn. rewrite Hc; cbn.
    destruct (Z.eqb_spec (Comment.authorId c) (Http.id who));
      [contradiction|]. cbn. now split.
  - destruct (find_comment n db) as [c|] eqn:Hc; [|discriminate].
    injection Htarget as <-.
    unfold run, controller, CommentController.deleteComment; cbn.
    rewrite Hid; cbn. rewrite Hc; cbn.
    destruct (Z.eqb_spec (Comment.authorId c) (Http.id who));
      [contradiction|]. cbn. now split.
  - destruct (find_post n db) as [p|] eqn:Hp; [|discriminate].
    injection Htarget as <-.
    unfold run, controller, PostController.updatePost; cbn.
    rewrite Hid; cbn. rewrite Hp; cbn.
    destruct (Z.eqb_spec (Post.authorId p) (Http.id who));
      [contradiction|]. cbn. now split.
  - destruct (find_post n db) as [p|] eqn:Hp; [|discriminate].
    injection Htarget as <-.
    unfold run, controller, PostController.deletePost; cbn.
    rewrite Hid; cbn. rewrite Hp; cbn.
    destruct (Z.eqb_spec (Post.authorId p) (Http.id who));
      [contradiction|]. cbn. now split.
Qed.

(** Bob may neither delete nor update post 1, which is Alice's, and
    Alice may neither delete nor update comment 1, which is Bob's. *)
Lemma ownership_forbidden_witness :
  (let o := run any_url (controller 100 (DelPost (Some as_bob) "1")) demo in
   status_of o = Some Forbidden /\ store o = demo)
  /\ (let o :=
        run any_url
          (controller 100
             (PutPost (Some as_bob) "1"
                (PostController.mkUpdatePostRequest (Some "Mine") None None
                                                    None None))) demo in
      status_of o = Some Forbidden /\ store o = demo)
  /\ (let o :=
        run any_url (controller 100 (DelComment (Some as_alice) "1")) demo in
      status_of o = Some Forbidden /\ store o = demo)
  /\ (let o :=
        run any_url
          (controller 100 (PutComment (Some as_alice) "1" (Some "Edited")))
          demo in
      status_of o = Some Forbidden /\ store o = demo).
Proof.
  split; [|split; [|split]].
  - apply (ownership_forbidden any_url 100 _ demo as_bob 1);
      [reflexivity | reflexivity | simpl; lia].
  - apply (ownership_forbidden any_url 100 _ demo as_bob 1);
      [reflexivity | reflexivity | simpl; lia].
  - apply (ownership_forbidden any_url 100 _ demo as_alice 2);
      [reflexivity | reflexivity | simpl; lia].
  - apply (ownership_forbidden any_url 100 _ demo as_alice 2);
      [reflexivity | reflexivity | simpl; lia].
Defined.

(** *** Detail read *)

Lemma apply_patch_id patch now p :
  Post.id (apply_patch patch now p) = Post.id p.
Proof. reflexivity. Qed.

(** X29. For an id that [parseInt] reads as a number, [getPostById]
    answers NotFound when no post has that id or the post is
    unpublished, and then changes nothing; on every other call it
    answers 200, the stored post's [viewCount] has grown by exactly 1,
    as has the one in the answer, and no other post is touched. *)
Theorem getPostById_counts_views :
  forall (isUrl : string -> bool) (viewer : option AuthUser) (id : string)
         (n now : Z) (db : Store),
    JS.parseInt id = Some n ->
    let o := run isUrl (PostController.getPostById viewer id now) db in
    match find_post n db with
    | Some p =>
        if Post.isPublished p then
          (exists d,
              result o = inr (mkResponse 200 (PostDetailBody d))
              /\ Post.viewCount (detail_post d) = Post.viewCount p + 1)
          /\ (exists p',
                 find_post n (store o) = Some p'
                 /\ Post.viewCount p' = Post.viewCount p + 1)
          /\ (forall m, m <> n -> find_post m (store o) = find_post m db)
        else status_of o = Some NotFound /\ store o = db
    | None => status_of o = Some NotFound /\ store o = db
    end.
Proof.
  intros isUrl viewer id n now db Hid.
  unfold run, PostController.getPostById; cbn.
  rewrite Hid; cbn.
  destruct (find_post n db) as [p|] eqn:Hp; cbn; [|now split].
  destruct (Post.isPublished p) eqn:Hpub; cbn; [|now split].
  unfold changes, changed_num; cbn.
  assert ((Post.viewCount p + 1 =? Post.viewCount p) = false) as ->
      by (apply Z.eqb_neq; lia).
  cbn.
  pose proof (find_post_id _ _ _ Hp) as Hpid.
  assert (Hfind : forall m,
             find_post m
               (set_posts
                  (update_where (fun q => Post.id q =? Post.id p)
                     (apply_patch
                        (mkPostPatch None None None None
                                     (Some (Post.viewCount p + 1))) now)
                     (posts db)) db)
             = if m =? n
               then option_map
                      (apply_patch
                         (mkPostPatch None None None None
                                      (Some (Post.viewCount p + 1))) now)
                      (find_post m db)
               else find_post m db).
  { intros m. unfold find_post at 1; cbn.
    rewrite (find_update_where Post.id), Hpid; [reflexivity|].
    intros x; apply apply_patch_id. }
  destruct viewer as [v|]; cbn.
  - split; [eexists; split; [reflexivity|reflexivity]|]. split.
    + rewrite Hfind, Z.eqb_refl, Hp. cbn. eexists; split; reflexivity.
    + intros m Hm. rewrite Hfind.
      now assert ((m =? n) = false) as -> by (apply Z.eqb_neq; lia).
  - split; [eexists; split; [reflexivity|reflexivity]|]. split.
    + rewrite Hfind, Z.eqb_refl, Hp. cbn. eexists; split; reflexivity.
    + intros m Hm. rewrite Hfind.
      now assert ((m =? n) = false) as -> by (apply Z.eqb_neq; lia).
Qed.

(** Post 1 of the example store is read once; post 4 is a draft. *)
Lemma getPostById_counts_views_witness :
  (let o := run any_url (PostController.getPostById None "1" 100) demo in
   (exists d,
       result o = inr (mkResponse 200 (PostDetailBody d))
       /\ Post.viewCount (detail_post d) = 0 + 1)
   /\ (exists p',
          find_post 1 (store o) = Some p' /\ Post.viewCount p' = 0 + 1)
   /\ (forall m, m <> 1 -> find_post m (store o) = find_post m demo))
  /\ (let o := run any_url (PostController.getPostById None "4" 100) demo in
      status_of o = Some NotFound /\ store o = demo).
Proof.
  split.
  - exact (getPostById_counts_views any_url None "1" 1 100 demo eq_refl).
  - exact (getPostById_counts_views any_url None "4" 4 100 demo eq_refl).
Defined.

(** C5 fails on the code. No post has the id [abc], and a detail read
    of it should answer NotFound as the read of the missing post 9
    does; but [parseInt] reads no number from [abc], [findByPk] throws
    on it, and the handler answers Internal. The store is left as it
    was. *)
Lemma getPostById_not_a_number :
  let o := run any_url (PostController.getPostById None "abc" 100) demo in
  (forall p, In p (posts demo) -> JS.parseInt "abc" <> Some (Post.id p))
  /\ result o = inr (mkResponse Internal (ErrorBody "Internal server error"))
  /\ status_of o <> Some NotFound
  /\ store o = demo
  /\ status_of (run any_url (PostController.getPostById None "9" 100) demo)
     = Some NotFound.
Proof.
  cbv zeta. split; [intros p _; vm_compute; discriminate|].
  vm_compute. repeat split; discriminate.
Qed.

(** *** The like toggle *)

Section LikeToggle.
Variable isUrl : string -> bool.
Variables (u : AuthUser) (id : string) (n : Z) (p : Post.t) (usr : User.t).
Hypothesis Hid : JS.parseInt id = Some n.


Lemma likePost_absent now db :
  toggle_ready u n p usr db ->
  find_like (Post.id p) (Http.id u) db = None ->
  run isUrl (PostController.likePost (Some u) id now) db
  = mkOutcome _ (inr (mkResponse 200 (LikedBody "Post liked" true)))
      (bump_like_id (set_likes (likes db ++ [new_like u p now db]) db)) 3.
Proof.
  intros [Hp Hu] Hl.
  unfold run, PostController.likePost, new_like; cbn.
  rewrite Hid; cbn. rewrite Hp; cbn. rewrite Hl; cbn. rewrite Hl.
  rewrite (find_post_id _ _ _ Hp), Hp, Hu. reflexivity.
Qed.

Lemma likePost_present now db l :
  toggle_ready u n p usr db ->
  find_like (Post.id p) (Http.id u) db = Some l ->
  run isUrl (PostController.likePost (Some u) id now) db
  = mkOutcome _ (inr (mkResponse 200 (LikedBody "Post unliked" false)))
      (set_likes (filter (fun m => negb (Like.id m =? Like.id l))
                         (likes db)) db) 3.
Proof.
  intros [Hp Hu] Hl.
  unfold run, PostController.likePost; cbn.
  rewrite Hid; cbn. rewrite Hp; cbn. rewrite Hl; cbn. reflexivity.
Qed.

Lemma find_like_head db :
  find_like (Post.id p) (Http.id u) db
  = hd_error (pair_likes (Http.id u) (Post.id p) db).
Proof.
  unfold find_like, pair_likes.
  induction (likes db) as [|l ls IH]; simpl; [reflexivity|].
  destruct (like_of (Post.id p) (Http.id u) l); simpl; auto.
Qed.

Lemma filter_comm {A} (f g : A -> bool) (l : list A) :
  filter f (filter g l) = filter g (filter f l).
Proof.
  induction l as [|x l IH]; simpl; [reflexivity|].
  destruct (f x) eqn:Hf, (g x) eqn:Hg; simpl;
    rewrite ?Hf, ?Hg, IH; reflexivity.
Qed.

(** One call flips the number of rows of the pair between 0 and 1. *)
Lemma likePost_flips now db :
  toggle_ready u n p usr db ->
  (List.length (pair_likes (Http.id u) (Post.id p) db) <= 1)%nat ->
  let o := run isUrl (PostController.likePost (Some u) id now) db in
  toggle_ready u n p usr (store o)
  /\ List.length (pair_likes (Http.id u) (Post.id p) (store o))
     = (1 - List.length (pair_likes (Http.id u) (Post.id p) db))%nat
  /\ liked_of o
     = Some (Nat.eqb (List.length
                        (pair_likes (Http.id u) (Post.id p) db)) 0).
Proof.
  intros Hready Hlen.
  pose proof (find_like_head db) as Hhead.
  destruct (pair_likes (Http.id u) (Post.id p) db) as [|l [|l' ls]] eqn:Hpl;
    simpl in Hlen; try lia; simpl in Hhead.
  - rewrite (likePost_absent now db Hready Hhead). cbn.
    split; [exact Hready|]. split; [|reflexivity].
    unfold pair_likes; cbn. unfold pair_likes in Hpl.
    rewrite filter_app, Hpl. cbn.
    unfold like_of; cbn. now rewrite !Z.eqb_refl.
  - rewrite (likePost_present now db l Hready Hhead). cbn.
    split; [exact Hready|]. split; [|reflexivity].
    unfold pair_likes; cbn. unfold pair_likes in Hpl.
    rewrite filter_comm, Hpl. cbn. now rewrite Z.eqb_refl.
Qed.

Lemma toggles_parity times :
  forall db,
    toggle_ready u n p usr db ->
    (List.length (pair_likes (Http.id u) (Post.id p) db) <= 1)%nat ->
    List.length
      (pair_likes (Http.id u) (Post.id p) (snd (toggles isUrl u id times db)))
    = if Nat.odd (List.length times)
      then (1 - List.length (pair_likes (Http.id u) (Post.id p) db))%nat
      else List.length (pair_likes (Http.id u) (Post.id p) db).
Proof.
  induction times as [|now times IH]; intros db Hready Hlen;
    [reflexivity|].
  destruct (likePost_flips now db Hready Hlen) as (Hready' & Hlen' & _).
  cbn [toggles].
  destruct (toggles isUrl u id times _) as [flags db'] eqn:Hrest.
  cbn [snd].
  assert (Hdb' : db' = snd (toggles isUrl u id times
            (store (run isUrl (PostController.likePost (Some u) id now) db))))
    by now rewrite Hrest.
  rewrite Hdb', IH; [|exact Hready'|rewrite Hlen'; lia].
  rewrite Hlen'.
  change (List.length (now :: times)) with (S (List.length times)).
  rewrite Nat.odd_succ, <- Nat.negb_odd.
  destruct (Nat.odd (List.length times)); cbn [negb]; lia.
Qed.

End LikeToggle.

(** C2. For an authenticated user and an existing post, [likePost]
    deletes the Like row of the pair and reports [liked = false] when
    there is one, and otherwise creates it and reports [liked = true];
    starting without a row, two calls in sequence report [true] then
    [false] and leave no row of the pair, and an odd number of calls
    leaves exactly one. *)
Theorem likePost_toggles :
  forall (isUrl : string -> bool) (u : AuthUser) (id : string) (n : Z)
         (p : Post.t) (usr : User.t) (db : Store),
    JS.parseInt id = Some n ->
    find_post n db = Some p ->
    find_user (Http.id u) db = Some usr ->
    (forall now,
        let o := run isUrl (PostController.likePost (Some u) id now) db in
        match find_like (Post.id p) (Http.id u) db with
        | Some l =>
            result o = inr (mkResponse 200 (LikedBody "Post unliked" false))
            /\ likes (store o)
               = filter (fun m => negb (Like.id m =? Like.id l)) (likes db)
            /\ ~ In l (likes (store o))
        | None =>
            result o = inr (mkResponse 200 (LikedBody "Post liked" true))
            /\ exists l : Like.t,
                likes (store o) = (likes db ++ [l])%list
                /\ Like.userId l = Http.id u
                /\ Like.postId l = Post.id p
        end)
    /\ (pair_likes (Http.id u) (Post.id p) db = [] ->
        (forall t1 t2,
            fst (toggles isUrl u id [t1; t2] db) = [Some true; Some false]
            /\ pair_likes (Http.id u) (Post.id p)
                          (snd (toggles isUrl u id [t1; t2] db)) = [])
        /\ (forall times,
               Nat.odd (List.length times) = true ->
               List.length
                 (pair_likes (Http.id u) (Post.id p)
                             (snd (toggles isUrl u id times db))) = 1%nat)).
Proof.
  intros isUrl u id n p usr db Hid Hp Hu.
  assert (Hready : toggle_ready u n p usr db) by (split; assumption).
  split.
  - intros now.
    destruct (find_like (Post.id p) (Http.id u) db) as [l|] eqn:Hl; cbn zeta.
    + rewrite (likePost_present isUrl u id n p usr Hid now db l Hready Hl).
      cbn. split; [reflexivity|]. split; [reflexivity|].
      intros Hin. apply filter_In in Hin. destruct Hin as [_ Hne].
      now rewrite Z.eqb_refl in Hne.
    + rewrite (likePost_absent isUrl u id n p usr Hid now db Hready Hl).
      cbn. split; [reflexivity|].
      eexists; split; [reflexivity|]. now split.
  - intros Hnone. split.
    + intros t1 t2.
      assert (Hlen0 : (List.length (pair_likes (Http.id u) (Post.id p) db)
                       <= 1)%nat) by (rewrite Hnone; simpl; lia).
      pose proof (likePost_flips isUrl u id n p usr Hid t1 db Hready Hlen0)
        as H1.
      cbn [toggles].
      remember (run isUrl (PostController.likePost (Some u) id t1) db)
        as o1 eqn:Ho1.
      cbv zeta in H1. destruct H1 as (Hready1 & Hlen1 & Hflag1).
      rewrite Hnone in Hlen1, Hflag1.
      change (List.length (@nil Like.t)) with 0%nat in Hlen1, Hflag1.
      assert (Hlen1' : (List.length
                          (pair_likes (Http.id u) (Post.id p) (store o1))
                        <= 1)%nat) by lia.
      pose proof (likePost_flips isUrl u id n p usr Hid t2 (store o1)
                    Hready1 Hlen1') as H2.
      remember (run isUrl (PostController.likePost (Some u) id t2) (store o1))
        as o2 eqn:Ho2.
      cbv zeta in H2. destruct H2 as (_ & Hlen2 & Hflag2).
      rewrite Hlen1 in Hlen2, Hflag2.
      cbn [fst snd]. rewrite Hflag1, Hflag2. split; [reflexivity|].
      apply length_zero_iff_nil. rewrite Hlen2. reflexivity.
    + intros times Hodd.
      rewrite (toggles_parity isUrl u id n p usr Hid times db Hready);
        rewrite Hnone; simpl; [|lia].
      now rewrite Hodd.
Qed.

(** Alice likes post 2 of the example store. *)
Lemma likePost_toggles_witness :
  fst (toggles any_url as_alice "2" [100; 101] demo) = [Some true; Some false]
  /\ pair_likes 1 2 (snd (toggles any_url as_alice "2" [100; 101] demo)) = []
  /\ List.length
       (pair_likes 1 2
          (snd (toggles any_url as_alice "2" [100; 101; 102] demo)))
     = 1%nat.
Proof.
  destruct (likePost_toggles any_url as_alice "2" 2 (demo_post 2 1 true 20)
              alice demo eq_refl eq_refl eq_refl) as [_ H].
  destruct (H eq_refl) as [Htwice Hodd].
  destruct (Htwice 100 101) as [Hflags Hrows].
  split; [exact Hflags|]. split; [exact Hrows|].
  exact (Hodd [100; 101; 102] eq_refl).
Defined.

(** *** Two toggles in flight *)

Lemma filter_all {A} (f : A -> bool) (l : list A) :
  (forall x, In x l -> f x = true) -> filter f l = l.
Proof.
  induction l as [|x l IH]; intros H; simpl; [reflexivity|].
  rewrite (H x (or_introl eq_refl)), IH; [reflexivity|].
  intros y Hy; apply H; now right.
Qed.

Lemma set_likes_same db : set_likes (likes db) db = db.
Proof. now destruct db. Qed.

(** X30. A [likePost] whose two reads saw the store
    [db] makes its write on the store [db'] that other requests left.
    If it saw no Like row and one is there by now, the unique index
    rejects the insert: no row is added and the request answers Internal,
    not success. If it saw a Like row and that row is gone by now, the
    delete removes nothing and the request answers success with
    [liked = false]. *)
Theorem likePost_race_outcomes :
  forall (isUrl : string -> bool) (u : AuthUser) (id : string) (n now : Z)
         (p : Post.t) (db db' : Store),
    JS.parseInt id = Some n ->
    find_post n db = Some p ->
    let in_flight :=
      fst (advance isUrl 2 (PostController.likePost (Some u) id now) db) in
    let o := run isUrl in_flight db' in
    (find_like (Post.id p) (Http.id u) db = None ->
     find_like (Post.id p) (Http.id u) db' <> None ->
     fst (exec isUrl (LikeCreate (Post.id p) (Http.id u) now) db')
     = inl UniqueConstraintError
     /\ result o
        = inr (mkResponse Internal (ErrorBody "Internal server error"))
     /\ likes (store o) = likes db')
    /\ (forall l,
           find_like (Post.id p) (Http.id u) db = Some l ->
           (forall m, In m (likes db') -> Like.id m <> Like.id l) ->
           result o = inr (mkResponse 200 (LikedBody "Post unliked" false))
           /\ store o = db').
Proof.
  intros isUrl u id n now p db db' Hid Hp.
  unfold advance, step, run, PostController.likePost; cbn.
  rewrite Hid; cbn. rewrite Hp; cbn.
  split.
  - intros Hnone Hsome. rewrite Hnone; cbn.
    destruct (find_like (Post.id p) (Http.id u) db') as [l|];
      [|contradiction]. cbn. repeat split.
  - intros l Hl Hgone. rewrite Hl; cbn. split; [reflexivity|].
    rewrite filter_all; [apply set_likes_same|].
    intros m Hm. apply negb_true_iff, Z.eqb_neq. now apply Hgone.
Qed.

(** The example store before and after Alice liked post 2. *)
Lemma likePost_race_outcomes_witness :
  (let o :=
     run any_url
       (fst (advance any_url 2
               (PostController.likePost (Some as_alice) "2" 100) demo))
       demo_liked in
   result o = inr (mkResponse Internal (ErrorBody "Internal server error"))
   /\ likes (store o) = likes demo_liked)
  /\ (let o :=
        run any_url
          (fst (advance any_url 2
                  (PostController.likePost (Some as_alice) "2" 100)
                  demo_liked))
          demo in
      result o = inr (mkResponse 200 (LikedBody "Post unliked" false))
      /\ store o = demo).
Proof.
  split.
  - destruct (likePost_race_outcomes any_url as_alice "2" 2 100
                (demo_post 2 1 true 20) demo demo_liked eq_refl eq_refl)
      as [H _].
    destruct H as (_ & Hres & Hlikes);
      [reflexivity | vm_compute; discriminate |].
    split; [exact Hres | exact Hlikes].
  - destruct (likePost_race_outcomes any_url as_alice "2" 2 100
                (demo_post 2 1 true 20) demo_liked demo eq_refl eq_refl)
      as [_ H].
    apply (H (Like.mk 1 1 2 99 99)); [reflexivity|].
    intros m Hm. destruct Hm.
Defined.

(** C8 fails on the code. Alice's two concurrent toggles of post 2 both
    see no Like row; the first insert is stored, the second is rejected
    by the unique index, one row is kept, and the second request answers
    Internal instead of a success: the handler of [likePost] answers
    every error alike and does not tell the rejected insert from
    another failure. *)
Lemma likePost_duplicate_insert_is_internal :
  let p := PostController.likePost (Some as_alice) "2" 100 in
  let q := PostController.likePost (Some as_alice) "2" 101 in
  let '(r1, r2, db') :=
    interleave any_url [true; false; true; false] p q demo in
  r1 = inr (mkResponse 200 (LikedBody "Post liked" true))
  /\ r2 = inr (mkResponse Internal (ErrorBody "Internal server error"))
  /\ status_of (mkOutcome _ r2 db' 0) <> Some 200
  /\ List.length (pair_likes 1 2 db') = 1%nat.
Proof.
  vm_compute. repeat split; discriminate.
Qed.

(** *** Creating a comment *)

Lemma find_app {A} (f : A -> bool) (l l' : list A) :
  find f (l ++ l') = match find f l with
                     | Some x => Some x
                     | None => find f l'
                     end.
Proof.
  induction l as [|x l IH]; simpl; [reflexivity|].
  now destruct (f x).
Qed.

(** The invariant only looks at the comment table. *)
Lemma parents_on_same_post_comments db db' :
  comments db' = comments db ->
  parents_on_same_post db -> parents_on_same_post db'.
Proof.
  intros Heq H c pid Hin Hpar. unfold find_comment. rewrite Heq in *.
  exact (H c pid Hin Hpar).
Qed.

Lemma parents_on_same_post_add db db' c :
  comments db' = (comments db ++ [c])%list ->
  (forall pid, Comment.parentId c = Some pid ->
               exists parent, find_comment pid db = Some parent
                              /\ Comment.postId parent = Comment.postId c) ->
  parents_on_same_post db -> parents_on_same_post db'.
Proof.
  intros Heq Hnew H d pid Hin Hpar. unfold find_comment.
  rewrite Heq in *. rewrite find_app.
  apply in_app_or in Hin. destruct Hin as [Hin|[<-|[]]].
  - destruct (H d pid Hin Hpar) as (parent & Hfind & Hpost).
    unfold find_comment in Hfind. rewrite Hfind. now exists parent.
  - destruct (Hnew pid Hpar) as (parent & Hfind & Hpost).
    unfold find_comment in Hfind. rewrite Hfind. now exists parent.
Qed.

(** C4. A validated [createComment] request that names a parent succeeds
    only if a comment with that id is stored and belongs to the post the
    new comment is for; when the parent is absent or belongs to another
    post the answer is NotFound and the store is left as it was; and a
    validated request, with or without parent, keeps every stored
    comment's parent on the comment's own post. *)
Theorem createComment_checks_parent :
  forall (isUrl : string -> bool) (u : AuthUser)
         (req : CommentController.CreateCommentRequest) (now : Z)
         (db : Store),
    Validation.createCommentSchema req = true ->
    let o := run isUrl (CommentController.createComment (Some u) req now) db in
    (forall pid,
        CommentController.parentId req = Some pid ->
        (status_of o = Some 201 ->
         exists parent,
           find_comment pid db = Some parent
           /\ Comment.postId parent = CommentController.postId req)
        /\ ((find_comment pid db = None
             \/ exists parent,
                 find_comment pid db = Some parent
                 /\ Comment.postId parent <> CommentController.postId req) ->
            status_of o = Some NotFound /\ store o = db))
    /\ (parents_on_same_post db -> parents_on_same_post (store o)).
Proof.
  intros isUrl u [content postId parentId] now db Hvalid.
  unfold Validation.createCommentSchema, Validation.string_between in Hvalid.
  cbn in Hvalid.
  apply andb_true_iff in Hvalid. destruct Hvalid as [Hvalid Hpar].
  apply andb_true_iff in Hvalid. destruct Hvalid as [Hlen _].
  unfold run, CommentController.createComment; cbn.
  destruct (find_post postId db) as [post|] eqn:Hpost; cbn.
  2:{ split; [|auto]. intros pid _. split; [discriminate|]. now split. }
  destruct parentId as [pid|]; cbn.
  - apply Z.ltb_lt in Hpar.
    unfold JS.truthy_num.
    assert ((pid =? 0) = false) as -> by (apply Z.eqb_neq; lia). cbn.
    destruct (find_comment pid db) as [parent|] eqn:Hparent; cbn.
    2:{ split; [|auto]. intros pid' [= <-]. split; [discriminate|].
        now split. }
    destruct (Z.eqb_spec (Comment.postId parent) postId) as [Hsame|Hother];
      cbn.
    2:{ split; [|auto]. intros pid' [= <-]. split; [discriminate|].
        now split. }
    rewrite Hlen, Hpost, Hparent; cbn.
    destruct (find_user (Http.id u) db) as [usr|] eqn:Husr; cbn.
    + split.
      * intros pid' [= <-]. split.
        -- intros _. now exists parent.
        -- intros [Habs|(parent' & Hfind & Hne)]; congruence.
      * apply parents_on_same_post_add with
          (c := Comment.mk (next_comment_id db) content postId (Http.id u)
                           (Some pid) true now now); [reflexivity|].
        cbn. intros pid' [= <-]. now exists parent.
    + split.
      * intros pid' [= <-]. split; [discriminate|].
        intros [Habs|(parent' & Hfind & Hne)]; congruence.
      * now apply parents_on_same_post_comments.
  - rewrite Hlen, Hpost; cbn.
    destruct (find_user (Http.id u) db) as [usr|] eqn:Husr; cbn.
    + split; [intros pid; discriminate|].
      apply parents_on_same_post_add with
        (c := Comment.mk (next_comment_id db) content postId (Http.id u)
                         None true now now); [reflexivity|].
      cbn. intros pid; discriminate.
    + split; [intros pid; discriminate|].
      now apply parents_on_same_post_comments.
Qed.

(** Bob replies to comment 1 of post 1; then he names comment 5, which
    is on post 2. *)
Lemma createComment_checks_parent_witness :
  (let o :=
     run any_url
       (CommentController.createComment (Some as_bob)
          (CommentController.mkCreateCommentRequest "Indeed" 1 (Some 1)) 100)
       demo in
   (status_of o = Some 201 ->
    exists parent,
      find_comment 1 demo = Some parent /\ Comment.postId parent = 1)
   /\ parents_on_same_post (store o))
  /\ (let o :=
        run any_url
          (CommentController.createComment (Some as_bob)
             (CommentController.mkCreateCommentRequest "Indeed" 1 (Some 5))
             100)
          demo in
      status_of o = Some NotFound /\ store o = demo).
Proof.
  split.
  - destruct (createComment_checks_parent any_url as_bob
                (CommentController.mkCreateCommentRequest "Indeed" 1 (Some 1))
                100 demo eq_refl) as [H Hinv].
    split; [exact (proj1 (H 1 eq_refl))|].
    apply Hinv. intros c pid Hin Hpid. simpl in Hin.
    destruct Hin as [<-|[<-|[<-|[<-|[<-|[]]]]]]; simpl in Hpid;
      try discriminate; injection Hpid as <-;
      (eexists; split; [reflexivity|reflexivity]).
  - destruct (createComment_checks_parent any_url as_bob
                (CommentController.mkCreateCommentRequest "Indeed" 1 (Some 5))
                100 demo eq_refl) as [H _].
    apply (proj2 (H 5 eq_refl)). right.
    exists (demo_comment 5 2 2 None true 90). split; [reflexivity|].
    simpl. lia.
Defined.

(** *** Creating a post *)






(** *** LIMIT and OFFSET *)

Lemma window_refused {A} (limit offset : option Z) (l : list A) :
  match limit, offset with
  | Some n, Some k => is_bigint n && is_bigint k
  | _, _ => false
  end = false ->
  window limit offset l = None.
Proof.
  unfold window.
  destruct limit as [n|], offset as [k|]; try reflexivity.
  now intros ->.
Qed.

Lemma window_granted {A} (limit offset : option Z) (l page : list A) :
  window limit offset l = Some page ->
  exists n k,
    limit = Some n /\ offset = Some k /\ 0 <= n /\ 0 <= k
    /\ page = firstn (Z.to_nat n) (skipn (Z.to_nat k) l).
Proof.
  unfold window, is_bigint.
  destruct limit as [n|], offset as [k|]; try discriminate.
  destruct (Z.leb_spec 0 n), (Z.leb_spec 0 k); cbn;
    rewrite ?andb_false_r; cbn; try discriminate.
  destruct (_ && _); cbn; [|discriminate].
  intros [= <-]. exists n, k. repeat split; assumption.
Qed.

(** *** Running composed programs *)

Section RunLemmas.
Variable isUrl : string -> bool.

Lemma run_from_bind {A B} (p : Prog.t A) (f : A -> Prog.t B) :
  forall n db,
    run_from isUrl n (bind p f) db
    = let o := run_from isUrl n p db in
      match result o with
      | inr a => run_from isUrl (trips o) (f a) (store o)
      | inl e => mkOutcome _ (inl e) (store o) (trips o)
      end.
Proof.
  induction p as [a|e|X c k IH]; intros n db; cbn -[exec];
    [reflexivity..|].
  destruct (exec isUrl c db) as [r db']. apply IH.
Qed.

Lemma run_from_try_catch {A} (p : Prog.t A) (h : Err -> Prog.t A) :
  forall n db,
    run_from isUrl n (try_catch p h) db
    = let o := run_from isUrl n p db in
      match result o with
      | inr a => o
      | inl e => run_from isUrl (trips o) (h e) (store o)
      end.
Proof.
  induction p as [a|e|X c k IH]; intros n db; cbn -[exec];
    [reflexivity..|].
  destruct (exec isUrl c db) as [r db']. apply IH.
Qed.

Lemma run_from_await {X} (c : Call X) n db :
  run_from isUrl n (await c) db
  = mkOutcome _ (fst (exec isUrl c db)) (snd (exec isUrl c db)) (S n).
Proof.
  cbn -[exec]. destruct (exec isUrl c db) as [[e|x] db']; reflexivity.
Qed.

Lemma run_withCounts viewer row n db :
  run_from isUrl n (PostController.withCounts viewer row) db
  = mkOutcome _ (inr (counted viewer db row)) db
              (calls_per_post viewer + n).
Proof.
  unfold PostController.withCounts, PostController.isLikedBy, counted.
  destruct viewer as [v|]; reflexivity.
Qed.

Lemma run_all_withCounts viewer rows :
  forall n db,
    run_from isUrl n (all (PostController.withCounts viewer) rows) db
    = mkOutcome _ (inr (map (counted viewer db) rows)) db
                (calls_per_post viewer * List.length rows + n).
Proof.
  induction rows as [|row rows IH]; intros n db.
  - cbn. now rewrite Nat.mul_0_r.
  - cbn [all]. rewrite run_from_bind, run_withCounts. cbn.
    rewrite run_from_bind, IH. cbn. f_equal. lia.
Qed.

(** What [getPosts] does, by what its call for the page returns. *)
Lemma getPosts_run viewer q db :
  run isUrl (PostController.getPosts viewer q) db
  = match exec isUrl (listing_call q) db with
    | (inl _, db') =>
        mkOutcome _
          (inr (mkResponse 500 (ErrorBody "Internal server error"))) db' 1
    | (inr posts, db') =>
        mkOutcome _
          (inr (mkResponse 200
                  (PostsBody (map (counted viewer db') (snd posts))
                             (pagination (pageNumber q) (limitNumber q)
                                         (fst posts)))))
          db' (1 + calls_per_post viewer * List.length (snd posts))
    end.
Proof.
  unfold run, PostController.getPosts.
  rewrite run_from_try_catch, run_from_bind, run_from_await.
  fold (pageNumber q) (limitNumber q). fold (offsetNumber q).
  fold (listing_call q).
  destruct (exec isUrl (listing_call q) db) as [[e|posts] db'];
    cbn -[exec]; [reflexivity|].
  rewrite run_from_bind, run_all_withCounts. cbn. f_equal. lia.
Qed.

(** The call for the page reads only; it is refused when the paging
    describes no page or [sortBy] names no column, and what it
    returns otherwise is within the limit. *)
Lemma listing_call_reads q db :
  snd (exec isUrl (listing_call q) db) = db.
Proof.
  unfold exec, listing_call.
  destruct (w_tags (PostController.whereClause q)); [reflexivity|].
  destruct (w_authorId (PostController.whereClause q)) as [[a|]|];
    try reflexivity;
    (destruct (post_column _); [|reflexivity]);
    destruct (window _ _ _); reflexivity.
Qed.

Lemma listing_call_refused q db :
  paging_describes_a_page q = false
  \/ post_column (default "createdAt" (PostController.sortBy q)) = None ->
  fst (exec isUrl (listing_call q) db) = inl DatabaseError.
Proof.
  intros Hbad. unfold exec, listing_call.
  destruct (w_tags (PostController.whereClause q)); [reflexivity|].
  destruct (w_authorId (PostController.whereClause q)) as [[a|]|];
    try reflexivity;
    (destruct (post_column _) as [col|] eqn:Hcol; [|reflexivity]);
    (destruct Hbad as [Hpaging|Hcol']; [|discriminate]);
    unfold paging_describes_a_page in Hpaging;
    now rewrite (window_refused _ _ _ Hpaging).
Qed.

Lemma listing_call_within_limit q db count rows :
  fst (exec isUrl (listing_call q) db) = inr (count, rows) ->
  exists lim,
    limitNumber q = Some lim /\ (List.length rows <= Z.to_nat lim)%nat.
Proof.
  unfold exec, listing_call.
  destruct (w_tags (PostController.whereClause q)); [discriminate|].
  destruct (w_authorId (PostController.whereClause q)) as [[a|]|];
    try discriminate;
    (destruct (post_column _) as [col|]; [|discriminate]);
    (destruct (window _ _ _) as [page|] eqn:Hwindow; [|discriminate]);
    cbn; intros [= _ <-];
    destruct (window_granted _ _ _ _ Hwindow)
      as (n & k & Hn & _ & _ & _ & ->);
    exists n; (split; [exact Hn|]);
    rewrite length_map; apply firstn_le_length.
Qed.

(** The listing makes one call, and then as many per returned post as
    the callback does. *)
Lemma getPosts_round_trips viewer q db items pg :
  result (run isUrl (PostController.getPosts viewer q) db)
  = inr (mkResponse 200 (PostsBody items pg)) ->
  trips (run isUrl (PostController.getPosts viewer q) db)
  = (1 + calls_per_post viewer * List.length items)%nat.
Proof.
  rewrite getPosts_run.
  destruct (exec isUrl (listing_call q) db) as [[e|posts] db']; cbn.
  - discriminate.
  - intros [= <- _]. now rewrite length_map.
Qed.

Lemma getPosts_reads_only viewer q db :
  store (run isUrl (PostController.getPosts viewer q) db) = db.
Proof.
  rewrite getPosts_run. pose proof (listing_call_reads q db) as Hdb.
  destruct (exec isUrl (listing_call q) db) as [[e|posts] db']; exact Hdb.
Qed.

(** A body wrapped in [try]/[catch] whose handler answers, answers. *)
Lemma try_catch_answers {A} (p : Prog.t A) (h : Err -> Prog.t A) n db :
  (forall e, exists a, h e = Ret a) ->
  exists a, result (run_from isUrl n (try_catch p h) db) = inr a.
Proof.
  intros Hh. rewrite run_from_try_catch. cbv zeta.
  destruct (result (run_from isUrl n p db)) as [e|a] eqn:Hres.
  - destruct (Hh e) as [a ->]. now exists a.
  - exists a. exact Hres.
Qed.

(** Every controller answers every request, in every store. *)
Lemma controller_answers now r db :
  exists resp, result (run isUrl (controller now r) db) = inr resp.
Proof.
  destruct r; apply try_catch_answers; intros e; eexists; reflexivity.
Qed.

End RunLemmas.

(** *** Listing posts *)

(** C1 fails on the code. On the example store, which has three
    published posts, an authenticated listing of a page of one post
    takes 4 calls to the store and a page of three takes 10; anonymous
    listings take 3 and 7: one call for the page and, for each post on
    it, one for [commentCount], one for [likeCount] and one for
    [isLiked]. *)
Theorem getPosts_round_trips_grow_with_page :
  trips (run any_url
           (PostController.getPosts (Some as_alice)
                                    (listing None (Some "1") None)) demo)
  = 4%nat
  /\ trips (run any_url
              (PostController.getPosts (Some as_alice)
                                       (listing None (Some "3") None)) demo)
     = 10%nat
  /\ trips (run any_url
              (PostController.getPosts None (listing None (Some "1") None))
              demo)
     = 3%nat
  /\ trips (run any_url
              (PostController.getPosts None (listing None (Some "3") None))
              demo)
     = 7%nat.
Proof. vm_compute. repeat split. Qed.

(** X31. The defaults [page = 1] and [limit = 10]
    stand in for an absent parameter only. A parameter that is given is
    used as [parseInt] reads it: when [page] or [limit] is not a number,
    or [limit] or the offset [(page - 1) * limit] is negative, and also
    when [sortBy] names no column of the posts, [getPosts] answers
    Internal and leaves the store as it was; and a listing that is
    answered is on the page and within the limit that were read. *)
Theorem getPosts_invalid_query_is_internal :
  forall (isUrl : string -> bool) (viewer : option AuthUser)
         (q : PostController.PostQuery) (db : Store),
    PostController.getPosts viewer (with_paging None None q)
    = PostController.getPosts viewer (with_paging (Some "1") (Some "10") q)
    /\ (paging_describes_a_page q = false
        \/ post_column (default "createdAt" (PostController.sortBy q)) = None ->
        let o := run isUrl (PostController.getPosts viewer q) db in
        result o
        = inr (mkResponse Internal (ErrorBody "Internal server error"))
        /\ store o = db)
    /\ (forall items pgn,
           result (run isUrl (PostController.getPosts viewer q) db)
           = inr (mkResponse 200 (PostsBody items pgn)) ->
           currentPage pgn
           = JS.parseInt (default "1" (PostController.page q))
           /\ exists lim,
               JS.parseInt (default "10" (PostController.limit q)) = Some lim
               /\ (List.length items <= Z.to_nat lim)%nat).
Proof.
  intros isUrl viewer q db. split; [reflexivity|]. split.
  - intros Hbad. cbv zeta. rewrite getPosts_run.
    pose proof (listing_call_refused isUrl q db Hbad) as Hfst.
    pose proof (listing_call_reads isUrl q db) as Hsnd.
    destruct (exec isUrl (listing_call q) db) as [[e|posts] db'];
      cbn in Hfst, Hsnd; [|discriminate].
    subst db'. now split.
  - intros items pgn. rewrite getPosts_run.
    pose proof (listing_call_within_limit isUrl q db) as Hlim.
    destruct (exec isUrl (listing_call q) db) as [[e|[count rows]] db'];
      cbn in *; [discriminate|].
    intros [= <- <-]. split; [reflexivity|].
    destruct (Hlim count rows eq_refl) as (lim & Hl & Hle).
    exists lim. split; [exact Hl|]. now rewrite length_map.
Qed.

Lemma getPosts_invalid_query_is_internal_witness :
  (let o :=
     run any_url
       (PostController.getPosts None (listing (Some "abc") None None)) demo in
   result o = inr (mkResponse Internal (ErrorBody "Internal server error"))
   /\ store o = demo)
  /\ (let o :=
        run any_url
          (PostController.getPosts None
             (listing None None (Some "popularity"))) demo in
      result o = inr (mkResponse Internal (ErrorBody "Internal server error"))
      /\ store o = demo)
  /\ (exists items pgn,
         result (run any_url
                     (PostController.getPosts None
                        (listing (Some "2") (Some "1") None)) demo)
         = inr (mkResponse 200 (PostsBody items pgn))
         /\ currentPage pgn = Some 2
         /\ (List.length items <= 1)%nat).
Proof.
  split; [|split].
  - apply (getPosts_invalid_query_is_internal any_url None
             (listing (Some "abc") None None) demo).
    left. reflexivity.
  - apply (getPosts_invalid_query_is_internal any_url None
             (listing None None (Some "popularity")) demo).
    right. reflexivity.
  - destruct (getPosts_invalid_query_is_internal any_url None
                (listing (Some "2") (Some "1") None) demo)
      as (_ & _ & Hused).
    eexists. eexists. split; [vm_compute; reflexivity|].
    edestruct Hused as (Hpage & lim & Hlim & Hle); [vm_compute; reflexivity|].
    split; [exact Hpage|].
    injection Hlim as <-. exact Hle.
Defined.

(** C7 fails on the code. A listing asked for page ["abc"], for page
    ["0"] or for [limit = "-5"] does not answer as the listing with the
    default paging does, which succeeds on page 1, but answers Internal;
    and a listing sorted by a column that does not exist answers
    Internal, not a validation error: [getPosts] passes the query on
    unchecked. *)
Lemma getPosts_does_not_fall_back :
  (exists items pg,
      result (run any_url
                  (PostController.getPosts None (listing None None None))
                  demo)
      = inr (mkResponse 200 (PostsBody items pg))
      /\ currentPage pg = Some 1 /\ List.length items = 3%nat)
  /\ status_of (run any_url
                  (PostController.getPosts None
                                           (listing (Some "abc") None None))
                  demo) = Some Internal
  /\ status_of (run any_url
                  (PostController.getPosts None (listing (Some "0") None None))
                  demo) = Some Internal
  /\ status_of (run any_url
                  (PostController.getPosts None (listing None (Some "-5") None))
                  demo) = Some Internal
  /\ status_of (run any_url
                  (PostController.getPosts None
                     (listing None None (Some "popularity"))) demo)
     = Some Internal
  /\ Internal <> BadRequest.
Proof.
  split.
  - eexists; eexists. split; [vm_compute; reflexivity|]. split; reflexivity.
  - vm_compute. repeat split; discriminate.
Qed.

(** *** ORDER BY, LIMIT and OFFSET *)

Section Sorting.
Context {A : Type} (leb : A -> A -> bool).
Hypothesis leb_total : forall a b, leb a b = true \/ leb b a = true.
Hypothesis leb_trans :
  forall a b c, leb a b = true -> leb b c = true -> leb a c = true.


Lemma insert_by_HdRel a x l :
  HdRel (ordered_by leb) a l -> ordered_by leb a x ->
  HdRel (ordered_by leb) a (insert_by leb x l).
Proof.
  intros Hl Hx. destruct l as [|y l]; simpl; [now constructor|].
  destruct (leb x y); constructor; [exact Hx|].
  now inversion Hl.
Qed.

Lemma insert_by_Sorted x l :
  Sorted (ordered_by leb) l -> Sorted (ordered_by leb) (insert_by leb x l).
Proof.
  induction l as [|y l IH]; intros Hl; simpl.
  - repeat constructor.
  - destruct (leb x y) eqn:Hxy.
    + constructor; [exact Hl|]. now constructor.
    + inversion Hl as [|? ? Hs Hh]; subst.
      constructor; [now apply IH|].
      apply insert_by_HdRel; [exact Hh|].
      destruct (leb_total x y) as [H|H]; [congruence|exact H].
Qed.

Lemma sort_by_StronglySorted l :
  StronglySorted (ordered_by leb) (sort_by leb l).
Proof.
  apply Sorted_StronglySorted.
  - intros a b c. apply leb_trans.
  - unfold sort_by. induction l as [|x l IH]; simpl; [constructor|].
    now apply insert_by_Sorted.
Qed.

Lemma insert_by_In x y l : In y (insert_by leb x l) <-> y = x \/ In y l.
Proof.
  induction l as [|z l IH]; simpl; [intuition congruence|].
  destruct (leb x z); simpl; [intuition congruence|].
  rewrite IH. intuition congruence.
Qed.

Lemma sort_by_In y l : In y (sort_by leb l) <-> In y l.
Proof.
  unfold sort_by. induction l as [|x l IH]; simpl; [reflexivity|].
  rewrite insert_by_In, IH. intuition congruence.
Qed.

Lemma insert_by_length x l :
  List.length (insert_by leb x l) = S (List.length l).
Proof.
  induction l as [|z l IH]; simpl; [reflexivity|].
  destruct (leb x z); simpl; [reflexivity|]. now rewrite IH.
Qed.

Lemma sort_by_length l : List.length (sort_by leb l) = List.length l.
Proof.
  unfold sort_by. induction l as [|x l IH]; simpl; [reflexivity|].
  now rewrite insert_by_length, IH.
Qed.
End Sorting.

(** Sorting rearranges, whatever the order sorted by. *)
Lemma insert_by_Permutation {A} (leb : A -> A -> bool) x l :
  Permutation (insert_by leb x l) (x :: l).
Proof.
  induction l as [|y l IH]; simpl; [reflexivity|].
  destruct (leb x y); [reflexivity|].
  rewrite IH. apply perm_swap.
Qed.

Lemma sort_by_Permutation {A} (leb : A -> A -> bool) l :
  Permutation (sort_by leb l) l.
Proof.
  unfold sort_by. induction l as [|x l IH]; simpl; [reflexivity|].
  rewrite insert_by_Permutation. now constructor.
Qed.

Lemma filter_Permutation {A} (f : A -> bool) l l' :
  Permutation l l' -> Permutation (filter f l) (filter f l').
Proof.
  induction 1 as [|x l l' _ IH|x y l|l l' l'' _ IH1 _ IH2]; simpl.
  - reflexivity.
  - destruct (f x); [now constructor|exact IH].
  - destruct (f x), (f y); try reflexivity. apply perm_swap.
  - now transitivity (filter f l').
Qed.

(** *** The rows of a table in the order of the store *)

Lemma scan_posts_Permutation db : Permutation (scan_posts db) (posts db).
Proof. apply sort_by_Permutation. Qed.

Lemma scan_comments_Permutation db :
  Permutation (scan_comments db) (comments db).
Proof. apply sort_by_Permutation. Qed.

Lemma scan_likes_Permutation db : Permutation (scan_likes db) (likes db).
Proof. apply sort_by_Permutation. Qed.

Lemma scan_posts_In db p : In p (scan_posts db) <-> In p (posts db).
Proof. apply sort_by_In. Qed.

Lemma scan_comments_In db c : In c (scan_comments db) <-> In c (comments db).
Proof. apply sort_by_In. Qed.

Lemma scan_likes_In db l : In l (scan_likes db) <-> In l (likes db).
Proof. apply sort_by_In. Qed.

(** *** Numbers that doubles hold exactly *)

Lemma to_number_exact z : Z.abs z < 2 ^ 53 -> JS.to_number z = Some z.
Proof.
  intros Hz. unfold JS.to_number.
  assert (Hlog : Z.log2 (Z.abs z) - 52 <= 0).
  { destruct (Z.eq_dec (Z.abs z) 0) as [->|Hnz]; [cbn; lia|].
    assert (Z.log2 (Z.abs z) < 53) by (apply Z.log2_lt_pow2; lia). lia. }
  apply Z.leb_le in Hlog. cbv zeta. now rewrite Hlog.
Qed.

Lemma to_number_sgn z v : JS.to_number z = Some v -> Z.sgn v = Z.sgn z.
Proof.
  unfold JS.to_number. cbv zeta.
  destruct (Z.leb_spec (Z.log2 (Z.abs z) - 52) 0) as [_|He];
    [now intros [= <-]|].
  pose proof (Z.abs_nonneg z) as Hnn.
  remember (Z.abs z) as a eqn:Ea. remember (Z.log2 a - 52) as e eqn:Ee.
  assert (Ha : 0 < a).
  { destruct (Z.eq_dec a 0) as [H0|]; [|lia].
    rewrite H0 in Ee. cbn in Ee. lia. }
  assert (Hq : 1 <= Z.shiftr a e).
  { rewrite Z.shiftr_div_pow2 by lia.
    apply Z.div_le_lower_bound; [apply Z.pow_pos_nonneg; lia|].
    rewrite Z.mul_1_r.
    transitivity (2 ^ Z.log2 a); [apply Z.pow_le_mono_r; lia|].
    apply Z.log2_spec; lia. }
  match goal with
  | |- context [Z.shiftl ?q' e] => remember q' as q1 eqn:Eq1
  end.
  assert (Hq' : 1 <= q1) by (subst q1; destruct (_ || _); lia).
  destruct (Z.shiftl q1 e <? 2 ^ 1024); [|intros Hno; discriminate Hno].
  intros [= <-].
  rewrite Z.shiftl_mul_pow2 by lia.
  assert (0 < 2 ^ e) by (apply Z.pow_pos_nonneg; lia).
  rewrite Z.sgn_mul, Z.sgn_sgn.
  rewrite (Z.sgn_pos (q1 * 2 ^ e)) by nia. lia.
Qed.

Lemma page_window_offset pg lim :
  page_window pg lim ->
  num_mul (num_sub (Some pg) 1) (Some lim) = Some ((pg - 1) * lim)
  /\ is_bigint lim = true
  /\ is_bigint ((pg - 1) * lim) = true.
Proof.
  intros (Hpg & Hlim & Hoff). unfold num_mul, num_sub.
  rewrite to_number_exact by lia. rewrite to_number_exact by nia.
  assert (2 ^ 53 < bigint_max) by (vm_compute; reflexivity).
  unfold is_bigint.
  repeat split; apply andb_true_iff; split; apply Z.leb_le; nia.
Qed.

Lemma StronglySorted_skipn {A} (R : A -> A -> Prop) n l :
  StronglySorted R l -> StronglySorted R (skipn n l).
Proof.
  revert l. induction n as [|n IH]; intros l Hl; simpl; [exact Hl|].
  destruct l as [|x l]; [constructor|].
  apply IH. now inversion Hl.
Qed.

Lemma Forall_firstn {A} (P : A -> Prop) n l :
  Forall P l -> Forall P (firstn n l).
Proof.
  revert l. induction n as [|n IH]; intros l Hl; simpl; [constructor|].
  destruct l as [|x l]; [constructor|].
  inversion Hl; subst. constructor; [assumption|]. now apply IH.
Qed.

Lemma StronglySorted_firstn {A} (R : A -> A -> Prop) n l :
  StronglySorted R l -> StronglySorted R (firstn n l).
Proof.
  revert l. induction n as [|n IH]; intros l Hl; simpl; [constructor|].
  destruct l as [|x l]; [constructor|].
  inversion Hl as [|? ? Hs Hall]; subst.
  constructor; [now apply IH|]. now apply Forall_firstn.
Qed.

Lemma by_createdAt_DESC_sorted l :
  newest_first (sort_by (by_createdAt DESC) l).
Proof.
  unfold newest_first.
  eapply StronglySorted_ind
    with (P := fun l => StronglySorted
                          (fun a b => Comment.createdAt b
                                      <= Comment.createdAt a) l)
         (R := fun a b => by_createdAt DESC a b = true).
  - constructor.
  - intros a l' _ IH Hall. constructor; [exact IH|].
    rewrite Forall_forall in *. intros b Hb.
    specialize (Hall b Hb). now apply Z.leb_le in Hall.
  - apply sort_by_StronglySorted; unfold by_createdAt; cbn.
    + intros a b. rewrite !Z.leb_le. lia.
    + intros a b c. rewrite !Z.leb_le. lia.
Qed.

Lemma by_createdAt_ASC_sorted l :
  oldest_first (sort_by (by_createdAt ASC) l).
Proof.
  unfold oldest_first.
  eapply StronglySorted_ind
    with (P := fun l => StronglySorted
                          (fun a b => Comment.createdAt a
                                      <= Comment.createdAt b) l)
         (R := fun a b => by_createdAt ASC a b = true).
  - constructor.
  - intros a l' _ IH Hall. constructor; [exact IH|].
    rewrite Forall_forall in *. intros b Hb.
    specialize (Hall b Hb). now apply Z.leb_le in Hall.
  - apply sort_by_StronglySorted; unfold by_createdAt; cbn.
    + intros a b. rewrite !Z.leb_le. lia.
    + intros a b c. rewrite !Z.leb_le. lia.
Qed.

Lemma map_row_comment db l : map row_comment (map (join_comment db) l) = l.
Proof.
  rewrite map_map. cbn. apply map_id.
Qed.

Lemma replies_of_comments db parent :
  map fst (replies_of db parent)
  = filter (is_reply_to parent) (scan_comments db).
Proof.
  unfold replies_of. rewrite map_map. cbn. apply map_id.
Qed.

Lemma is_reply_to_spec parent c :
  is_reply_to parent c = true <-> Comment.parentId c = Some parent.
Proof.
  unfold is_reply_to. destruct (Comment.parentId c) as [p|].
  - rewrite Z.eqb_eq. split; congruence.
  - split; discriminate.
Qed.

(** *** Listing comments *)

(** The listing of comments reads only. *)
Lemma getComments_reads_only isUrl postId page limit db :
  store (run isUrl (CommentController.getComments postId page limit) db) = db.
Proof.
  unfold run, CommentController.getComments.
  rewrite run_from_try_catch, run_from_bind, run_from_await.
  destruct (JS.parseInt postId) as [n|]; cbn -[window num_mul num_sub];
    [|reflexivity].
  destruct (find_post n db); cbn -[window num_mul num_sub]; [|reflexivity].
  destruct (window _ _ _); reflexivity.
Qed.

(** The answer to a listing of the comments of a stored post, for a
    page and a limit that describe a page. *)
Lemma getComments_answers isUrl postId page limit n pg lim db :
  JS.parseInt postId = Some n ->
  find_post n db <> None ->
  JS.parseInt (default "1" page) = Some pg ->
  JS.parseInt (default "20" limit) = Some lim ->
  page_window pg lim ->
  result (run isUrl (CommentController.getComments postId page limit) db)
  = inr (mkResponse 200
           (CommentsBody
              (map (join_comment db)
                   (firstn (Z.to_nat lim)
                           (skipn (Z.to_nat ((pg - 1) * lim))
                                  (thread_heads n db))))
              (pagination (Some pg) (Some lim)
                 (total (map (comment_join_rows db)
                             (filter (is_top_level n) (scan_comments db))))))).
Proof.
  intros Hid Hpost Hpg Hlim Hwin.
  destruct (find_post n db) as [post|] eqn:Hfind; [clear Hpost|contradiction].
  destruct (page_window_offset pg lim Hwin) as (Hoff & Hl & Hk).
  unfold run, CommentController.getComments.
  rewrite run_from_try_catch, run_from_bind, run_from_await.
  rewrite Hid, Hpg, Hlim, Hoff. unfold exec at 1 2. cbn. rewrite Hfind. cbn.
  unfold exec, window. rewrite Hl, Hk. cbn. reflexivity.
Qed.

(** C6, as the code has it. For an existing post and a page that is a
    window of the store, [getComments] answers with the window
    [(page - 1) * limit, page * limit) of the post's top-level comments
    taken newest first, that is by creation time descending, and each
    of them carries its direct replies, every one once. *)
Theorem getComments_newest_first :
  forall (isUrl : string -> bool) (postId : string)
         (page limit : option string) (n pg lim : Z) (db : Store),
    JS.parseInt postId = Some n ->
    find_post n db <> None ->
    JS.parseInt (default "1" page) = Some pg ->
    JS.parseInt (default "20" limit) = Some lim ->
    page_window pg lim ->
    exists rows pgn all_top,
      result (run isUrl (CommentController.getComments postId page limit) db)
      = inr (mkResponse 200 (CommentsBody rows pgn))
      /\ newest_first all_top
      /\ Permutation all_top (filter (is_top_level n) (comments db))
      /\ map row_comment rows
         = firstn (Z.to_nat lim) (skipn (Z.to_nat ((pg - 1) * lim)) all_top)
      /\ newest_first (map row_comment rows)
      /\ forall r,
          In r rows ->
          Permutation (map fst (row_replies r))
                      (filter (is_reply_to (Comment.id (row_comment r)))
                              (comments db)).
Proof.
  intros isUrl postId page limit n pg lim db Hid Hpost Hpg Hlim Hwin.
  rewrite (getComments_answers isUrl postId page limit n pg lim db
             Hid Hpost Hpg Hlim Hwin).
  eexists. eexists. exists (thread_heads n db).
  split; [reflexivity|].
  split; [apply by_createdAt_DESC_sorted|].
  split.
  { unfold thread_heads. rewrite sort_by_Permutation.
    apply filter_Permutation, scan_comments_Permutation. }
  rewrite map_row_comment.
  split; [reflexivity|].
  split.
  { apply StronglySorted_firstn, StronglySorted_skipn,
      by_createdAt_DESC_sorted. }
  intros r Hr. apply in_map_iff in Hr. destruct Hr as (c & <- & _).
  cbn [row_replies row_comment join_comment].
  rewrite replies_of_comments.
  apply filter_Permutation, scan_comments_Permutation.
Qed.

(** The comments of post 1 of the example store, created at 50 and 60,
    the first with replies created at 70 and 80. *)
Lemma getComments_newest_first_witness :
  exists rows pgn,
    result (run any_url (CommentController.getComments "1" None None) demo)
    = inr (mkResponse 200 (CommentsBody rows pgn))
    /\ newest_first (map row_comment rows)
    /\ forall r,
        In r rows ->
        Permutation (map fst (row_replies r))
                    (filter (is_reply_to (Comment.id (row_comment r)))
                            (comments demo)).
Proof.
  destruct (getComments_newest_first any_url "1" None None 1 1 20 demo)
    as (rows & pgn & all_top & Hres & _ & _ & _ & Hrows & Hreplies).
  - reflexivity.
  - vm_compute; discriminate.
  - reflexivity.
  - reflexivity.
  - unfold page_window. lia.
  - exists rows, pgn. split; [exact Hres|]. split; [exact Hrows|].
    exact Hreplies.
Defined.

(** C6, as the specification has it, fails: the two top-level comments
    of post 1, created at 50 and at 60, are listed with the one created
    at 60 first. *)
Lemma getComments_top_level_not_ascending :
  exists rows pgn,
    result (run any_url (CommentController.getComments "1" None None) demo)
    = inr (mkResponse 200 (CommentsBody rows pgn))
    /\ map (fun r => Comment.createdAt (row_comment r)) rows = [60; 50]
    /\ ~ oldest_first (map row_comment rows).
Proof.
  eexists; eexists. split; [vm_compute; reflexivity|].
  split; [reflexivity|].
  cbn. intros H. inversion H as [|? ? _ Hall]; subst.
  inversion Hall as [|? ? Hle _]; subst. cbn in Hle. lia.
Qed.

(** *** The moderation flag *)

Section Unflag.
Variable isUrl : string -> bool.

Lemma filter_map_unflag (f : Comment.t -> bool) l :
  (forall c, f (unflag c) = f c) ->
  filter f (map unflag l) = map unflag (filter f l).
Proof.
  intros Hf. induction l as [|c l IH]; simpl; [reflexivity|].
  rewrite Hf. destruct (f c); simpl; now rewrite IH.
Qed.

Lemma insert_by_map_unflag (leb : Comment.t -> Comment.t -> bool) x l :
  (forall a b, leb (unflag a) (unflag b) = leb a b) ->
  insert_by leb (unflag x) (map unflag l)
  = map unflag (insert_by leb x l).
Proof.
  intros Hleb. induction l as [|y l IH]; simpl; [reflexivity|].
  rewrite Hleb. destruct (leb x y); simpl; [reflexivity|]. now rewrite IH.
Qed.

Lemma sort_by_map_unflag (leb : Comment.t -> Comment.t -> bool) l :
  (forall a b, leb (unflag a) (unflag b) = leb a b) ->
  sort_by leb (map unflag l) = map unflag (sort_by leb l).
Proof.
  intros Hleb. unfold sort_by.
  induction l as [|x l IH]; simpl; [reflexivity|].
  rewrite IH. now apply insert_by_map_unflag.
Qed.

Lemma window_map {A B} (f : A -> B) limit offset l :
  window limit offset (map f l)
  = option_map (map f) (window limit offset l).
Proof.
  unfold window. destruct limit as [n|], offset as [k|]; try reflexivity.
  destruct (negb (is_bigint n && is_bigint k)); [reflexivity|].
  cbn. now rewrite skipn_map, firstn_map.
Qed.

Lemma with_author_unflag a db c :
  with_author a (unflag_store db) (unflag c)
  = unflag_joined (with_author a db c).
Proof. reflexivity. Qed.

Lemma scan_comments_unflag db :
  scan_comments (unflag_store db) = map unflag (scan_comments db).
Proof.
  unfold scan_comments. cbn [comments place unflag_store set_comments].
  now apply sort_by_map_unflag.
Qed.

Lemma replies_of_unflag db parent :
  replies_of (unflag_store db) parent
  = map unflag_joined (replies_of db parent).
Proof.
  unfold replies_of.
  rewrite scan_comments_unflag, filter_map_unflag by reflexivity.
  rewrite !map_map. apply map_ext. intros c. apply with_author_unflag.
Qed.

Lemma comment_join_rows_unflag db c :
  comment_join_rows (unflag_store db) (unflag c) = comment_join_rows db c.
Proof.
  unfold comment_join_rows, count_replies.
  cbn [comments unflag_store set_comments Comment.id unflag
       Comment.with_isApproved].
  rewrite filter_map_unflag by reflexivity. now rewrite length_map.
Qed.

Lemma join_comment_unflag db c :
  join_comment (unflag_store db) (unflag c)
  = unflag_row (join_comment db c).
Proof.
  unfold join_comment, unflag_row. cbn [row_comment row_cauthor row_replies].
  f_equal. apply replies_of_unflag.
Qed.

(** The listing of comments on a store without flags is the listing
    on the store, without flags. *)
Lemma getComments_unflag postId page limit db :
  result (run isUrl (CommentController.getComments postId page limit)
              (unflag_store db))
  = unflag_result
      (result (run isUrl (CommentController.getComments postId page limit)
                   db)).
Proof.
  unfold run, CommentController.getComments. cbn.
  destruct (JS.parseInt postId) as [n|]; [|reflexivity]. cbn.
  change (find_post n (unflag_store db)) with (find_post n db).
  destruct (find_post n db) as [post|]; [|reflexivity]. cbn.
  rewrite scan_comments_unflag.
  rewrite filter_map_unflag, sort_by_map_unflag, window_map by reflexivity.
  rewrite map_map.
  rewrite (map_ext _ _ (comment_join_rows_unflag db)).
  destruct (window _ _ _) as [shown|]; [|reflexivity]. cbn.
  do 3 f_equal. rewrite !map_map. apply map_ext. intros c.
  apply join_comment_unflag.
Qed.

(** The same for the detail read, which also leaves the same store
    but for the flags. *)
Lemma getPostById_unflag viewer id now db :
  let o := run isUrl (PostController.getPostById viewer id now) db in
  let o' := run isUrl (PostController.getPostById viewer id now)
                (unflag_store db) in
  result o' = unflag_result (result o)
  /\ store o' = unflag_store (store o).
Proof.
  unfold run, PostController.getPostById. cbn.
  destruct (JS.parseInt id) as [n|]; [|now split]. cbn.
  change (find_post n (unflag_store db)) with (find_post n db).
  destruct (find_post n db) as [post|]; [|now split]. cbn.
  destruct (Post.isPublished post); [|now split]. cbn.
  unfold changes, changed_num; cbn.
  assert ((Post.viewCount post + 1 =? Post.viewCount post) = false) as ->
      by (apply Z.eqb_neq; lia).
  cbn.
  change (set_posts ?ps (unflag_store db))
    with (unflag_store (set_posts ps db)).
  rewrite scan_comments_unflag.
  rewrite filter_map_unflag, sort_by_map_unflag by reflexivity.
  destruct viewer as [v|]; cbn; rewrite !map_map; split; reflexivity.
Qed.

End Unflag.

(** C10. The [isApproved] flag of a comment is never read: on two
    stores that differ at most in the flags of their comments,
    [getComments] gives the same answer but for the flags in it, and so
    does [getPostById], which also leaves stores that differ at most in
    the flags; and a comment that [createComment] stores has the flag
    set. *)
Theorem isApproved_is_never_read :
  forall (isUrl : string -> bool) (db1 db2 : Store),
    same_but_isApproved db1 db2 ->
    (forall postId page limit,
        unflag_result
          (result (run isUrl
                       (CommentController.getComments postId page limit) db1))
        = unflag_result
            (result (run isUrl
                         (CommentController.getComments postId page limit)
                         db2)))
    /\ (forall viewer id now,
           let o1 := run isUrl (PostController.getPostById viewer id now) db1 in
           let o2 := run isUrl (PostController.getPostById viewer id now) db2 in
           unflag_result (result o1) = unflag_result (result o2)
           /\ same_but_isApproved (store o1) (store o2))
    /\ (forall u req now,
           let o := run isUrl (CommentController.createComment u req now) db1 in
           comments (store o) = comments db1
           \/ exists c,
               comments (store o) = (comments db1 ++ [c])%list
               /\ Comment.isApproved c = true).
Proof.
  intros isUrl db1 db2 Hsame. unfold same_but_isApproved in *.
  split; [|split].
  - intros postId page limit.
    now rewrite <- !getComments_unflag, Hsame.
  - intros viewer id now. cbv zeta.
    destruct (getPostById_unflag isUrl viewer id now db1) as [Hr1 Hs1].
    destruct (getPostById_unflag isUrl viewer id now db2) as [Hr2 Hs2].
    cbv zeta in *. rewrite <- Hr1, <- Hr2, <- Hs1, <- Hs2, Hsame.
    now split.
  - intros [u|] req now; [|now left].
    unfold run, CommentController.createComment. cbn.
    destruct (find_post (CommentController.postId req) db1) as [post|] eqn:Hp;
      [|now left].
    cbn.
    destruct (CommentController.supplied (CommentController.parentId req))
      as [pid|]; cbn.
    + destruct (find_comment pid db1) as [parent|]; cbn; [|now left].
      destruct (Comment.postId parent =? CommentController.postId req); cbn;
        [|now left].
      destruct (negb (len_between 1 5000 (CommentController.content req)));
        cbn; [now left|].
      destruct (negb _); cbn; [now left|].
      right. eexists. split; reflexivity.
    + destruct (negb (len_between 1 5000 (CommentController.content req)));
        cbn; [now left|].
      destruct (negb _); cbn; [now left|].
      right. eexists. split; reflexivity.
Qed.

(** Comment 3 of the example store is the one that is not approved. *)
Lemma isApproved_is_never_read_witness :
  unflag_result
    (result (run any_url (CommentController.getComments "1" None None) demo))
  = unflag_result
      (result (run any_url (CommentController.getComments "1" None None)
                   demo_approved)).
Proof.
  destruct (isApproved_is_never_read any_url demo demo_approved eq_refl)
    as [H _].
  exact (H "1" None None).
Defined.

(** The unapproved comment is among the replies the listing returns. *)
Example getComments_returns_unapproved :
  exists rows pgn,
    result (run any_url (CommentController.getComments "1" None None) demo)
    = inr (mkResponse 200 (CommentsBody rows pgn))
    /\ exists r reply,
        In r rows /\ In reply (map fst (row_replies r))
        /\ Comment.id reply = 3 /\ Comment.isApproved reply = false.
Proof.
  eexists; eexists. split; [vm_compute; reflexivity|].
  eexists; eexists. split; [right; left; reflexivity|].
  split; [left; reflexivity|]. split; reflexivity.
Qed.

(** *** The parent invariant under every request *)

Lemma in_filter_sub {A} (f : A -> bool) (l : list A) x :
  In x (filter f l) -> In x l.
Proof. intros H. now apply filter_In in H. Qed.

Lemma NoDup_map_filter {A B} (key : A -> B) (f : A -> bool) (l : list A) :
  NoDup (map key l) -> NoDup (map key (filter f l)).
Proof.
  induction l as [|x l IH]; simpl; intros H; [constructor|].
  inversion H as [|? ? Hnotin Hnd]; subst.
  destruct (f x); simpl; [|now apply IH].
  constructor; [|now apply IH].
  intros Hin. apply Hnotin. apply in_map_iff in Hin.
  destruct Hin as (y & Hy & Hin). apply in_map_iff. exists y.
  split; [exact Hy|]. now apply in_filter_sub in Hin.
Qed.

(** With distinct keys, a lookup finds the row that is there. *)
Lemma find_by_key {A} (key : A -> Z) (l : list A) x :
  NoDup (map key l) -> In x l ->
  find (fun y => key y =? key x) l = Some x.
Proof.
  induction l as [|y l IH]; simpl; intros Hnd Hin; [contradiction|].
  inversion Hnd as [|? ? Hnotin Hnd']; subst.
  destruct Hin as [->|Hin]; [now rewrite Z.eqb_refl|].
  destruct (Z.eqb_spec (key y) (key x)) as [Heq|Hne]; [|now apply IH].
  exfalso. apply Hnotin. rewrite Heq. now apply in_map.
Qed.

Lemma filter_partition_length {A} (f : A -> bool) (l : list A) :
  List.length l
  = (List.length (filter f l)
     + List.length (filter (fun x => negb (f x)) l))%nat.
Proof.
  induction l as [|x l IH]; simpl; [reflexivity|].
  destruct (f x); simpl; lia.
Qed.

(** What [cascade] leaves: rows of the table, none of them a reply to a
    row of [dead] or to a row that went, and keyed as the table was. *)
Lemma cascade_spec fuel :
  forall dead cs,
    (List.length cs <= fuel)%nat ->
    (forall c, In c (cascade fuel dead cs) -> In c cs)
    /\ (forall c, In c (cascade fuel dead cs) -> orphaned dead c = false)
    /\ (forall c d,
           In c (cascade fuel dead cs) -> In d cs ->
           ~ In (Comment.id d) (map Comment.id (cascade fuel dead cs)) ->
           Comment.parentId c <> Some (Comment.id d))
    /\ (NoDup (map Comment.id cs) ->
        NoDup (map Comment.id (cascade fuel dead cs))).
Proof.
  induction fuel as [|fuel IH]; intros dead cs Hlen.
  - destruct cs; [|simpl in Hlen; lia]. simpl.
    repeat split; try contradiction. auto.
  - simpl.
    destruct (filter (orphaned dead) cs) as [|g gone] eqn:Hgone.
    + repeat split; auto.
      * intros c Hc. destruct (orphaned dead c) eqn:Ho; [|reflexivity].
        assert (Hin : In c (filter (orphaned dead) cs))
          by (apply filter_In; now split).
        rewrite Hgone in Hin. contradiction.
      * intros c d _ Hd Hnotin. exfalso. apply Hnotin. now apply in_map.
    + pose proof (filter_partition_length (orphaned dead) cs) as Hsplit.
      rewrite Hgone in Hsplit. simpl in Hsplit.
      destruct (IH (map Comment.id (g :: gone))
                   (filter (fun c => negb (orphaned dead c)) cs))
        as (Hsub & Horph & Hpar & Hnd); [lia|].
      repeat split.
      * intros c Hc. apply Hsub in Hc. now apply in_filter_sub in Hc.
      * intros c Hc. apply Hsub in Hc. apply filter_In in Hc.
        now apply negb_true_iff.
      * intros c d Hc Hd Hnotin.
        destruct (orphaned dead d) eqn:Hod.
        -- assert (Hdg : In d (g :: gone))
             by (rewrite <- Hgone; apply filter_In; now split).
           specialize (Horph c Hc). unfold orphaned in Horph.
           intros Heq. rewrite Heq in Horph.
           assert (Hex : existsb (Z.eqb (Comment.id d))
                                 (map Comment.id (g :: gone)) = true).
           { apply existsb_exists. exists (Comment.id d).
             split; [now apply in_map | apply Z.eqb_refl]. }
           congruence.
        -- apply Hpar; [exact Hc| |exact Hnotin].
           apply filter_In. split; [exact Hd|]. now rewrite Hod.
      * intros Hndcs. apply Hnd. now apply NoDup_map_filter.
Qed.

Lemma comment_table_ok_same db db' :
  comments db' = comments db ->
  next_comment_id db <= next_comment_id db' ->
  comment_table_ok db -> comment_table_ok db'.
Proof.
  intros Hc Hn [(Hnd & Hpos & Hrange) Hpar]. split; [split; [|split]|].
  - now rewrite Hc.
  - lia.
  - rewrite Hc. intros c Hin. specialize (Hrange c Hin). lia.
  - now apply (parents_on_same_post_comments db).
Qed.

(** Deleting comments with their replies keeps the table keyed and
    every parent in place. *)
Lemma delete_comments_ok doomed db :
  comment_table_ok db ->
  comment_table_ok (set_comments (delete_comments doomed (comments db)) db).
Proof.
  intros [(Hnd & Hpos & Hrange) Hparents].
  unfold delete_comments.
  destruct (cascade_spec
              (List.length (filter (fun c => negb (doomed c)) (comments db)))
              (map Comment.id (filter doomed (comments db)))
              (filter (fun c => negb (doomed c)) (comments db))
              (Nat.le_refl _))
    as (Hsub & Horph & Hpar & Hnd').
  set (res := cascade _ _ _) in *.
  assert (Hres : forall c, In c res -> In c (comments db)).
  { intros c Hc. apply Hsub in Hc. now apply in_filter_sub in Hc. }
  assert (Hndres : NoDup (map Comment.id res))
    by (apply Hnd'; now apply NoDup_map_filter).
  split; [split; [|split]|].
  - exact Hndres.
  - exact Hpos.
  - cbn. intros c Hc. apply Hrange. now apply Hres.
  - intros c pid Hc Hpid. cbn in Hc.
    destruct (Hparents c pid (Hres c Hc) Hpid) as (par & Hfind & Hpost).
    destruct (find_some_id Comment.id pid _ par Hfind) as [Hparid Hparin].
    destruct (in_dec Z.eq_dec (Comment.id par) (map Comment.id res))
      as [Hin|Hnotin].
    + apply in_map_iff in Hin. destruct Hin as (par' & Hid' & Hin').
      exists par'. split.
      * unfold find_comment. cbn. rewrite <- Hparid, <- Hid'.
        now apply find_by_key.
      * assert (Hsame : find_comment (Comment.id par') db = Some par').
        { unfold find_comment. apply find_by_key; [exact Hnd|].
          now apply Hres. }
        rewrite Hid', Hparid, Hfind in Hsame. now injection Hsame as <-.
    + exfalso. destruct (doomed par) eqn:Hdoomed.
      * specialize (Horph c Hc). unfold orphaned in Horph.
        rewrite Hpid in Horph.
        assert (Hex : existsb (Z.eqb pid)
                        (map Comment.id (filter doomed (comments db)))
                      = true).
        { apply existsb_exists. exists (Comment.id par). split.
          - apply in_map. apply filter_In. now split.
          - apply Z.eqb_eq. now rewrite Hparid. }
        congruence.
      * apply (Hpar c par Hc); [|exact Hnotin|now rewrite Hparid].
        apply filter_In. split; [exact Hparin|]. now rewrite Hdoomed.
Qed.

Lemma find_update_sel (sel : Comment.t -> bool) (f : Comment.t -> Comment.t)
      (pid : Z) (l : list Comment.t) :
  (forall c, Comment.id (f c) = Comment.id c) ->
  find (fun c => Comment.id c =? pid) (update_where sel f l)
  = option_map (fun c => if sel c then f c else c)
               (find (fun c => Comment.id c =? pid) l).
Proof.
  intros Hid. unfold update_where.
  induction l as [|c l IH]; simpl; [reflexivity|].
  assert (Hc : Comment.id (if sel c then f c else c) = Comment.id c)
    by (destruct (sel c); [apply Hid|reflexivity]).
  rewrite Hc. destruct (Comment.id c =? pid); [reflexivity|exact IH].
Qed.

(** Rewriting the content of comments keeps the table keyed and every
    parent in place. *)
Lemma update_comments_ok sel f db :
  (forall c, Comment.id (f c) = Comment.id c) ->
  (forall c, Comment.postId (f c) = Comment.postId c) ->
  (forall c, Comment.parentId (f c) = Comment.parentId c) ->
  comment_table_ok db ->
  comment_table_ok (set_comments (update_where sel f (comments db)) db).
Proof.
  intros Hid Hpost Hparent [(Hnd & Hpos & Hrange) Hparents].
  assert (Hids : map Comment.id (update_where sel f (comments db))
                 = map Comment.id (comments db)).
  { unfold update_where. rewrite map_map. apply map_ext.
    intros c. destruct (sel c); [apply Hid|reflexivity]. }
  split; [split; [|split]|].
  - cbn. now rewrite Hids.
  - exact Hpos.
  - cbn. intros c Hc. unfold update_where in Hc. apply in_map_iff in Hc.
    destruct Hc as (c0 & <- & Hc0). specialize (Hrange c0 Hc0).
    destruct (sel c0); [rewrite Hid|]; exact Hrange.
  - intros c pid Hc Hpid. cbn in Hc. unfold update_where in Hc.
    apply in_map_iff in Hc. destruct Hc as (c0 & <- & Hc0).
    assert (Hpid0 : Comment.parentId c0 = Some pid)
      by (destruct (sel c0); [rewrite Hparent in Hpid|]; exact Hpid).
    destruct (Hparents c0 pid Hc0 Hpid0) as (par & Hpar & Hsame).
    unfold find_comment in *. cbn. rewrite find_update_sel, Hpar by exact Hid.
    cbn. eexists. split; [reflexivity|].
    destruct (sel par), (sel c0); rewrite ?Hpost; exact Hsame.
Qed.

(** Storing a comment under the next key, with no parent or with a
    stored parent on its post, does the same. *)
Lemma add_comment_ok c db :
  Comment.id c = next_comment_id db ->
  (forall pid, Comment.parentId c = Some pid ->
               exists parent, find_comment pid db = Some parent
                              /\ Comment.postId parent = Comment.postId c) ->
  comment_table_ok db ->
  comment_table_ok
    (bump_comment_id (set_comments (comments db ++ [c]) db)).
Proof.
  intros Hid Hparent [(Hnd & Hpos & Hrange) Hparents].
  split; [split; [|split]|].
  - cbn. rewrite map_app. cbn.
    apply NoDup_app; [exact Hnd|repeat constructor; auto|].
    intros x Hx [<-|[]]. apply in_map_iff in Hx.
    destruct Hx as (d & Hd & Hin). specialize (Hrange d Hin). lia.
  - cbn. lia.
  - cbn. intros d Hd. apply in_app_or in Hd. destruct Hd as [Hd|[<-|[]]].
    + specialize (Hrange d Hd). lia.
    + lia.
  - now apply (parents_on_same_post_add db _ c).
Qed.

Ltac same_comments H :=
  match type of H with
  | comment_table_ok ?d =>
      apply comment_table_ok_same with (db := d);
      [reflexivity | cbn; lia | exact H]
  end.

(** Whatever the request, a comment table that is keyed and has every
    parent on the reply's post stays so. *)
Theorem controller_keeps_comment_table :
  forall (isUrl : string -> bool) (now : Z) (r : Request) (db : Store),
    comment_table_ok db ->
    comment_table_ok (store (run isUrl (controller now r) db)).
Proof.
  intros isUrl now r db Hok.
  destruct r as [postId page limit|user req|user id content|user id
                 |user q|user id|user req|user id req|user id|user id];
    unfold controller.
  - (* getComments *)
    now rewrite getComments_reads_only.
  - (* createComment *)
    unfold run, CommentController.createComment; cbn.
    destruct user as [u|]; cbn; [|exact Hok].
    destruct (find_post (CommentController.postId req) db) as [post|] eqn:Hpost;
      cbn; [|exact Hok].
    destruct (CommentController.parentId req) as [pid|] eqn:Hpid; cbn.
    + unfold JS.truthy_num. destruct (Z.eqb_spec pid 0) as [Hzero|Hnz]; cbn.
      * destruct (len_between 1 5000 (CommentController.content req)); cbn;
          [|exact Hok].
        rewrite Hpost; cbn.
        destruct (find_user (Http.id u) db); cbn; [|same_comments Hok].
        destruct (find_comment pid db) as [c0|] eqn:Hc0; cbn;
          [|same_comments Hok].
        exfalso. destruct Hok as [(_ & _ & Hrange) _].
        destruct (find_some_id Comment.id pid _ c0 Hc0) as [Hid Hin].
        specialize (Hrange c0 Hin). lia.
      * destruct (find_comment pid db) as [parent|] eqn:Hparent; cbn;
          [|exact Hok].
        destruct (Z.eqb_spec (Comment.postId parent)
                             (CommentController.postId req)); cbn;
          [|exact Hok].
        destruct (len_between 1 5000 (CommentController.content req)); cbn;
          [|exact Hok].
        rewrite Hpost, Hparent; cbn.
        destruct (find_user (Http.id u) db); cbn; [|same_comments Hok].
        apply add_comment_ok; [reflexivity| |exact Hok].
        cbn. intros pid' [= <-]. now exists parent.
    + destruct (len_between 1 5000 (CommentController.content req)); cbn;
        [|exact Hok].
      rewrite Hpost; cbn.
      destruct (find_user (Http.id u) db); cbn; [|same_comments Hok].
      apply add_comment_ok; [reflexivity| |exact Hok].
      cbn. intros pid'; discriminate.
  - (* updateComment *)
    unfold run, CommentController.updateComment; cbn.
    destruct user as [u|]; cbn; [|exact Hok].
    destruct (JS.parseInt id) as [n|]; cbn; [|exact Hok].
    destruct (find_comment n db) as [c|]; cbn; [|exact Hok].
    destruct (Comment.authorId c =? Http.id u); cbn; [|exact Hok].
    destruct (changed_str (Comment.content c) content) as [s|]; cbn;
      [|exact Hok].
    destruct (len_between 1 5000 s); cbn; [|exact Hok].
    now apply update_comments_ok.
  - (* deleteComment *)
    unfold run, CommentController.deleteComment; cbn.
    destruct user as [u|]; cbn; [|exact Hok].
    destruct (JS.parseInt id) as [n|]; cbn; [|exact Hok].
    destruct (find_comment n db) as [c|]; cbn; [|exact Hok].
    destruct (Comment.authorId c =? Http.id u); cbn; [|exact Hok].
    now apply delete_comments_ok.
  - (* getPosts *)
    now rewrite getPosts_reads_only.
  - (* getPostById *)
    unfold run, PostController.getPostById; cbn.
    destruct (JS.parseInt id) as [n|]; cbn; [|exact Hok].
    destruct (find_post n db) as [p|]; cbn; [|exact Hok].
    destruct (Post.isPublished p); cbn; [|exact Hok].
    unfold changes, changed_num; cbn.
    assert ((Post.viewCount p + 1 =? Post.viewCount p) = false) as ->
        by (apply Z.eqb_neq; lia).
    cbn. destruct user as [v|]; cbn; same_comments Hok.
  - (* createPost *)
    unfold run, PostController.createPost; cbn.
    destruct user as [u|]; cbn; [|exact Hok].
    destruct (len_between 1 255 (PostController.title req)
              && len_between 1 50000 (PostController.content req)
              && valid_imageUrl isUrl (PostController.imageUrl req)); cbn;
      [|exact Hok].
    destruct (find_user (Http.id u) db); cbn; same_comments Hok.
  - (* updatePost *)
    unfold run, PostController.updatePost; cbn.
    destruct user as [u|]; cbn; [|exact Hok].
    destruct (JS.parseInt id) as [n|]; cbn; [|exact Hok].
    destruct (find_post n db) as [p|]; cbn; [|exact Hok].
    destruct (Post.authorId p =? Http.id u); cbn; [|exact Hok].
    destruct (no_change _); cbn; [exact Hok|].
    destruct (_ && _); cbn; [same_comments Hok|exact Hok].
  - (* deletePost *)
    unfold run, PostController.deletePost; cbn.
    destruct user as [u|]; cbn; [|exact Hok].
    destruct (JS.parseInt id) as [n|]; cbn; [|exact Hok].
    destruct (find_post n db) as [p|]; cbn; [|exact Hok].
    destruct (Post.authorId p =? Http.id u); cbn; [|exact Hok].
    pose proof (delete_comments_ok
                  (fun c => Comment.postId c =? Post.id p) db Hok) as Hdel.
    same_comments Hdel.
  - (* likePost *)
    unfold run, PostController.likePost; cbn.
    destruct user as [u|]; cbn; [|exact Hok].
    destruct (JS.parseInt id) as [n|]; cbn; [|exact Hok].
    destruct (find_post n db) as [p|] eqn:Hp; cbn; [|exact Hok].
    destruct (find_like (Post.id p) (Http.id u) db) as [l|] eqn:Hl; cbn.
    + same_comments Hok.
    + rewrite Hl; cbn.
      destruct (find_post (Post.id p) db); cbn; [|same_comments Hok].
      destruct (find_user (Http.id u) db); cbn; same_comments Hok.
Qed.

(** X26. In every store reached from one without comments, every stored
    comment with a [parentId] has its parent stored, on the same post. *)
Corollary parents_always_on_same_post :
  forall (isUrl : string -> bool) (us : list User.t)
         (pl : Table -> Z -> Z) (rs : list (Z * Request)),
    parents_on_same_post (serve_all isUrl rs (fresh us pl)).
Proof.
  intros isUrl us pl rs.
  assert (H : comment_table_ok (serve_all isUrl rs (fresh us pl))).
  { assert (H0 : comment_table_ok (fresh us pl)).
    { split; [split; [constructor|split; [reflexivity|]]|];
        intros c; cbn; contradiction. }
    revert H0. generalize (fresh us pl) as db.
    induction rs as [|[now r] rs IH]; intros db Hok; cbn; [exact Hok|].
    apply IH. now apply controller_keeps_comment_table. }
  exact (proj2 H).
Qed.

(* ================================================================== *)
(** ** Further properties of the code *)
(* ================================================================== *)

(** *** Keys kept by an insertion and by an update *)

Lemma keyed_add {A} (key : A -> Z) next l x :
  key x = next -> keyed key next l -> keyed key (next + 1) (l ++ [x]).
Proof.
  intros Hx (Hnd & Hpos & Hrange). split; [|split; [lia|]].
  - rewrite map_app. cbn.
    apply NoDup_app; [exact Hnd|repeat constructor; auto|].
    intros k Hk [<-|[]]. apply in_map_iff in Hk.
    destruct Hk as (y & Hy & Hin). specialize (Hrange y Hin). lia.
  - intros y Hy. apply in_app_or in Hy. destruct Hy as [Hy|[<-|[]]].
    + specialize (Hrange y Hy). lia.
    + lia.
Qed.

Lemma keyed_update {A} (key : A -> Z) next (sel : A -> bool) (f : A -> A) l :
  (forall x, key (f x) = key x) ->
  keyed key next l -> keyed key next (update_where sel f l).
Proof.
  intros Hkey (Hnd & Hpos & Hrange).
  assert (Hids : map key (update_where sel f l) = map key l).
  { unfold update_where. rewrite map_map. apply map_ext.
    intros x. destruct (sel x); [apply Hkey|reflexivity]. }
  split; [now rewrite Hids|]. split; [exact Hpos|].
  intros x Hx. unfold update_where in Hx. apply in_map_iff in Hx.
  destruct Hx as (y & <- & Hy). specialize (Hrange y Hy).
  destruct (sel y); [rewrite Hkey|]; exact Hrange.
Qed.


Lemma demo_schema_ok : schema_ok demo.
Proof.
  split; [|split; [|split; [|split; [|split; [|split]]]]].
  - split; [|split; [reflexivity|]].
    + cbn. repeat constructor; cbn; intuition discriminate.
    + intros x [<-|[<-|[<-|[<-|[]]]]]; cbn; lia.
  - split; [|split; [reflexivity|]].
    + cbn. repeat constructor; cbn; intuition discriminate.
    + intros x [<-|[<-|[<-|[<-|[<-|[]]]]]]; cbn; lia.
  - split; [constructor|split; [reflexivity|]]. intros x [].
  - intros u p. cbn. lia.
  - intros x [<-|[<-|[<-|[<-|[]]]]]; vm_compute; discriminate.
  - intros x [<-|[<-|[<-|[<-|[<-|[]]]]]];
      (split; [|split]); try (vm_compute; discriminate);
      intros pid [= <-]; vm_compute; discriminate.
  - intros x [].
Qed.

(** *** Requests for a row that is not there *)

(** X3. A request that addresses a post or a comment by a path parameter
    and is not stopped for want of a user is answered 404 when
    [parseInt] reads a finite number from the parameter and no row has
    it as key, and 500 when [parseInt] reads none (it gives NaN or an
    infinity); in both cases the store is left as it was. *)
Theorem missing_target :
  forall (isUrl : string -> bool) (now : Z) (r : Request) (id : string)
         (db : Store),
    signed_in r = true ->
    target_key r = Some id ->
    let o := run isUrl (controller now r) db in
    (JS.parseInt id = None -> status_of o = Some Internal /\ store o = db)
    /\ (forall n,
           JS.parseInt id = Some n ->
           target_stored r n db = false ->
           status_of o = Some NotFound /\ store o = db).
Proof.
  intros isUrl now r id db Hin Hkey.
  destruct r as [postId page limit|user req|user i content|user i
                 |user q|user i|user req|user i req|user i|user i];
    cbn in Hkey; try discriminate; injection Hkey as ->;
    cbn in Hin; try (destruct user as [u|]; [clear Hin|discriminate]);
    unfold controller, run;
    (split; [intros Hnan|intros n Hn Hmissing; cbn in Hmissing]).
  all: unfold CommentController.getComments, CommentController.updateComment,
         CommentController.deleteComment, PostController.getPostById,
         PostController.updatePost, PostController.deletePost,
         PostController.likePost; cbn.
  all: try (rewrite Hnan; cbn; split; reflexivity).
  all: rewrite Hn; cbn.
  all: try (destruct (find_post n db); [discriminate|]).
  all: try (destruct (find_comment n db); [discriminate|]).
  all: cbn; split; reflexivity.
Qed.

(** No post 9 and no comment 9 in the example store; [abc] is no
    number. *)
Lemma missing_target_witness :
  (let o := run any_url (controller 100 (LikePost (Some as_bob) "9")) demo in
   status_of o = Some NotFound /\ store o = demo)
  /\ (let o :=
        run any_url (controller 100 (DelComment (Some as_bob) "9")) demo in
      status_of o = Some NotFound /\ store o = demo)
  /\ (let o :=
        run any_url (controller 100 (DelPost (Some as_alice) "abc")) demo in
      status_of o = Some Internal /\ store o = demo).
Proof.
  split; [|split].
  - apply (proj2 (missing_target any_url 100 (LikePost (Some as_bob) "9") "9"
                    demo eq_refl eq_refl) 9); reflexivity.
  - apply (proj2 (missing_target any_url 100 (DelComment (Some as_bob) "9")
                    "9" demo eq_refl eq_refl) 9); reflexivity.
  - apply (proj1 (missing_target any_url 100 (DelPost (Some as_alice) "abc")
                    "abc" demo eq_refl eq_refl)); reflexivity.
Defined.

(** *** Deleting posts and comments *)

Lemma cascade_settled fuel dead cs :
  filter (orphaned dead) cs = [] -> cascade fuel dead cs = cs.
Proof.
  intros Hnone. destruct fuel as [|fuel]; cbn; [reflexivity|].
  now rewrite Hnone.
Qed.

Lemma reached_wider dead cs cs' c :
  (forall x, In x cs -> In x cs') ->
  reached dead cs c -> reached dead cs' c.
Proof.
  intros Hsub Hc. induction Hc as [c pid Hpid Hin|c par Hpar _ IH Hpid].
  - now apply reached_first with pid.
  - apply reached_next with par; auto.
Qed.

(** What a cascade removes, it reached. *)
Lemma cascade_removed fuel :
  forall dead cs c,
    In c cs -> ~ In c (cascade fuel dead cs) -> reached dead cs c.
Proof.
  induction fuel as [|fuel IH]; intros dead cs c Hin Hout; cbn in Hout.
  - contradiction.
  - destruct (filter (orphaned dead) cs) as [|g gone] eqn:Hgone;
      [contradiction|].
    destruct (orphaned dead c) eqn:Horph.
    + unfold orphaned in Horph.
      destruct (Comment.parentId c) as [pid|] eqn:Hpid; [|discriminate].
      apply existsb_exists in Horph. destruct Horph as (x & Hx & Heq).
      apply Z.eqb_eq in Heq. subst x. now apply reached_first with pid.
    + assert (Hrest : In c (filter (fun c => negb (orphaned dead c)) cs))
        by (apply filter_In; split; [exact Hin|now rewrite Horph]).
      specialize (IH _ _ c Hrest Hout).
      clear Hout Hrest Horph Hin.
      induction IH as [c pid Hpid Hdead|c par Hpar _ IHpar Hpid].
      * change (In pid (map Comment.id (g :: gone))) in Hdead.
        apply in_map_iff in Hdead. destruct Hdead as (d & <- & Hd).
        rewrite <- Hgone in Hd. apply filter_In in Hd.
        destruct Hd as [Hd Horph].
        apply reached_next with d; [exact Hd| |exact Hpid].
        unfold orphaned in Horph.
        destruct (Comment.parentId d) as [pid|] eqn:Hdpid; [|discriminate].
        apply existsb_exists in Horph. destruct Horph as (x & Hx & Heq).
        apply Z.eqb_eq in Heq. subst x. now apply reached_first with pid.
      * apply reached_next with par; [|exact IHpar|exact Hpid].
        now apply in_filter_sub in Hpar.
Qed.

(** Replies are on the post of their parent, so the comments of a post
    go with it and no other comment does. *)
Lemma delete_comments_of_post n db :
  comment_table_ok db ->
  delete_comments (fun c => Comment.postId c =? n) (comments db)
  = filter (fun c => negb (Comment.postId c =? n)) (comments db).
Proof.
  intros [(Hnd & _ & _) Hparents]. unfold delete_comments.
  apply cascade_settled.
  destruct (filter _ (filter _ _)) as [|c rest] eqn:Hfilter; [reflexivity|].
  exfalso.
  assert (Hc : In c (c :: rest)) by now left.
  rewrite <- Hfilter in Hc. apply filter_In in Hc. destruct Hc as [Hc Horph].
  apply filter_In in Hc. destruct Hc as [Hc Hpost].
  unfold orphaned in Horph.
  destruct (Comment.parentId c) as [pid|] eqn:Hpid; [|discriminate].
  apply existsb_exists in Horph. destruct Horph as (x & Hx & Heq).
  apply Z.eqb_eq in Heq. subst x.
  apply in_map_iff in Hx. destruct Hx as (d & Hd & Hdin).
  apply filter_In in Hdin. destruct Hdin as [Hdin Hdpost].
  destruct (Hparents c pid Hc Hpid) as (par & Hfind & Hsame).
  assert (Hpar : find_comment (Comment.id d) db = Some d)
    by (unfold find_comment; now apply find_by_key).
  rewrite Hd, Hfind in Hpar. injection Hpar as ->.
  rewrite Hsame in Hdpost. rewrite Hdpost in Hpost. discriminate.
Qed.

Lemma find_filter_other {A} (key : A -> Z) (n m : Z) (l : list A) :
  m <> n ->
  find (fun y => key y =? m) (filter (fun y => negb (key y =? n)) l)
  = find (fun y => key y =? m) l.
Proof.
  intros Hne. induction l as [|x l IH]; cbn; [reflexivity|].
  destruct (Z.eqb_spec (key x) n) as [Hx|Hx]; cbn.
  - destruct (Z.eqb_spec (key x) m); [lia|exact IH].
  - destruct (key x =? m); [reflexivity|exact IH].
Qed.

Lemma find_filter_same {A} (key : A -> Z) (n : Z) (l : list A) :
  find (fun y => key y =? n) (filter (fun y => negb (key y =? n)) l) = None.
Proof.
  induction l as [|x l IH]; cbn; [reflexivity|].
  destruct (key x =? n) eqn:Hx; cbn; [exact IH|]. now rewrite Hx.
Qed.

(** X4. When its author deletes a post, the answer is 200, the post is
    gone and every other post stays; with replies stored on the post of
    their parent, the comments that go are exactly those of the post,
    and the likes that go are exactly those of the post. *)
Theorem deletePost_takes_comments_and_likes :
  forall (isUrl : string -> bool) (who : AuthUser) (id : string) (n : Z)
         (p : Post.t) (db : Store),
    comment_table_ok db ->
    JS.parseInt id = Some n ->
    find_post n db = Some p ->
    Post.authorId p = Http.id who ->
    let o := run isUrl (PostController.deletePost (Some who) id) db in
    result o = inr (mkResponse 200 (MessageBody "Post deleted successfully"))
    /\ find_post n (store o) = None
    /\ (forall m, m <> n -> find_post m (store o) = find_post m db)
    /\ comments (store o)
       = filter (fun c => negb (Comment.postId c =? n)) (comments db)
    /\ likes (store o)
       = filter (fun l => negb (Like.postId l =? n)) (likes db)
    /\ users (store o) = users db.
Proof.
  intros isUrl who id n p db Hok Hid Hp Hauthor.
  pose proof (find_post_id _ _ _ Hp) as Hkey.
  unfold run, PostController.deletePost; cbn.
  rewrite Hid; cbn. rewrite Hp; cbn.
  rewrite Hauthor, Z.eqb_refl; cbn. rewrite Hkey.
  split; [reflexivity|]. split; [|split; [|split; [|split]]].
  - unfold find_post; cbn. apply find_filter_same.
  - intros m Hm. unfold find_post; cbn. now apply find_filter_other.
  - now apply delete_comments_of_post.
  - reflexivity.
  - reflexivity.
Qed.

(** Alice deletes her post 1: comment 5, on post 2, is what is left. *)
Lemma deletePost_takes_comments_and_likes_witness :
  let o := run any_url (PostController.deletePost (Some as_alice) "1") demo in
  result o = inr (mkResponse 200 (MessageBody "Post deleted successfully"))
  /\ find_post 1 (store o) = None
  /\ (forall m, m <> 1 -> find_post m (store o) = find_post m demo)
  /\ comments (store o)
     = filter (fun c => negb (Comment.postId c =? 1)) (comments demo)
  /\ likes (store o)
     = filter (fun l => negb (Like.postId l =? 1)) (likes demo)
  /\ users (store o) = users demo.
Proof.
  apply (deletePost_takes_comments_and_likes any_url as_alice "1" 1
           (demo_post 1 1 true 10) demo); try reflexivity.
  split.
  - exact (proj1 (proj2 demo_schema_ok)).
  - intros c pid [<-|[<-|[<-|[<-|[<-|[]]]]]]; cbn; intros [= <-];
      eexists; (split; [reflexivity|reflexivity]).
Defined.

Lemma same_key_same_row {A} (key : A -> Z) (l : list A) x y :
  NoDup (map key l) -> In x l -> In y l -> key x = key y -> x = y.
Proof.
  intros Hnd Hx Hy Hkey.
  pose proof (find_by_key key l x Hnd Hx) as Hfx.
  pose proof (find_by_key key l y Hnd Hy) as Hfy.
  rewrite Hkey, Hfy in Hfx. now injection Hfx.
Qed.

(** Deleting the comment with key [n] removes its thread and nothing
    else. *)
Lemma delete_comment_thread n cs :
  NoDup (map Comment.id cs) ->
  forall d,
    In d (delete_comments (fun c => Comment.id c =? n) cs)
    <-> In d cs /\ ~ in_thread cs n d.
Proof.
  intros Hnd. unfold delete_comments.
  set (doomed := fun c => Comment.id c =? n).
  set (rest := filter (fun c => negb (doomed c)) cs).
  destruct (cascade_spec (List.length rest)
              (map Comment.id (filter doomed cs)) rest (Nat.le_refl _))
    as (Hsub & Horph & Hpar & _).
  set (res := cascade _ _ _) in *.
  assert (Hres : forall c, In c res -> In c cs /\ doomed c = false).
  { intros c Hc. apply Hsub in Hc. apply filter_In in Hc.
    destruct Hc as [Hc Hd]. split; [exact Hc|].
    now apply negb_true_iff in Hd. }
  assert (Hthread : forall c, in_thread cs n c -> ~ In c res).
  { intros c Hc. induction Hc as [c Hin Hid|c par Hin Hthread IH Hpid].
    - intros Hc. apply Hres in Hc. destruct Hc as [_ Hd].
      unfold doomed in Hd. apply Z.eqb_neq in Hd. contradiction.
    - intros Hc.
      assert (Hparin : In par cs) by (destruct Hthread; assumption).
      destruct (doomed par) eqn:Hd.
      + specialize (Horph c Hc). unfold orphaned in Horph.
        rewrite Hpid in Horph.
        assert (Hex : existsb (Z.eqb (Comment.id par))
                        (map Comment.id (filter doomed cs)) = true).
        { apply existsb_exists. exists (Comment.id par). split.
          - apply in_map. apply filter_In. now split.
          - apply Z.eqb_refl. }
        congruence.
      + apply (Hpar c par Hc); [| |exact Hpid].
        * apply filter_In. split; [exact Hparin|]. now rewrite Hd.
        * intros Hthere. apply in_map_iff in Hthere.
          destruct Hthere as (par' & Hid' & Hin').
          assert (par' = par) as ->.
          { apply (same_key_same_row Comment.id cs); auto.
            now apply Hres in Hin'. }
          contradiction. }
  intros d. split.
  - intros Hd. split; [now apply Hres in Hd|].
    intros Ht. now apply (Hthread d).
  - intros [Hd Hfree].
    destruct (in_dec Z.eq_dec (Comment.id d) (map Comment.id res))
      as [Hthere|Hgone].
    + apply in_map_iff in Hthere. destruct Hthere as (d' & Hid' & Hin').
      assert (d' = d) as ->; [|exact Hin'].
      apply (same_key_same_row Comment.id cs); auto.
      now apply Hres in Hin'.
    + exfalso. apply Hfree.
      destruct (doomed d) eqn:Hdoomed.
      * apply thread_root; [exact Hd|]. now apply Z.eqb_eq.
      * assert (Hrest : In d rest)
          by (apply filter_In; split; [exact Hd|now rewrite Hdoomed]).
        assert (Hout : ~ In d res)
          by (intros Hin; apply Hgone; now apply in_map).
        pose proof (cascade_removed _ _ _ d Hrest Hout) as Hreached.
        clear Hrest Hout Hgone Hdoomed Hfree.
        induction Hreached as [c pid Hpid Hdead|c par Hparin _ IH Hpid].
        -- apply in_map_iff in Hdead. destruct Hdead as (r & <- & Hr).
           apply filter_In in Hr. destruct Hr as [Hr Hrd].
           apply thread_reply with r; [exact Hd| |exact Hpid].
           apply thread_root; [exact Hr|]. now apply Z.eqb_eq.
        -- apply in_filter_sub in Hparin.
           apply thread_reply with par; [exact Hd| |exact Hpid].
           now apply IH.
Qed.

(** X5. When its author deletes a comment, the answer is 200 and the
    comments left are those of the table that are not in the thread of
    the deleted one: the comment, its replies, their replies and so on
    go, and no other comment does. Posts, likes and users stay. *)
Theorem deleteComment_removes_thread :
  forall (isUrl : string -> bool) (who : AuthUser) (id : string) (n : Z)
         (c : Comment.t) (db : Store),
    NoDup (map Comment.id (comments db)) ->
    JS.parseInt id = Some n ->
    find_comment n db = Some c ->
    Comment.authorId c = Http.id who ->
    let o := run isUrl (CommentController.deleteComment (Some who) id) db in
    result o
    = inr (mkResponse 200 (MessageBody "Comment deleted successfully"))
    /\ (forall d,
           In d (comments (store o))
           <-> In d (comments db) /\ ~ in_thread (comments db) n d)
    /\ find_comment n (store o) = None
    /\ posts (store o) = posts db
    /\ likes (store o) = likes db
    /\ users (store o) = users db.
Proof.
  intros isUrl who id n c db Hnd Hid Hc Hauthor.
  pose proof (find_comment_id _ _ _ Hc) as Hkey.
  unfold run, CommentController.deleteComment; cbn.
  rewrite Hid; cbn. rewrite Hc; cbn.
  rewrite Hauthor, Z.eqb_refl; cbn. rewrite Hkey.
  pose proof (delete_comment_thread n (comments db) Hnd) as Hthread.
  split; [reflexivity|]. split; [exact Hthread|].
  split; [|split; [|split]]; try reflexivity.
  unfold find_comment; cbn.
  destruct (find _ _) as [d|] eqn:Hfind; [|reflexivity].
  exfalso. destruct (find_some_id Comment.id n _ d Hfind) as [Hdid Hdin].
  apply Hthread in Hdin. destruct Hdin as [Hdin Hfree].
  apply Hfree. now apply thread_root.
Qed.

(** Bob deletes his comment 1 of the example store: its replies 3 and 4
    go with it, comments 2 and 5 stay. *)
Lemma deleteComment_removes_thread_witness :
  let o := run any_url (CommentController.deleteComment (Some as_bob) "1")
               demo in
  result o
  = inr (mkResponse 200 (MessageBody "Comment deleted successfully"))
  /\ (forall d,
         In d (comments (store o))
         <-> In d (comments demo) /\ ~ in_thread (comments demo) 1 d)
  /\ find_comment 1 (store o) = None
  /\ posts (store o) = posts demo
  /\ likes (store o) = likes demo
  /\ users (store o) = users demo.
Proof.
  apply (deleteComment_removes_thread any_url as_bob "1" 1
           (demo_comment 1 1 2 None true 50) demo); try reflexivity.
  exact (proj1 (proj1 (proj2 demo_schema_ok))).
Defined.

(** *** Editing a comment *)



(** *** The life of a post *)

Lemma later_version_refl p : later_version p p.
Proof. repeat split; lia. Qed.

Lemma posts_continue_same db db' :
  posts db' = posts db ->
  next_post_id db <= next_post_id db' ->
  posts_continue db db'.
Proof.
  intros Hposts Hnext. split; [exact Hnext|].
  intros m p' Hfind _. exists p'. split; [|apply later_version_refl].
  unfold find_post in *. now rewrite <- Hposts.
Qed.

Lemma posts_continue_trans db1 db2 db3 :
  posts_continue db1 db2 -> posts_continue db2 db3 ->
  posts_continue db1 db3.
Proof.
  intros [Hn12 H12] [Hn23 H23]. split; [lia|].
  intros m p3 Hfind Hm.
  destruct (H23 m p3 Hfind) as (p2 & Hfind2 & Hlater23); [lia|].
  destruct (H12 m p2 Hfind2 Hm) as (p1 & Hfind1 & Hlater12).
  exists p1. split; [exact Hfind1|].
  destruct Hlater12 as (? & ? & ? & ? & ? & ?).
  destruct Hlater23 as (? & ? & ? & ? & ? & ?).
  repeat split; try congruence. lia.
Qed.

(** A save that leaves key, author, creation time and publication
    alone and does not lower the views. *)
Lemma posts_continue_update (f : Post.t -> Post.t) n db :
  (forall p, later_version p (f p)) ->
  posts_continue db
    (set_posts (update_where (fun q => Post.id q =? n) f (posts db)) db).
Proof.
  intros Hf. split; [cbn; lia|].
  intros m p' Hfind _. unfold find_post in *; cbn in Hfind.
  rewrite (find_update_where Post.id) in Hfind
    by (intros x; apply (Hf x)).
  destruct (m =? n).
  - destruct (find _ (posts db)) as [p|]; [|discriminate].
    injection Hfind as <-. exists p. split; [reflexivity|apply Hf].
  - exists p'. split; [exact Hfind|apply later_version_refl].
Qed.

Ltac same_posts :=
  apply posts_continue_same; [reflexivity | cbn; lia].

Lemma controller_continues_posts isUrl now r db :
  posts_continue db (store (run isUrl (controller now r) db)).
Proof.
  destruct r as [postId page limit|user req|user id content|user id
                 |user q|user id|user req|user id req|user id|user id];
    unfold controller.
  - (* getComments *)
    rewrite getComments_reads_only. same_posts.
  - (* createComment *)
    unfold run, CommentController.createComment; cbn.
    destruct user as [u|]; cbn; [|same_posts].
    destruct (find_post (CommentController.postId req) db) as [post|] eqn:Hpost;
      cbn; [|same_posts].
    destruct (CommentController.supplied (CommentController.parentId req))
      as [pid|]; cbn.
    + destruct (find_comment pid db) as [parent|]; cbn; [|same_posts].
      destruct (Comment.postId parent =? CommentController.postId req); cbn;
        [|same_posts].
      destruct (len_between 1 5000 (CommentController.content req)); cbn;
        [|same_posts].
      destruct (_ && _); cbn; same_posts.
    + destruct (len_between 1 5000 (CommentController.content req)); cbn;
        [|same_posts].
      destruct (_ && _); cbn; same_posts.
  - (* updateComment *)
    unfold run, CommentController.updateComment; cbn.
    destruct user as [u|]; cbn; [|same_posts].
    destruct (JS.parseInt id) as [n|]; cbn; [|same_posts].
    destruct (find_comment n db) as [c|]; cbn; [|same_posts].
    destruct (Comment.authorId c =? Http.id u); cbn; [|same_posts].
    destruct (changed_str (Comment.content c) content) as [s|]; cbn;
      [|same_posts].
    destruct (len_between 1 5000 s); cbn; same_posts.
  - (* deleteComment *)
    unfold run, CommentController.deleteComment; cbn.
    destruct user as [u|]; cbn; [|same_posts].
    destruct (JS.parseInt id) as [n|]; cbn; [|same_posts].
    destruct (find_comment n db) as [c|]; cbn; [|same_posts].
    destruct (Comment.authorId c =? Http.id u); cbn; same_posts.
  - (* getPosts *)
    rewrite getPosts_reads_only. same_posts.
  - (* getPostById *)
    unfold run, PostController.getPostById; cbn.
    destruct (JS.parseInt id) as [n|]; cbn; [|same_posts].
    destruct (find_post n db) as [p|] eqn:Hp; cbn; [|same_posts].
    destruct (Post.isPublished p); cbn; [|same_posts].
    unfold changes, changed_num; cbn.
    assert ((Post.viewCount p + 1 =? Post.viewCount p) = false) as ->
        by (apply Z.eqb_neq; lia).
    cbn.
    assert (Hgoal :
              posts_continue db
                (set_posts
                   (update_where (fun q => Post.id q =? Post.id p)
                      (apply_patch
                         (mkPostPatch None None None None
                                      (Some (Post.viewCount p + 1))) now)
                      (posts db)) db)).
    { split; [cbn; lia|].
      intros m p' Hfind _. unfold find_post in *; cbn in Hfind.
      rewrite (find_update_where Post.id) in Hfind by reflexivity.
      destruct (Z.eqb_spec m (Post.id p)) as [->|Hne].
      - rewrite (find_post_id _ _ _ Hp) in *. unfold find_post in Hp.
        rewrite Hp in Hfind. injection Hfind as <-.
        exists p. split; [exact Hp|]. repeat split. cbn. lia.
      - exists p'. split; [exact Hfind|apply later_version_refl]. }
    destruct user as [v|]; cbn; exact Hgoal.
  - (* createPost *)
    unfold run, PostController.createPost; cbn.
    destruct user as [u|]; cbn; [|same_posts].
    destruct (len_between 1 255 (PostController.title req)
              && len_between 1 50000 (PostController.content req)
              && valid_imageUrl isUrl (PostController.imageUrl req)); cbn;
      [|same_posts].
    destruct (find_user (Http.id u) db); cbn; [|same_posts].
    split; [cbn; lia|].
    intros m p' Hfind Hm. unfold find_post in *; cbn in Hfind.
    rewrite find_app in Hfind.
    destruct (find _ (posts db)) as [p|] eqn:Hp.
    + injection Hfind as <-. exists p. split;
        [reflexivity|apply later_version_refl].
    + cbn in Hfind. destruct (Z.eqb_spec (next_post_id db) m); [lia|].
      discriminate.
  - (* updatePost *)
    unfold run, PostController.updatePost; cbn.
    destruct user as [u|]; cbn; [|same_posts].
    destruct (JS.parseInt id) as [n|]; cbn; [|same_posts].
    destruct (find_post n db) as [p|]; cbn; [|same_posts].
    destruct (Post.authorId p =? Http.id u); cbn; [|same_posts].
    destruct (no_change _); cbn; [same_posts|].
    destruct (_ && _); cbn; [|same_posts].
    apply posts_continue_update. intros q. repeat split. cbn.
    unfold changed_num. lia.
  - (* deletePost *)
    unfold run, PostController.deletePost; cbn.
    destruct user as [u|]; cbn; [|same_posts].
    destruct (JS.parseInt id) as [n|]; cbn; [|same_posts].
    destruct (find_post n db) as [p|]; cbn; [|same_posts].
    destruct (Post.authorId p =? Http.id u); cbn; [|same_posts].
    split; [cbn; lia|].
    intros m p' Hfind _. unfold find_post in *; cbn in Hfind.
    destruct (Z.eq_dec m (Post.id p)) as [->|Hne].
    + now rewrite find_filter_same in Hfind.
    + rewrite find_filter_other in Hfind by exact Hne.
      exists p'. split; [exact Hfind|apply later_version_refl].
  - (* likePost *)
    unfold run, PostController.likePost; cbn.
    destruct user as [u|]; cbn; [|same_posts].
    destruct (JS.parseInt id) as [n|]; cbn; [|same_posts].
    destruct (find_post n db) as [p|] eqn:Hp; cbn; [|same_posts].
    destruct (find_like (Post.id p) (Http.id u) db) as [l|] eqn:Hl; cbn.
    + same_posts.
    + rewrite Hl; cbn.
      destruct (find_post (Post.id p) db); cbn; [|same_posts].
      destruct (find_user (Http.id u) db); cbn; same_posts.
Qed.

(** X7. Through any sequence of requests the sequence of post keys
    never goes back, and what is stored under a key that had been given
    out is a later state of the post that was stored under it: same
    author, same creation time, same publication, and views that are
    not fewer. So no request changes the author of a post or unpublishes
    it, and the key of a deleted post is not used again. *)
Theorem posts_keep_their_identity :
  forall (isUrl : string -> bool) (rs : list (Z * Request)) (db : Store),
    posts_continue db (serve_all isUrl rs db)
    /\ forall m,
        m < next_post_id db ->
        find_post m db = None ->
        find_post m (serve_all isUrl rs db) = None.
Proof.
  intros isUrl rs db.
  assert (H : posts_continue db (serve_all isUrl rs db)).
  { revert db. induction rs as [|[now r] rs IH]; intros db; cbn.
    - now apply posts_continue_same.
    - eapply posts_continue_trans; [|apply IH].
      apply controller_continues_posts. }
  split; [exact H|].
  intros m Hm Hnone.
  destruct (find_post m (serve_all isUrl rs db)) as [p'|] eqn:Hfind;
    [|reflexivity].
  destruct H as [_ H]. destruct (H m p' Hfind Hm) as (p & Hp & _).
  congruence.
Qed.

(** After a deletion and a creation on the example store, key 1 is still
    without a post and post 2 is the post it was. *)
Lemma posts_keep_their_identity_witness :
  find_post 1
    (serve_all any_url
       [(101, CreatePost (Some as_bob)
                (PostController.mkCreatePostRequest "New" "Text" None None
                                                    None))]
       (serve_all any_url [(100, DelPost (Some as_alice) "1")] demo))
  = None.
Proof.
  apply (proj2 (posts_keep_their_identity any_url
                  [(101, CreatePost (Some as_bob)
                           (PostController.mkCreatePostRequest
                              "New" "Text" None None None))]
                  (serve_all any_url [(100, DelPost (Some as_alice) "1")]
                             demo)) 1); reflexivity.
Defined.

(** X8. Views are counted by reading the counter and writing it back.
    When two requests for the same published post have both read it
    before either saves, both are answered 200 with the counter raised
    by one, and the stored counter is raised by one, not by two. *)
Theorem getPostById_concurrent_views_count_once :
  forall (isUrl : string -> bool) (v1 v2 : option AuthUser) (id : string)
         (n now1 now2 : Z) (p : Post.t) (db : Store),
    JS.parseInt id = Some n ->
    find_post n db = Some p ->
    Post.isPublished p = true ->
    let both :=
      interleave isUrl [true; false]
        (PostController.getPostById v1 id now1)
        (PostController.getPostById v2 id now2) db in
    (exists d1 d2,
        fst (fst both) = inr (mkResponse 200 (PostDetailBody d1))
        /\ snd (fst both) = inr (mkResponse 200 (PostDetailBody d2))
        /\ Post.viewCount (detail_post d1) = Post.viewCount p + 1
        /\ Post.viewCount (detail_post d2) = Post.viewCount p + 1)
    /\ exists p',
        find_post n (snd both) = Some p'
        /\ Post.viewCount p' = Post.viewCount p + 1.
Proof.
  intros isUrl v1 v2 id n now1 now2 p db Hid Hp Hpub.
  pose proof (find_post_id _ _ _ Hp) as Hkey.
  unfold PostController.getPostById; cbn.
  rewrite Hid; cbn. rewrite Hp; cbn. rewrite Hpub; cbn.
  unfold run, changes, changed_num; cbn.
  assert ((Post.viewCount p + 1 =? Post.viewCount p) = false) as ->
      by (apply Z.eqb_neq; lia).
  cbn.
  assert (Hsave : forall f l q,
             (forall x, Post.id (f x) = Post.id x) ->
             find (fun y => Post.id y =? n) l = Some q ->
             find (fun y => Post.id y =? n)
                  (map (fun x => if Post.id x =? Post.id p then f x else x) l)
             = Some (f q)).
  { intros f l q Hf Hq.
    pose proof (find_update_where Post.id f n n l Hf) as E.
    unfold update_where in E. now rewrite Hkey, E, Z.eqb_refl, Hq. }
  unfold find_post in Hp.
  destruct v1 as [u1|], v2 as [u2|]; cbn;
    (split;
     [eexists; eexists;
      (split; [reflexivity|split; [reflexivity|split; reflexivity]])|]);
    (eexists; split;
     [unfold find_post, update_where; cbn;
      apply Hsave; [reflexivity|apply Hsave; [reflexivity|exact Hp]]
     |reflexivity]).
Qed.

(** Alice and Bob open post 2 of the example store at the same time. *)
Lemma getPostById_concurrent_views_count_once_witness :
  exists p',
    find_post 2
      (snd (interleave any_url [true; false]
              (PostController.getPostById (Some as_alice) "2" 100)
              (PostController.getPostById (Some as_bob) "2" 101) demo))
    = Some p'
    /\ Post.viewCount p' = Post.viewCount (demo_post 2 1 true 20) + 1.
Proof.
  exact (proj2 (getPostById_concurrent_views_count_once any_url
                  (Some as_alice) (Some as_bob) "2" 2 100 101
                  (demo_post 2 1 true 20) demo eq_refl eq_refl eq_refl)).
Defined.

(** *** Creating a post and reading it back *)

Lemma keyed_fresh {A} (key : A -> Z) next l :
  keyed key next l -> find (fun y => key y =? next) l = None.
Proof.
  intros (_ & _ & Hrange).
  destruct (find _ l) as [x|] eqn:Hx; [|reflexivity].
  destruct (find_some_id key next l x Hx) as [Hkey Hin].
  specialize (Hrange x Hin). lia.
Qed.

Lemma filter_none {A} (f : A -> bool) (l : list A) :
  (forall x, In x l -> f x = false) -> filter f l = [].
Proof.
  intros Hf. induction l as [|x l IH]; cbn; [reflexivity|].
  rewrite (Hf x) by now left. apply IH. intros y Hy. apply Hf. now right.
Qed.





(** *** What a listing shows *)

Lemma listing_call_returns isUrl q db count rows :
  fst (exec isUrl (listing_call q) db) = inr (count, rows) ->
  exists col lim off,
    post_column (default "createdAt" (PostController.sortBy q)) = Some col
    /\ limitNumber q = Some lim /\ offsetNumber q = Some off
    /\ 0 <= lim /\ 0 <= off
    /\ count = joined_total q db
    /\ rows
       = map (join_post db)
           (firstn (Z.to_nat lim)
              (skipn (Z.to_nat off)
                 (sort_by
                    (order_leb (post_value col)
                       (default DESC (PostController.sortOrder q)))
                    (selected q db)))).
Proof.
  unfold exec, listing_call, joined_total, selected.
  destruct (w_tags (PostController.whereClause q)); [discriminate|].
  destruct (w_authorId (PostController.whereClause q)) as [[a|]|];
    try discriminate;
    (destruct (post_column _) as [col|]; [|discriminate]);
    (destruct (window _ _ _) as [page|] eqn:Hwindow; [|discriminate]);
    cbn; intros [= <- <-];
    destruct (window_granted _ _ _ _ Hwindow)
      as (lim & off & Hlim & Hoff & Hlim0 & Hoff0 & ->);
    exists col, lim, off; repeat split; auto.
Qed.

Lemma by_post_createdAt_DESC_sorted l :
  posts_newest_first (sort_by (order_leb (post_value PcreatedAt) DESC) l).
Proof.
  unfold posts_newest_first.
  eapply StronglySorted_ind
    with (P := fun l => StronglySorted
                          (fun a b => Post.createdAt b <= Post.createdAt a) l)
         (R := fun a b => order_leb (post_value PcreatedAt) DESC a b = true).
  - constructor.
  - intros a l' _ IH Hall. constructor; [exact IH|].
    rewrite Forall_forall in *. intros b Hb.
    specialize (Hall b Hb). now apply Z.leb_le in Hall.
  - apply sort_by_StronglySorted; cbn.
    + intros a b. rewrite !Z.leb_le. lia.
    + intros a b c. rewrite !Z.leb_le. lia.
Qed.

Lemma in_page {A} (n k : nat) (l : list A) x :
  In x (firstn n (skipn k l)) -> In x l.
Proof.
  intros Hx. rewrite <- (firstn_skipn k l). apply in_or_app. right.
  rewrite <- (firstn_skipn n (skipn k l)). apply in_or_app. now left.
Qed.

Lemma map_post_of_counted viewer db rows :
  map post_of (map (counted viewer db) rows) = map row_post rows.
Proof. rewrite map_map. reflexivity. Qed.

Lemma map_row_post db l : map row_post (map (join_post db) l) = l.
Proof. rewrite map_map. cbn. apply map_id. Qed.

(** The rows of a join are at least one for each row joined. *)
Lemma joined_total_least db l :
  Z.of_nat (List.length l) <= total (map (post_join_rows db) l).
Proof.
  unfold total. induction l as [|p l IH]; [reflexivity|].
  cbn [map fold_right List.length]. unfold post_join_rows at 1, joined.
  nia.
Qed.

Lemma joined_total_single db l :
  (forall p,
      In p l ->
      count_comments (Post.id p) db <= 1 /\ count_likes (Post.id p) db <= 1) ->
  total (map (post_join_rows db) l) = Z.of_nat (List.length l).
Proof.
  unfold total. induction l as [|p l IH]; intros Hone; [reflexivity|].
  cbn [map fold_right List.length]. rewrite IH by (intros; apply Hone; now right).
  destruct (Hone p (or_introl eq_refl)) as [Hc Hl].
  unfold post_join_rows, joined. lia.
Qed.

(** X10. What a listing answered 200 shows. Every element is a stored
    post that is published and matches the query, joined with its
    author, comments and likes; its [commentCount] and [likeCount] are
    the numbers of comments and likes stored for it, and [isLiked] says
    whether the reader has a like on it. With neither [sortBy] nor
    [sortOrder] in the query the page is newest first. [totalItems],
    whatever the page, is the number of rows of the join of the
    selected posts with their comments and likes: a post counts once
    for every pair of a comment and a like it has. So it is at least the
    number of posts selected, and it is that number when no selected
    post has more than one comment or more than one like. *)
Theorem getPosts_shows_published_with_counts :
  forall (isUrl : string -> bool) (viewer : option AuthUser)
         (q : PostController.PostQuery) (db : Store)
         (items : list PostItem) (pgn : Pagination),
    result (run isUrl (PostController.getPosts viewer q) db)
    = inr (mkResponse 200 (PostsBody items pgn)) ->
    (forall it,
        In it items ->
        In (post_of it) (posts db)
        /\ Post.isPublished (post_of it) = true
        /\ matches (PostController.whereClause q) (post_of it) = true
        /\ item it = join_post db (post_of it)
        /\ commentCount it = count_comments (Post.id (post_of it)) db
        /\ likeCount it = count_likes (Post.id (post_of it)) db
        /\ isLiked it
           = match viewer with
             | Some v =>
                 is_some (find_like (Post.id (post_of it)) (Http.id v) db)
             | None => false
             end)
    /\ (PostController.sortBy q = None ->
        PostController.sortOrder q = None ->
        posts_newest_first (map post_of items))
    /\ totalItems pgn = joined_total q db
    /\ Z.of_nat (List.length (selected q db)) <= totalItems pgn
    /\ ((forall p,
            In p (selected q db) ->
            count_comments (Post.id p) db <= 1
            /\ count_likes (Post.id p) db <= 1) ->
        totalItems pgn = Z.of_nat (List.length (selected q db))).
Proof.
  intros isUrl viewer q db items pgn. rewrite getPosts_run.
  pose proof (listing_call_reads isUrl q db) as Hreads.
  pose proof (listing_call_returns isUrl q db) as Hreturns.
  destruct (exec isUrl (listing_call q) db) as [[e|[count rows]] db'];
    cbn in *; [discriminate|].
  subst db'. intros [= <- <-].
  destruct (Hreturns count rows eq_refl)
    as (col & lim & off & Hcol & Hlim & Hoff & Hlim0 & Hoff0 & -> & ->).
  split; [|split; [|split; [|split]]].
  - intros it Hit. apply in_map_iff in Hit. destruct Hit as (row & <- & Hrow).
    apply in_map_iff in Hrow. destruct Hrow as (p & <- & Hp).
    apply in_page, sort_by_In, filter_In in Hp. destruct Hp as [Hin Hmatch].
    apply scan_posts_In in Hin.
    cbn. split; [exact Hin|]. split.
    + unfold matches in Hmatch.
      apply andb_prop in Hmatch. destruct Hmatch as [Hmatch _].
      apply andb_prop in Hmatch. now destruct Hmatch.
    + split; [exact Hmatch|]. repeat split.
  - intros HsortBy HsortOrder.
    rewrite HsortBy in Hcol. cbn in Hcol. injection Hcol as <-.
    rewrite HsortOrder. cbn [default].
    rewrite map_post_of_counted, map_row_post.
    apply StronglySorted_firstn, StronglySorted_skipn,
      by_post_createdAt_DESC_sorted.
  - reflexivity.
  - apply joined_total_least.
  - apply joined_total_single.
Qed.

(** The example store read by Alice: three published posts, the draft
    not among them, and a total of 6, post 1 having four comments. *)
Lemma getPosts_shows_published_with_counts_witness :
  exists items pgn,
    result (run any_url
                (PostController.getPosts (Some as_alice)
                                         (listing None None None)) demo)
    = inr (mkResponse 200 (PostsBody items pgn))
    /\ (forall it, In it items -> Post.isPublished (post_of it) = true)
    /\ posts_newest_first (map post_of items)
    /\ totalItems pgn = 6
    /\ 3 <= totalItems pgn.
Proof.
  eexists. eexists. split; [reflexivity|].
  pose proof (getPosts_shows_published_with_counts any_url (Some as_alice)
                (listing None None None) demo _ _ eq_refl)
    as (Hitems & Hsorted & Htotal & Hleast & _).
  split; [|split; [|split]].
  - intros it Hit. exact (proj1 (proj2 (Hitems it Hit))).
  - exact (Hsorted eq_refl eq_refl).
  - exact Htotal.
  - exact Hleast.
Defined.

(** *** Pages *)

Lemma ceil_div_pos total lim :
  0 < lim -> JS.ceil_div total lim = JS.Fin ((total + lim - 1) / lim).
Proof.
  intros Hlim. unfold JS.ceil_div.
  destruct (Z.eqb_spec lim 0) as [|_]; [lia|]. f_equal.
  pose proof (Z.div_mod (- total) lim ltac:(lia)) as H1.
  pose proof (Z.mod_pos_bound (- total) lim Hlim) as H2.
  pose proof (Z.div_mod (total + lim - 1) lim ltac:(lia)) as H3.
  pose proof (Z.mod_pos_bound (total + lim - 1) lim Hlim) as H4.
  nia.
Qed.

Lemma more_pages pg total lim :
  0 < lim -> (pg <? (total + lim - 1) / lim) = true <-> pg * lim < total.
Proof.
  intros Hlim. rewrite Z.ltb_lt.
  pose proof (Z.div_mod (total + lim - 1) lim ltac:(lia)) as H3.
  pose proof (Z.mod_pos_bound (total + lim - 1) lim Hlim) as H4.
  split; intros H; nia.
Qed.

(** X11. The paging of a listing answered 200, for a limit above zero
    and a product of page and limit below [2^53]. The page number is at
    least 1. The page holds the selected posts from position
    [(page - 1) * limit] on, as many as the limit allows and the
    selection still has. [totalPages] is [totalItems] divided by the
    limit, rounded up, and [hasNextPage] says whether [page * limit] is
    below [totalItems], which is the number of rows of the join and not
    that of the posts selected; [hasPrevPage] says whether the page is
    not the first. *)
Theorem getPosts_pages :
  forall (isUrl : string -> bool) (viewer : option AuthUser)
         (q : PostController.PostQuery) (db : Store)
         (items : list PostItem) (pgn : Pagination) (pg lim : Z),
    result (run isUrl (PostController.getPosts viewer q) db)
    = inr (mkResponse 200 (PostsBody items pgn)) ->
    pageNumber q = Some pg ->
    limitNumber q = Some lim ->
    0 < lim ->
    pg * lim < 2 ^ 53 ->
    let hits := Z.of_nat (List.length (selected q db)) in
    let total := joined_total q db in
    1 <= pg
    /\ Z.of_nat (List.length items)
       = Z.min lim (Z.max 0 (hits - (pg - 1) * lim))
    /\ currentPage pgn = Some pg
    /\ totalItems pgn = total
    /\ totalPages pgn = JS.Fin ((total + lim - 1) / lim)
    /\ (hasNextPage pgn = true <-> pg * lim < total)
    /\ (hasPrevPage pgn = true <-> 1 < pg).
Proof.
  intros isUrl viewer q db items pgn pg lim. rewrite getPosts_run.
  pose proof (listing_call_reads isUrl q db) as Hreads.
  pose proof (listing_call_returns isUrl q db) as Hreturns.
  destruct (exec isUrl (listing_call q) db) as [[e|[count rows]] db'];
    cbn in *; [discriminate|].
  subst db'. intros [= <- <-] Hpg Hlim Hpos Hsmall.
  destruct (Hreturns count rows eq_refl)
    as (col & lim' & off & Hcol & Hlim' & Hoff & Hlim0 & Hoff0 & -> & ->).
  rewrite Hlim in Hlim'. injection Hlim' as <-.
  assert (Hfirst : 1 <= pg).
  { unfold offsetNumber, num_mul, num_sub in Hoff. rewrite Hpg, Hlim in Hoff.
    destruct (JS.to_number (pg - 1)) as [x|] eqn:Hx; [|discriminate].
    apply to_number_sgn in Hx. apply to_number_sgn in Hoff.
    destruct (Z.lt_ge_cases pg 1) as [Hneg|]; [exfalso|assumption].
    rewrite (Z.sgn_neg (pg - 1)) in Hx by lia.
    apply Z.sgn_neg_iff in Hx.
    assert (x * lim < 0) by nia.
    rewrite (Z.sgn_neg (x * lim)) in Hoff by assumption.
    apply Z.sgn_neg_iff in Hoff. lia. }
  assert (Hexact : off = (pg - 1) * lim).
  { unfold offsetNumber, num_mul, num_sub in Hoff. rewrite Hpg, Hlim in Hoff.
    rewrite to_number_exact in Hoff by nia.
    rewrite to_number_exact in Hoff by nia. congruence. }
  subst off.
  rewrite Hpg, Hlim. unfold pagination; cbn.
  rewrite (ceil_div_pos _ _ Hpos). cbn.
  split; [exact Hfirst|]. split.
  - rewrite !length_map, length_firstn, length_skipn, sort_by_length. lia.
  - split; [reflexivity|]. split; [reflexivity|]. split; [reflexivity|].
    split; [now apply more_pages|]. apply Z.ltb_lt.
Qed.

(** The example store, one post to the page: page 2 holds one of the
    three posts, and is page 2 of 6. *)
Lemma getPosts_pages_witness :
  exists items pgn,
    result (run any_url
                (PostController.getPosts None
                   (listing (Some "2") (Some "1") None)) demo)
    = inr (mkResponse 200 (PostsBody items pgn))
    /\ Z.of_nat (List.length items) = 1
    /\ totalPages pgn = JS.Fin 6
    /\ (hasNextPage pgn = true <-> 2 * 1 < 6).
Proof.
  eexists. eexists. split; [reflexivity|].
  pose proof (getPosts_pages any_url None
                (listing (Some "2") (Some "1") None) demo _ _ 2 1
                eq_refl eq_refl eq_refl eq_refl eq_refl)
    as (_ & Hlen & _ & _ & Hpages & Hnext & _).
  split; [exact Hlen|]. split; [exact Hpages|exact Hnext].
Defined.

(** *** Searching *)

Lemma chars_append (a b : string) :
  JS.chars (a ++ b) = (JS.chars a ++ JS.chars b)%list.
Proof.
  unfold JS.chars. induction a as [|c a IH]; cbn; [reflexivity|].
  now rewrite IH.
Qed.

(** [%] at the head of a pattern: the rest matches some suffix. *)
Lemma like_any (p s : list ascii) :
  like ("%"%char :: p) s = true <-> exists k, like p (skipn k s) = true.
Proof.
  induction s as [|c s IH].
  - cbn. rewrite orb_false_r. split.
    + intros H. now exists 0%nat.
    + intros [k H]. now rewrite skipn_nil in H.
  - change (like ("%"%char :: p) (c :: s))
      with (like p (c :: s) || like ("%"%char :: p) s).
    rewrite orb_true_iff, IH. split.
    + intros [H|[k H]]; [now exists 0%nat|now exists (S k)].
    + intros [[|k] H]; [now left|right; now exists k].
Qed.

(** A literal character at the head of a pattern matches itself. *)
Lemma like_literal (c : ascii) (p s : list ascii) :
  literal c = true ->
  like (c :: p) s
  = match s with
    | [] => false
    | d :: s' => Ascii.eqb c d && like p s'
    end.
Proof.
  destruct c as [[] [] [] [] [] [] [] []]; intros H;
    try discriminate H; reflexivity.
Qed.

Lemma like_prefix (l s : list ascii) :
  forallb literal l = true ->
  like (l ++ ["%"%char]) s = true <-> exists rest, s = (l ++ rest)%list.
Proof.
  intros Hl. revert s. induction l as [|c l IH]; intros s.
  - cbn [app]. rewrite like_any. split.
    + intros _. now exists s.
    + intros _. exists (List.length s). rewrite skipn_all. reflexivity.
  - cbn in Hl. apply andb_prop in Hl. destruct Hl as [Hc Hl].
    cbn [app]. rewrite (like_literal c _ _ Hc).
    destruct s as [|d s].
    + split; [discriminate|]. intros [rest H]. discriminate.
    + rewrite andb_true_iff, (IH Hl). split.
      * intros [Heq [rest ->]]. apply Ascii.eqb_eq in Heq. subst d.
        now exists rest.
      * intros [rest H]. injection H as <- ->.
        split; [apply Ascii.eqb_refl|now exists rest].
Qed.

Lemma lower_literal c : literal c = true -> literal (JS.lower c) = true.
Proof.
  destruct c as [[] [] [] [] [] [] [] []]; intros H;
    try discriminate H; reflexivity.
Qed.

Lemma caseless_plain s :
  plain s = true -> forallb literal (caseless s) = true.
Proof.
  unfold plain, caseless. induction (JS.chars s) as [|c l IH]; cbn;
    [reflexivity|].
  intros H. apply andb_prop in H. destruct H as [Hc Hl].
  now rewrite (lower_literal c Hc), IH.
Qed.

(** The pattern [%s%] of a term without pattern characters matches the
    strings the term occurs in, case apart. *)
Lemma ilike_plain s t :
  plain s = true ->
  ilike ("%" ++ s ++ "%") t = true <-> occurs_in (caseless s) (caseless t).
Proof.
  intros Hs. unfold ilike.
  change (JS.chars ("%" ++ s ++ "%"))
    with ("%"%char :: JS.chars (s ++ "%")).
  rewrite chars_append. cbn [map]. rewrite map_app.
  change (JS.lower "%") with "%"%char.
  change (map JS.lower (JS.chars "%")) with ["%"%char].
  fold (caseless s) (caseless t).
  rewrite like_any. split.
  - intros [k H]. apply like_prefix in H; [|now apply caseless_plain].
    destruct H as [rest H]. exists (firstn k (caseless t)), rest.
    rewrite <- H. symmetry. apply firstn_skipn.
  - intros (before & rest & H). exists (List.length before).
    apply like_prefix; [now apply caseless_plain|].
    exists rest. rewrite H, skipn_app, skipn_all, Nat.sub_diag. reflexivity.
Qed.

(** X12. Searching. A listing that searches for a term without the
    characters [%], [_] and backslash selects the published posts in
    whose title or content the term occurs, upper and lower case taken
    as the same. *)
Theorem search_finds_occurrences :
  forall (s : string) (p : Post.t),
    plain s = true ->
    matches (searching s) p = true
    <-> Post.isPublished p = true
        /\ (occurs_in (caseless s) (caseless (Post.title p))
            \/ occurs_in (caseless s) (caseless (Post.content p))).
Proof.
  intros s p Hs. unfold matches, searching; cbn [w_search w_authorId].
  rewrite andb_true_r, andb_true_iff, orb_true_iff.
  now rewrite !(ilike_plain s _ Hs).
Qed.

(** [TITLE] is found in the title of the posts of the example store. *)
Lemma search_finds_occurrences_witness :
  matches (searching "TITLE") (demo_post 1 1 true 10) = true.
Proof.
  apply (search_finds_occurrences "TITLE" (demo_post 1 1 true 10) eq_refl).
  split; [reflexivity|]. left.
  exists (caseless "A "), []. reflexivity.
Defined.

(** X13. The pattern characters of a search term keep their meaning:
    a search for [%] selects every published post, and a search for [_]
    every published post whose title or content is not empty, whether
    or not these characters occur in them. *)
Theorem search_term_is_a_pattern :
  forall p : Post.t,
    Post.isPublished p = true ->
    matches (searching "%") p = true
    /\ (matches (searching "_") p = true
        <-> Post.title p <> "" \/ Post.content p <> "").
Proof.
  intros p Hpub. unfold matches, searching; cbn [w_search w_authorId].
  rewrite Hpub, !andb_true_r, !andb_true_l.
  change ("%" ++ "%" ++ "%")%string with "%%%".
  change ("%" ++ "_" ++ "%")%string with "%_%".
  assert (Hall : forall t, ilike "%%%" t = true).
  { intros t. unfold ilike.
    change (map JS.lower (JS.chars "%%%")) with ("%"%char :: ["%"%char; "%"%char]).
    apply like_any. exists 0%nat. apply like_any. exists 0%nat.
    apply like_any. exists (List.length (caseless t)).
    unfold caseless. now rewrite skipn_all. }
  assert (Hone : forall t, ilike "%_%" t = true <-> t <> "").
  { intros t. unfold ilike.
    change (map JS.lower (JS.chars "%_%"))
      with ("%"%char :: "_"%char :: ["%"%char]).
    rewrite like_any. destruct t as [|c t].
    - split; [|congruence]. intros [k H]. rewrite skipn_nil in H.
      discriminate.
    - split; [congruence|]. intros _. exists 0%nat.
      change (like ["%"%char] (map JS.lower (JS.chars t)) = true).
      apply like_any. exists (List.length (map JS.lower (JS.chars t))).
      now rewrite skipn_all. }
  rewrite (Hall (Post.title p)). split; [reflexivity|].
  rewrite orb_true_iff. now rewrite !Hone.
Qed.

(** No [%] in the posts of the example store; all three published ones
    are found. *)
Lemma search_term_is_a_pattern_witness :
  matches (searching "%") (demo_post 1 1 true 10) = true
  /\ plain "%" = false.
Proof.
  split; [|reflexivity].
  exact (proj1 (search_term_is_a_pattern (demo_post 1 1 true 10) eq_refl)).
Defined.

(** *** Through the routers *)

Section ThroughRouters.
Variable isUrl : string -> bool.
Variable isUri : string -> bool.
Variable verify : string -> option Auth.JWTPayload.

(** The two middlewares agree on who the request is from. *)
Lemma authenticateToken_optionalAuth authorization db :
  match Auth.optionalAuth verify authorization db with
  | Some user => Auth.authenticateToken verify authorization db = inr user
  | None =>
      exists r,
        Auth.authenticateToken verify authorization db = inl r
        /\ status r = 401
  end.
Proof.
  unfold Auth.optionalAuth, Auth.authenticateToken.
  destruct (PostController.when_truthy _) as [token|];
    [|eexists; split; reflexivity].
  destruct (verify token) as [decoded|]; [|eexists; split; reflexivity].
  destruct (find_user _ db) as [user|]; [|eexists; split; reflexivity].
  destruct (User.isActive user); [reflexivity|].
  eexists; split; reflexivity.
Qed.


End ThroughRouters.

(** X14. No route behind [authenticateToken] reaches its controller
    without a user: when the [Authorization] header carries no token,
    or one that does not verify, or one of a user that is not stored or
    not active, the answer is 401 and the store is left as it was. On
    the three public routes such a header is served as no header is. *)
Theorem routes_need_a_stored_active_user :
  forall (isUrl isUri : string -> bool)
         (verify : string -> option Auth.JWTPayload)
         (authorization : option string) (now : Z) (rt : Routes.Route)
         (db : Store),
    Auth.optionalAuth verify authorization db = None ->
    let s := Routes.serve isUrl isUri verify authorization now rt db in
    if Routes.protected rt
    then served_status s = Some Unauthenticated /\ snd s = db
    else s = Routes.serve isUrl isUri verify None now rt db.
Proof.
  intros isUrl isUri verify authorization now rt db Hnone.
  pose proof (authenticateToken_optionalAuth verify authorization db) as Hauth.
  rewrite Hnone in Hauth. destruct Hauth as (r & Hauth & Hstatus).
  destruct rt; cbn; unfold Routes.authenticated;
    rewrite ?Hauth, ?Hnone; cbn; try reflexivity;
    unfold served_status; cbn; rewrite Hstatus; split; reflexivity.
Qed.

(** No header, a token that does not verify, and the token of a user
    who is not stored. *)
Lemma routes_need_a_stored_active_user_witness :
  (let s := Routes.serve any_url any_url demo_verify None 100
              (Routes.DELETE_posts_id "1") demo in
   served_status s = Some Unauthenticated /\ snd s = demo)
  /\ (let s := Routes.serve any_url any_url demo_verify
                 (Some "Bearer forged") 100 (Routes.POST_posts_id_like "1")
                 demo in
      served_status s = Some Unauthenticated /\ snd s = demo)
  /\ Routes.serve any_url any_url demo_verify (Some "Bearer token-7") 100
       (Routes.GET_posts_id "1") demo
     = Routes.serve any_url any_url demo_verify None 100
         (Routes.GET_posts_id "1") demo.
Proof.
  split; [|split].
  - exact (routes_need_a_stored_active_user any_url any_url demo_verify None
             100 (Routes.DELETE_posts_id "1") demo eq_refl).
  - exact (routes_need_a_stored_active_user any_url any_url demo_verify
             (Some "Bearer forged") 100 (Routes.POST_posts_id_like "1") demo
             eq_refl).
  - exact (routes_need_a_stored_active_user any_url any_url demo_verify
             (Some "Bearer token-7") 100 (Routes.GET_posts_id "1") demo
             eq_refl).
Defined.










(** *** The token in the header *)

Lemma split_on_spaceless sep cur l :
  forallb (fun c => negb (Ascii.eqb c sep)) l = true ->
  JS.split_on sep cur l = [JS.of_chars (rev cur ++ l)].
Proof.
  revert cur. induction l as [|c l IH]; intros cur Hl; cbn.
  - now rewrite app_nil_r.
  - cbn in Hl. apply andb_prop in Hl. destruct Hl as [Hc Hl].
    apply negb_true_iff in Hc. rewrite Hc, (IH _ Hl). cbn.
    now rewrite <- app_assoc.
Qed.

Lemma split_on_first sep cur l rest :
  forallb (fun c => negb (Ascii.eqb c sep)) l = true ->
  JS.split_on sep cur (l ++ sep :: rest)
  = JS.of_chars (rev cur ++ l) :: JS.split_on sep [] rest.
Proof.
  revert cur. induction l as [|c l IH]; intros cur Hl; cbn.
  - now rewrite Ascii.eqb_refl, app_nil_r.
  - cbn in Hl. apply andb_prop in Hl. destruct Hl as [Hc Hl].
    apply negb_true_iff in Hc. rewrite Hc, (IH _ Hl). cbn.
    now rewrite <- app_assoc.
Qed.

Lemma of_chars_chars s : JS.of_chars (JS.chars s) = s.
Proof. apply string_of_list_ascii_of_string. Qed.

(** The token the middleware takes from the header the client sets. *)
Lemma token_of_header t :
  t <> "" ->
  spaceless t = true ->
  PostController.when_truthy
    (Auth.token_of (Auth.authorization_header (Some t))) = Some t
  /\ forall rest,
      Auth.token_of
        (Auth.authorization_header (Some (t ++ " " ++ rest)%string))
      = Some t.
Proof.
  intros Hne Ht.
  assert (Htruthy : forall s, JS.truthy_string (t ++ s) = true)
    by (destruct t; [congruence|reflexivity]).
  assert (Hhead : forall s,
             JS.split " "%char ("Bearer " ++ s)
             = "Bearer" :: JS.split_on " "%char [] (JS.chars s)).
  { intros s. unfold JS.split.
    change (JS.chars ("Bearer " ++ s))
      with (JS.chars "Bearer" ++ " "%char :: JS.chars s)%list.
    now rewrite split_on_first. }
  split.
  - unfold Auth.authorization_header, PostController.when_truthy.
    assert (Htrue : JS.truthy_string t = true)
      by (destruct t; [congruence|reflexivity]).
    rewrite Htrue. cbn [Auth.token_of]. rewrite Hhead.
    rewrite (split_on_spaceless _ _ _ Ht). cbn.
    now rewrite of_chars_chars, Htrue.
  - intros rest. unfold Auth.authorization_header, PostController.when_truthy.
    rewrite Htruthy. cbn [Auth.token_of]. rewrite Hhead.
    rewrite !chars_append.
    change (JS.chars " " ++ JS.chars rest)%list
      with (" "%char :: JS.chars rest).
    rewrite (split_on_first _ _ _ _ Ht). cbn.
    now rewrite of_chars_chars.
Qed.

(** X17. The header the client sets for its stored token and the token
    the middleware takes from a header fit: a token that is not empty
    and has no space in it comes out as it went in. Of a token with a
    space the middleware takes what is before the space. *)
Theorem bearer_token_round_trip :
  forall t : string,
    t <> "" ->
    spaceless t = true ->
    PostController.when_truthy
      (Auth.token_of (Auth.authorization_header (Some t))) = Some t
    /\ forall rest,
        Auth.token_of
          (Auth.authorization_header (Some (t ++ " " ++ rest)%string))
        = Some t.
Proof. exact token_of_header. Qed.

Lemma bearer_token_round_trip_witness :
  PostController.when_truthy
    (Auth.token_of (Auth.authorization_header (Some "token-1")))
  = Some "token-1".
Proof.
  apply (bearer_token_round_trip "token-1"); [discriminate|reflexivity].
Defined.

(** *** Accounts *)

Section Accounts.
Variable isEmail : string -> bool.
Variable hash : string -> Z -> string.
Variable compare : string -> string -> bool.
Variable sign : Auth.JWTPayload -> Z -> string.

Lemma find_existsb {A} (f : A -> bool) (l : list A) :
  existsb f l = match find f l with Some _ => true | None => false end.
Proof.
  induction l as [|x l IH]; cbn; [reflexivity|].
  destruct (f x); [reflexivity|exact IH].
Qed.

(** What [register] does, by the account that is in its way. *)
Lemma register_run req salt now s :
  AuthController.register isEmail hash sign req salt now s
  = match find (AuthController.email_or_username
                  (AuthController.email req) (AuthController.username req))
               (users (AuthController.db s)) with
    | Some _ =>
        (inr (AuthController.mkResponse 409
                (AuthController.Error
                   "User already exists with this email or username")), s)
    | None =>
        if registrable isEmail hash req salt
        then
          (inr (AuthController.mkResponse 201
                  (AuthController.Session "User created successfully"
                     (AuthController.toJSON (new_account hash req salt now s))
                     (AuthController.generateToken sign
                        (new_account hash req salt now s) now))),
           AuthController.bump_user_id
             (AuthController.set_users
                (users (AuthController.db s)
                 ++ [new_account hash req salt now s]) s))
        else
          (inr (AuthController.mkResponse 500
                  (AuthController.Error "Internal server error")), s)
    end.
Proof.
  unfold AuthController.register, AuthController.try_catch,
    AuthController.bind, AuthController.findOne_email_or_username,
    AuthController.create, registrable, new_account.
  destruct (find _ _) as [u|] eqn:Hfind; [reflexivity|].
  rewrite find_existsb, Hfind.
  destruct (len_between 3 50 (AuthController.username req)) eqn:Hlen;
    [|reflexivity].
  assert (Hfits : AuthController.fits 50 (AuthController.username req)
                  = true).
  { unfold len_between in Hlen. apply andb_prop in Hlen.
    exact (proj2 Hlen). }
  rewrite Hfits.
  destruct (AuthController.username_pattern _); [|reflexivity].
  destruct (isEmail _); [|reflexivity].
  destruct (len_between 6 255 (AuthController.password req)) eqn:Hpw;
    [|reflexivity].
  assert (Htruthy : JS.truthy_string (AuthController.password req) = true).
  { unfold len_between in Hpw. apply andb_prop in Hpw.
    destruct Hpw as [Hpw _]. apply Z.leb_le in Hpw.
    destruct (AuthController.password req); [cbn in Hpw; lia|reflexivity]. }
  rewrite Htruthy. cbn.
  destruct (AuthController.fits 255 (AuthController.email req));
    [|reflexivity].
  destruct (AuthController.fits 255 _); [|reflexivity].
  destruct (AuthController.fits_opt 100 (AuthController.firstName req));
    [|reflexivity].
  destruct (AuthController.fits_opt 100 (AuthController.lastName req));
    reflexivity.
Qed.

Lemma login_run req now s :
  AuthController.login compare sign req now s
  = match find (fun u => String.eqb (User.email u)
                                    (AuthController.l_email req))
               (users (AuthController.db s)) with
    | Some user =>
        if User.isActive user
           && compare (AuthController.l_password req) (User.password user)
        then
          AuthController.bind (AuthController.save_lastLogin user now)
            (fun user =>
               AuthController.json 200
                 (AuthController.Session "Login successful"
                    (AuthController.toJSON user)
                    (AuthController.generateToken sign user now))) s
        else
          (inr (AuthController.mkResponse 401
                  (AuthController.Error "Invalid credentials")), s)
    | None =>
        (inr (AuthController.mkResponse 401
                (AuthController.Error "Invalid credentials")), s)
    end.
Proof.
  unfold AuthController.login, AuthController.try_catch,
    AuthController.findOne_email.
  unfold AuthController.bind at 1.
  destruct (find _ _) as [user|]; [|reflexivity].
  destruct (User.isActive user); cbn; [|reflexivity].
  destruct (compare _ _); cbn; [|reflexivity].
  unfold AuthController.bind, AuthController.save_lastLogin.
  destruct (match User.lastLogin user with
            | Some t => t =? now
            | None => false
            end); reflexivity.
Qed.

(** Rewriting rows without touching key, username or email. *)
Lemma accounts_distinct_update (f : User.t -> User.t) sel s :
  (forall u, same_account u (f u)) ->
  accounts_distinct s ->
  accounts_distinct
    (AuthController.set_users
       (update_where sel f (users (AuthController.db s))) s).
Proof.
  intros Hf (He & Hu & Hk).
  assert (Hmap : forall (B : Type) (g : User.t -> B),
             (forall u, g (f u) = g u) ->
             map g (update_where sel f (users (AuthController.db s)))
             = map g (users (AuthController.db s))).
  { intros B g Hg. unfold update_where. rewrite map_map.
    apply map_ext. intros u. destruct (sel u); [apply Hg|reflexivity]. }
  split; [|split]; cbn.
  - rewrite Hmap; [exact He|]. intros u. apply (Hf u).
  - rewrite Hmap; [exact Hu|]. intros u. apply (Hf u).
  - apply keyed_update; [|exact Hk]. intros u. apply (Hf u).
Qed.

Lemma same_account_lastLogin at_ now u :
  same_account u (AuthController.with_lastLogin at_ now u).
Proof. repeat split. Qed.

Lemma same_account_profile f l a now u :
  same_account u (AuthController.with_profile f l a now u).
Proof. repeat split. Qed.

(** A profile update writes the row of the user, or nothing. *)
Lemma update_profile_writes user b now s :
  snd (AuthController.update_profile user b now s) = s
  \/ (fst (AuthController.update_profile user b now s)
      = inr (AuthController.with_profile
               (AuthController.p_firstName b) (AuthController.p_lastName b)
               (AuthController.p_avatar b) now user)
      /\ snd (AuthController.update_profile user b now s)
         = AuthController.set_users
             (update_where (fun w => User.id w =? User.id user)
                (AuthController.with_profile
                   (AuthController.p_firstName b)
                   (AuthController.p_lastName b)
                   (AuthController.p_avatar b) now)
                (users (AuthController.db s))) s).
Proof.
  unfold AuthController.update_profile.
  repeat match goal with
         | |- context [changed_opt_str ?c ?x] =>
             destruct (changed_opt_str c x)
         end;
    try (left; reflexivity);
    destruct (negb _); try (left; reflexivity); right; split; reflexivity.
Qed.

Lemma controller_keeps_accounts now r s :
  accounts_distinct s ->
  accounts_distinct
    (snd (account_controller isEmail hash compare sign now r s)).
Proof.
  intros Hok. destruct r as [req salt|req|user|user b]; cbn.
  - (* register *)
    rewrite register_run.
    destruct (find _ _) as [u|] eqn:Hfind; [exact Hok|].
    destruct (registrable isEmail hash req salt); cbn; [|exact Hok].
    destruct Hok as (He & Hu & Hk).
    assert (Hfree : forall u,
               In u (users (AuthController.db s)) ->
               User.email u <> AuthController.email req
               /\ User.username u <> AuthController.username req).
    { intros u Hin. pose proof (find_none _ _ Hfind u Hin) as Hnone.
      unfold AuthController.email_or_username in Hnone.
      apply orb_false_iff in Hnone. destruct Hnone as [H1 H2].
      split; intros Heq; rewrite Heq, String.eqb_refl in *; discriminate. }
    split; [|split]; cbn.
    + rewrite map_app. cbn.
      apply NoDup_app; [exact He|repeat constructor; auto|].
      intros e Hin [<-|[]]. apply in_map_iff in Hin.
      destruct Hin as (u & Hsame & Hin).
      destruct (Hfree u Hin) as [H1 H2]. cbn in Hsame. congruence.
    + rewrite map_app. cbn.
      apply NoDup_app; [exact Hu|repeat constructor; auto|].
      intros e Hin [<-|[]]. apply in_map_iff in Hin.
      destruct Hin as (u & Hsame & Hin).
      destruct (Hfree u Hin) as [H1 H2]. cbn in Hsame. congruence.
    + now apply keyed_add.
  - (* login *)
    rewrite login_run.
    destruct (find _ _) as [user|]; [|exact Hok].
    destruct (_ && _); [|exact Hok].
    unfold AuthController.bind, AuthController.save_lastLogin.
    destruct (match User.lastLogin user with
              | Some t => t =? now
              | None => false
              end); cbn; [exact Hok|].
    apply accounts_distinct_update; [|exact Hok].
    intros u. apply same_account_lastLogin.
  - (* getProfile *)
    destruct user as [user|]; cbn; [|exact Hok].
    unfold AuthController.getProfile, AuthController.try_catch,
      AuthController.bind, AuthController.findByPk_posts; cbn.
    destruct (find_user _ _); cbn; exact Hok.
  - (* updateProfile *)
    destruct user as [user|]; cbn; [|exact Hok].
    unfold AuthController.updateProfile, AuthController.try_catch,
      AuthController.bind, AuthController.findByPk; cbn.
    destruct (find_user _ _) as [u|]; cbn; [|exact Hok].
    destruct (update_profile_writes u b now s) as [Hsame|[_ Hwrite]];
      destruct (AuthController.update_profile u b now s) as [[e|u'] s'];
      cbn in *; subst s'; try exact Hok;
      (apply accounts_distinct_update; [|exact Hok]);
      intros w; apply same_account_profile.
Qed.

End Accounts.

Lemma same_account_trans u1 u2 u3 :
  same_account u1 u2 -> same_account u2 u3 -> same_account u1 u3.
Proof.
  intros (? & ? & ? & ? & ? & ?) (? & ? & ? & ? & ? & ?).
  repeat split; congruence.
Qed.

Lemma accounts_continue_refl s : accounts_continue s s.
Proof. intros u Hu. exists u. split; [exact Hu|]. repeat split. Qed.

Lemma accounts_continue_same s s' :
  users (AuthController.db s') = users (AuthController.db s) ->
  accounts_continue s s'.
Proof.
  intros Hsame u Hu. exists u. rewrite Hsame. split; [exact Hu|].
  repeat split.
Qed.

Lemma accounts_continue_trans s1 s2 s3 :
  accounts_continue s1 s2 -> accounts_continue s2 s3 ->
  accounts_continue s1 s3.
Proof.
  intros H12 H23 u Hu. destruct (H12 u Hu) as (u2 & Hu2 & Hs12).
  destruct (H23 u2 Hu2) as (u3 & Hu3 & Hs23). exists u3.
  split; [exact Hu3|]. now apply same_account_trans with u2.
Qed.

Lemma accounts_continue_update (f : User.t -> User.t) sel s :
  (forall u, same_account u (f u)) ->
  accounts_continue s
    (AuthController.set_users
       (update_where sel f (users (AuthController.db s))) s).
Proof.
  intros Hf u Hu. exists (if sel u then f u else u). split.
  - cbn. unfold update_where. apply in_map_iff. now exists u.
  - destruct (sel u); [apply Hf|repeat split].
Qed.

Lemma controller_continues_accounts isEmail hash compare sign now r s :
  accounts_continue s
    (snd (account_controller isEmail hash compare sign now r s)).
Proof.
  destruct r as [req salt|req|user|user b]; cbn.
  - rewrite register_run.
    destruct (find _ _) as [u|]; [apply accounts_continue_refl|].
    destruct (registrable isEmail hash req salt); cbn.
    + intros u Hu. exists u. split; [|repeat split].
      cbn. apply in_or_app. now left.
    + apply accounts_continue_refl.
  - rewrite login_run.
    destruct (find _ _) as [user|]; [|apply accounts_continue_refl].
    destruct (_ && _); [|apply accounts_continue_refl].
    unfold AuthController.bind, AuthController.save_lastLogin.
    destruct (match User.lastLogin user with
              | Some t => t =? now
              | None => false
              end); cbn; [apply accounts_continue_refl|].
    apply accounts_continue_update. intros u. apply same_account_lastLogin.
  - destruct user as [user|]; cbn; [|apply accounts_continue_refl].
    unfold AuthController.getProfile, AuthController.try_catch,
      AuthController.bind, AuthController.findByPk_posts; cbn.
    destruct (find_user _ _); cbn; apply accounts_continue_refl.
  - destruct user as [user|]; cbn; [|apply accounts_continue_refl].
    unfold AuthController.updateProfile, AuthController.try_catch,
      AuthController.bind, AuthController.findByPk; cbn.
    destruct (find_user _ _) as [u|]; cbn; [|apply accounts_continue_refl].
    destruct (update_profile_writes u b now s) as [Hsame|[_ Hwrite]];
      destruct (AuthController.update_profile u b now s) as [[e|u'] s'];
      cbn in *; subst s'; try apply accounts_continue_refl;
      apply accounts_continue_update; intros w; apply same_account_profile.
Qed.



(** X19. Through any sequence of registrations, logins, profile reads
    and profile updates, every account stays, with the key, username,
    email, stored password and activity it had; and when keys,
    usernames and emails are those of one user each, they stay so. *)
Theorem accounts_persist :
  forall (isEmail : string -> bool) (hash : string -> Z -> string)
         (compare : string -> string -> bool)
         (sign : Auth.JWTPayload -> Z -> string)
         (rs : list (Z * AccountRequest)) (s : AuthController.Site),
    accounts_continue s (serve_accounts isEmail hash compare sign rs s)
    /\ (accounts_distinct s ->
        accounts_distinct (serve_accounts isEmail hash compare sign rs s)).
Proof.
  intros isEmail hash compare sign rs. 
  induction rs as [|[now r] rs IH]; intros s; cbn.
  - split; [apply accounts_continue_refl|auto].
  - destruct (IH (snd (account_controller isEmail hash compare sign now r s)))
      as [Hcont Hdist].
    split.
    + eapply accounts_continue_trans; [|exact Hcont].
      apply controller_continues_accounts.
    + intros Hok. apply Hdist. now apply controller_keeps_accounts.
Qed.

Lemma demo_site_distinct : accounts_distinct demo_site.
Proof.
  split; [|split]; cbn.
  - repeat constructor; cbn; intuition discriminate.
  - repeat constructor; cbn; intuition discriminate.
  - split; [|split; [reflexivity|]].
    + cbn. repeat constructor; cbn; intuition discriminate.
    + intros x [<-|[<-|[]]]; cbn; lia.
Qed.

(** Carol registers twice on the example site, and Alice logs in. *)
Lemma accounts_persist_witness :
  accounts_distinct
    (serve_accounts demo_isEmail demo_hash demo_compare demo_sign
       [(100, Register carol 7); (101, Register carol 8);
        (102, Login (AuthController.mkLoginRequest "alice@example.org"
                                                   "hash-a"))]
       demo_site).
Proof.
  apply (proj2 (accounts_persist demo_isEmail demo_hash demo_compare demo_sign
                  [(100, Register carol 7); (101, Register carol 8);
                   (102, Login (AuthController.mkLoginRequest
                                  "alice@example.org" "hash-a"))]
                  demo_site)).
  exact demo_site_distinct.
Defined.

(** X20. Logging in. The answer is 200 exactly when a stored user has
    the email, is active and has a stored password that the given one
    compares to. Every other login is answered 401 with the same body,
    whether the email is unknown, the account inactive or the password
    wrong, and leaves the site as it was. *)
Theorem login_outcomes :
  forall (compare : string -> string -> bool)
         (sign : Auth.JWTPayload -> Z -> string)
         (req : AuthController.LoginRequest) (now : Z)
         (s : AuthController.Site),
    let out := AuthController.login compare sign req now s in
    (account_status (fst out) = Some 200
     <-> exists user,
          find (fun u => String.eqb (User.email u)
                                    (AuthController.l_email req))
               (users (AuthController.db s)) = Some user
          /\ User.isActive user = true
          /\ compare (AuthController.l_password req) (User.password user)
             = true)
    /\ (account_status (fst out) <> Some 200 ->
        fst out
        = inr (AuthController.mkResponse 401
                 (AuthController.Error "Invalid credentials"))
        /\ snd out = s).
Proof.
  intros compare sign req now s. cbv zeta. rewrite login_run.
  destruct (find _ _) as [user|] eqn:Hfind.
  - destruct (User.isActive user) eqn:Hactive; cbn.
    + destruct (compare _ _) eqn:Hcompare; cbn.
      * unfold AuthController.bind, AuthController.save_lastLogin.
        destruct (match User.lastLogin user with
                  | Some t => t =? now
                  | None => false
                  end); cbn.
        -- split; [|congruence]. split; [|reflexivity].
           intros _. now exists user.
        -- split; [|congruence]. split; [|reflexivity].
           intros _. now exists user.
      * split; [|split; reflexivity]. split; [discriminate|].
        intros (u & [= <-] & _ & Hc). congruence.
    + split; [|split; reflexivity]. split; [discriminate|].
      intros (u & [= <-] & Ha & _). congruence.
  - split; [|split; reflexivity]. split; [discriminate|].
    intros (u & Hu & _). discriminate.
Qed.

(** Nobody has the email of Carol on the example site. *)
Lemma login_outcomes_witness :
  fst (AuthController.login demo_compare demo_sign
         (AuthController.mkLoginRequest "carol@example.org" "secret-c") 100
         demo_site)
  = inr (AuthController.mkResponse 401
           (AuthController.Error "Invalid credentials"))
  /\ snd (AuthController.login demo_compare demo_sign
            (AuthController.mkLoginRequest "carol@example.org" "secret-c")
            100 demo_site)
     = demo_site.
Proof.
  apply (proj2 (login_outcomes demo_compare demo_sign
                  (AuthController.mkLoginRequest "carol@example.org"
                                                 "secret-c")
                  100 demo_site)).
  discriminate.
Defined.

(** X21. Registering and logging in. After a registration answered 201,
    a login with the email and the password of the registration is
    answered 200 when the hash of a password compares to it: the
    session is that of the new account, with the time of the login as
    its last login, and the token is signed for its key, email and
    username. A login with a password that does not compare to the hash
    is answered 401. *)
Theorem register_then_login :
  forall (isEmail : string -> bool) (hash : string -> Z -> string)
         (compare : string -> string -> bool)
         (sign : Auth.JWTPayload -> Z -> string)
         (req : AuthController.CreateUserRequest) (salt now now' : Z)
         (s : AuthController.Site),
    account_status
      (fst (AuthController.register isEmail hash sign req salt now s))
    = Some 201 ->
    let s' := snd (AuthController.register isEmail hash sign req salt now s) in
    let account := new_account hash req salt now s in
    (compare (AuthController.password req)
             (hash (AuthController.password req) salt) = true ->
     fst (AuthController.login compare sign
            (AuthController.mkLoginRequest (AuthController.email req)
                                           (AuthController.password req))
            now' s')
     = inr (AuthController.mkResponse 200
              (AuthController.Session "Login successful"
                 (AuthController.toJSON
                    (AuthController.with_lastLogin now' now' account))
                 (sign (Auth.mkJWTPayload (AuthController.next_user_id s)
                                          (AuthController.email req)
                                          (AuthController.username req))
                       now'))))
    /\ (forall wrong,
           compare wrong (hash (AuthController.password req) salt) = false ->
           fst (AuthController.login compare sign
                  (AuthController.mkLoginRequest (AuthController.email req)
                                                 wrong) now' s')
           = inr (AuthController.mkResponse 401
                    (AuthController.Error "Invalid credentials"))).
Proof.
  intros isEmail hash compare sign req salt now now' s.
  rewrite register_run.
  destruct (find _ _) as [w|] eqn:Hfind; [discriminate|].
  destruct (registrable isEmail hash req salt); [|discriminate].
  intros _. cbv zeta. cbn [snd].
  assert (Hnew : find (fun u => String.eqb (User.email u)
                                           (AuthController.email req))
                      (users (AuthController.db s)
                       ++ [new_account hash req salt now s])
                 = Some (new_account hash req salt now s)).
  { rewrite find_app.
    destruct (find (fun u => String.eqb (User.email u)
                                        (AuthController.email req))
                   (users (AuthController.db s))) as [u|] eqn:Hu.
    - exfalso. apply find_some in Hu. destruct Hu as [Hin Heq].
      pose proof (find_none _ _ Hfind u Hin) as Hnone.
      unfold AuthController.email_or_username in Hnone.
      rewrite Heq in Hnone. discriminate.
    - cbn. now rewrite String.eqb_refl. }
  split.
  - intros Hcompare. rewrite login_run. cbn. rewrite Hnew. cbn.
    rewrite Hcompare. reflexivity.
  - intros wrong Hwrong. rewrite login_run. cbn. rewrite Hnew. cbn.
    now rewrite Hwrong.
Qed.

(** Carol registers on the example site and logs in. *)
Lemma register_then_login_witness :
  account_status
    (fst (AuthController.login demo_compare demo_sign
            (AuthController.mkLoginRequest "carol@example.org" "secret-c")
            101
            (snd (AuthController.register demo_isEmail demo_hash demo_sign
                    carol 7 100 demo_site))))
  = Some 200.
Proof.
  destruct (register_then_login demo_isEmail demo_hash demo_compare demo_sign
              carol 7 100 101 demo_site eq_refl) as [Hres _].
  cbv zeta in Hres. change (AuthController.email carol)
    with "carol@example.org" in Hres.
  change (AuthController.password carol) with "secret-c" in Hres.
  rewrite (Hres eq_refl). reflexivity.
Defined.







(** *** What a listing of comments shows *)

Lemma getComments_rows isUrl postId page limit db rows pgn :
  result (run isUrl (CommentController.getComments postId page limit) db)
  = inr (mkResponse 200 (CommentsBody rows pgn)) ->
  exists n pg lim off,
    JS.parseInt postId = Some n
    /\ JS.parseInt (default "1" page) = Some pg
    /\ JS.parseInt (default "20" limit) = Some lim
    /\ num_mul (num_sub (Some pg) 1) (Some lim) = Some off
    /\ 0 <= lim /\ 0 <= off
    /\ rows
       = map (join_comment db)
           (firstn (Z.to_nat lim) (skipn (Z.to_nat off) (thread_heads n db)))
    /\ pgn
       = pagination (Some pg) (Some lim)
           (total (map (comment_join_rows db)
                       (filter (is_top_level n) (scan_comments db)))).
Proof.
  unfold run, CommentController.getComments.
  rewrite run_from_try_catch, run_from_bind, run_from_await.
  destruct (JS.parseInt postId) as [n|]; cbn -[window num_mul num_sub];
    [|discriminate].
  destruct (find_post n db); cbn -[window num_mul num_sub]; [|discriminate].
  destruct (window _ _ _) as [shown|] eqn:Hwindow;
    cbn -[window num_mul num_sub]; [|discriminate].
  intros [= <- <-].
  destruct (window_granted _ _ _ _ Hwindow)
    as (lim & k & Hlim & Hk & Hlim0 & Hk0 & ->).
  rewrite Hlim in Hk.
  destruct (JS.parseInt (default "1" page)) as [pg|]; [|discriminate].
  exists n, pg, lim, k. rewrite Hlim. repeat split; auto.
Qed.

(** X24. A listing of comments goes two levels deep. A reply to a reply,
    which [createComment] stores like any other reply, is in no answer
    of [getComments], neither among the top-level comments nor among
    the replies they carry, whatever the page. *)
Theorem getComments_leaves_out_replies_to_replies :
  forall (isUrl : string -> bool) (postId : string)
         (page limit : option string) (db : Store)
         (rows : list CommentRow) (pgn : Pagination)
         (c parent : Comment.t) (pid : Z),
    NoDup (map Comment.id (comments db)) ->
    result (run isUrl (CommentController.getComments postId page limit) db)
    = inr (mkResponse 200 (CommentsBody rows pgn)) ->
    Comment.parentId c = Some pid ->
    find_comment pid db = Some parent ->
    Comment.parentId parent <> None ->
    ~ In c (shown_comments rows).
Proof.
  intros isUrl postId page limit db rows pgn c parent pid Hnd Hres Hpid
         Hparent Hnested Hshown.
  destruct (getComments_rows _ _ _ _ _ _ _ Hres)
    as (n & pg & lim & off & _ & _ & _ & _ & _ & _ & -> & _).
  unfold shown_comments in Hshown. apply in_flat_map in Hshown.
  destruct Hshown as (row & Hrow & Hin).
  apply in_map_iff in Hrow. destruct Hrow as (top & <- & Htop).
  apply in_page in Htop. unfold thread_heads in Htop.
  apply sort_by_In, filter_In in Htop. destruct Htop as [Htop Hlevel].
  apply scan_comments_In in Htop.
  unfold is_top_level in Hlevel. apply andb_prop in Hlevel.
  destruct Hlevel as [_ Hlevel].
  cbn [row_comment row_replies join_comment] in Hin.
  destruct Hin as [<-|Hin].
  - rewrite Hpid in Hlevel. discriminate.
  - rewrite replies_of_comments in Hin.
    apply filter_In in Hin. destruct Hin as [_ Hreply].
    apply is_reply_to_spec in Hreply. rewrite Hpid in Hreply.
    injection Hreply as ->.
    assert (Hsame : find_comment (Comment.id top) db = Some top)
      by (unfold find_comment; now apply find_by_key).
    rewrite Hparent in Hsame. injection Hsame as ->.
    destruct (Comment.parentId top); [discriminate|contradiction].
Qed.

(** Bob answers reply 3 of the example store, which answers comment 1;
    the comments of post 1 are then listed without his answer. *)
Lemma getComments_leaves_out_replies_to_replies_witness :
  let db :=
    store (run any_url
               (CommentController.createComment (Some as_bob)
                  (CommentController.mkCreateCommentRequest "And I" 1 (Some 3))
                  100) demo) in
  exists rows pgn,
    result (run any_url (CommentController.getComments "1" None None) db)
    = inr (mkResponse 200 (CommentsBody rows pgn))
    /\ In (Comment.mk 6 "And I" 1 2 (Some 3) true 100 100) (comments db)
    /\ ~ In (Comment.mk 6 "And I" 1 2 (Some 3) true 100 100)
            (shown_comments rows).
Proof.
  cbv zeta. eexists. eexists. split; [reflexivity|]. split.
  - cbn. do 5 right. now left.
  - eapply (getComments_leaves_out_replies_to_replies any_url "1" None None
             (store (run any_url
                         (CommentController.createComment (Some as_bob)
                            (CommentController.mkCreateCommentRequest
                               "And I" 1 (Some 3)) 100) demo))
             _ _ (Comment.mk 6 "And I" 1 2 (Some 3) true 100 100)
             (demo_comment 3 1 1 (Some 1) false 70) 3).
    + cbn. repeat constructor; cbn; intuition discriminate.
    + reflexivity.
    + reflexivity.
    + reflexivity.
    + discriminate.
Defined.

(** *** The optimistic like of the client *)

Lemma filter_absent_key {A} (key : A -> Z) (k : Z) (l : list A) :
  ~ In k (map key l) -> filter (fun y => negb (key y =? k)) l = l.
Proof.
  induction l as [|z l IH]; cbn; intros Hnotin; [reflexivity|].
  destruct (Z.eqb_spec (key z) k) as [Heq|Hne]; cbn.
  - exfalso. apply Hnotin. now left.
  - f_equal. apply IH. intros H. apply Hnotin. now right.
Qed.

Lemma count_filter_without {A} (key : A -> Z) (f : A -> bool) (l : list A) x :
  NoDup (map key l) -> In x l ->
  Z.of_nat (List.length
              (filter f (filter (fun y => negb (key y =? key x)) l)))
  = Z.of_nat (List.length (filter f l)) - (if f x then 1 else 0).
Proof.
  induction l as [|y l IH]; cbn; intros Hnd Hin; [contradiction|].
  inversion Hnd as [|? ? Hnotin Hnd']; subst.
  destruct Hin as [->|Hin].
  - rewrite Z.eqb_refl; cbn. rewrite (filter_absent_key _ _ _ Hnotin).
    destruct (f x); cbn [List.length]; lia.
  - destruct (Z.eqb_spec (key y) (key x)) as [Heq|Hne]; cbn.
    + exfalso. apply Hnotin. rewrite Heq. now apply in_map.
    + specialize (IH Hnd' Hin).
      destruct (f y); cbn [List.length]; lia.
Qed.

Lemma find_filter_irrelevant {A} (f g : A -> bool) (l : list A) :
  (forall x, In x l -> g x = false -> f x = false) ->
  find f (filter g l) = find f l.
Proof.
  induction l as [|y l IH]; cbn; intros H; [reflexivity|].
  destruct (g y) eqn:Hg; cbn.
  - destruct (f y); [reflexivity|]. apply IH. intros x Hx. apply H. now right.
  - rewrite (H y (or_introl eq_refl) Hg). apply IH.
    intros x Hx. apply H. now right.
Qed.

(** The call for the page in a store with the same posts, in the same
    order. *)
Lemma listing_call_same_posts isUrl q db db' :
  posts db' = posts db ->
  place db' = place db ->
  match fst (exec isUrl (listing_call q) db) with
  | inr (count, rows) =>
      fst (exec isUrl (listing_call q) db')
      = inr (joined_total q db', map (join_post db') (map row_post rows))
  | inl e => fst (exec isUrl (listing_call q) db') = inl e
  end.
Proof.
  intros Hposts Hplace. unfold exec, listing_call, joined_total, selected.
  assert (Hscan : scan_posts db' = scan_posts db)
    by (unfold scan_posts; now rewrite Hposts, Hplace).
  rewrite Hscan.
  destruct (w_tags (PostController.whereClause q)); [reflexivity|].
  destruct (w_authorId (PostController.whereClause q)) as [[a|]|];
    try reflexivity;
    (destruct (post_column _) as [col|]; [|reflexivity]);
    (destruct (window _ _ _) as [page|]; [|reflexivity]);
    cbn; now rewrite map_row_post.
Qed.

(** What one toggle does to the likes of the posts. *)
Lemma likePost_changes_counts isUrl u id n p usr now db :
  schema_ok db ->
  JS.parseInt id = Some n ->
  find_post n db = Some p ->
  find_user (Http.id u) db = Some usr ->
  let db' := store (run isUrl (PostController.likePost (Some u) id now) db) in
  posts db' = posts db
  /\ comments db' = comments db
  /\ place db' = place db
  /\ forall m,
      let liked := is_some (find_like m (Http.id u) db) in
      is_some (find_like m (Http.id u) db')
      = (if m =? n then negb liked else liked)
      /\ count_likes m db'
         = (if m =? n
            then if liked then count_likes m db - 1 else count_likes m db + 1
            else count_likes m db).
Proof.
  intros Hok Hid Hp Husr.
  pose proof (find_post_id _ _ _ Hp) as Hkey.
  pose proof Hok as (_ & _ & (Hnd & _ & _) & Huniq & _).
  assert (Hready : toggle_ready u n p usr db) by now split.
  cbv zeta.
  destruct (find_like (Post.id p) (Http.id u) db) as [l|] eqn:Hl.
  - rewrite (likePost_present isUrl u id n p usr Hid now db l Hready Hl).
    cbn [store]. split; [reflexivity|]. split; [reflexivity|].
    split; [reflexivity|].
    unfold find_like in Hl. pose proof (find_some _ _ Hl) as [Hlin Hlof].
    unfold like_of in Hlof. apply andb_prop in Hlof.
    destruct Hlof as [Hlpost Hluser].
    apply Z.eqb_eq in Hlpost. apply Z.eqb_eq in Hluser.
    intros m. unfold find_like, count_likes; cbn. split.
    + destruct (Z.eqb_spec m n) as [->|Hne].
      * rewrite <- Hkey. unfold find_like. rewrite Hl. cbn.
        destruct (find _ (filter _ _)) as [l'|] eqn:Hl'; [|reflexivity].
        exfalso. apply find_some in Hl'. destruct Hl' as [Hin' Hof'].
        apply filter_In in Hin'. destruct Hin' as [Hin' Hne'].
        apply negb_true_iff, Z.eqb_neq in Hne'.
        specialize (Huniq (Http.id u) (Post.id p)). unfold pair_likes in Huniq.
        assert (Hboth : incl [l; l'] (filter (like_of (Post.id p) (Http.id u))
                                             (likes db))).
        { intros x [<-|[<-|[]]]; apply filter_In; split; auto.
          unfold like_of. now rewrite Hlpost, Hluser, !Z.eqb_refl. }
        assert (Hnd2 : NoDup [l; l']).
        { repeat constructor; cbn; [|auto]. intros [->|[]]. congruence. }
        pose proof (NoDup_incl_length Hnd2 Hboth) as Hlen. cbn in Hlen. lia.
      * f_equal. apply find_filter_irrelevant.
        intros x Hx Hgone. apply negb_false_iff, Z.eqb_eq in Hgone.
        assert (x = l) as -> by now apply (same_key_same_row Like.id (likes db)).
        unfold like_of. rewrite Hlpost, Hkey.
        now destruct (Z.eqb_spec n m); [congruence|].
    + rewrite (count_filter_without Like.id _ _ l Hnd Hlin).
      rewrite Hlpost, Hkey.
      destruct (Z.eqb_spec n m) as [<-|Hne].
      * rewrite Z.eqb_refl. rewrite <- Hkey. unfold find_like. now rewrite Hl.
      * destruct (Z.eqb_spec m n); [congruence|lia].
  - rewrite (likePost_absent isUrl u id n p usr Hid now db Hready Hl).
    cbn [store]. split; [reflexivity|]. split; [reflexivity|].
    split; [reflexivity|].
    intros m. unfold find_like, count_likes, new_like; cbn. split.
    + rewrite find_app. unfold find_like in Hl.
      destruct (Z.eqb_spec m n) as [->|Hne].
      * rewrite <- Hkey, Hl. cbn. unfold like_of; cbn.
        now rewrite !Z.eqb_refl.
      * destruct (find (like_of m (Http.id u)) (likes db)); [reflexivity|].
        cbn.
        unfold like_of; cbn. rewrite Hkey.
        now destruct (Z.eqb_spec n m); [congruence|].
    + rewrite filter_app, length_app. cbn. rewrite Hkey.
      destruct (Z.eqb_spec n m) as [<-|Hne].
      * rewrite Z.eqb_refl. rewrite <- Hkey. unfold find_like in Hl.
        rewrite Hl. cbn. lia.
      * destruct (Z.eqb_spec m n); [congruence|cbn; lia].
Qed.

(** X25. The optimistic update of the client predicts the server, when
    it is made. A signed-in reader holds the answer of a listing and
    likes or unlikes a stored post. When the detail of that post is not
    in the cache, [onMutate] throws and nothing is updated. When it is,
    the update of the cached list (the flag flipped and the count one
    up or down on that post, nothing on the others) shows the posts,
    counts and flags that the same listing shows once the server has
    made the toggle, the store ordering its rows as before. *)
Theorem optimistic_like_predicts_listing :
  forall (isUrl : string -> bool) (u : AuthUser) (usr : User.t) (id : string)
         (n now : Z) (p : Post.t) (q : PostController.PostQuery) (db : Store)
         (items : list PostItem) (pgn : Pagination),
    schema_ok db ->
    JS.parseInt id = Some n ->
    find_post n db = Some p ->
    find_user (Http.id u) db = Some usr ->
    result (run isUrl (PostController.getPosts (Some u) q) db)
    = inr (mkResponse 200 (PostsBody items pgn)) ->
    let db' := store (run isUrl (PostController.likePost (Some u) id now) db) in
    let held := UsePostsAdvanced.cached (PostsBody items pgn) in
    UsePostsAdvanced.onMutate n (UsePostsAdvanced.mkCache None held) = None
    /\ forall d,
        exists context cache items' pgn',
          UsePostsAdvanced.onMutate n
            (UsePostsAdvanced.mkCache (Some d) held)
          = Some (context, cache)
          /\ result (run isUrl (PostController.getPosts (Some u) q) db')
             = inr (mkResponse 200 (PostsBody items' pgn'))
          /\ map counts_shown (UsePostsAdvanced.shown cache)
             = map counts_shown items'.
Proof.
  intros isUrl u usr id n now p q db items pgn Hok Hid Hp Husr Hres.
  destruct (likePost_changes_counts isUrl u id n p usr now db Hok Hid Hp Husr)
    as (Hposts & Hcomments & Hplace & Hlikes).
  cbv zeta. set (db' := store _) in *.
  split; [reflexivity|]. intros d.
  rewrite getPosts_run in Hres. rewrite getPosts_run.
  pose proof (listing_call_reads isUrl q db) as Hreads.
  pose proof (listing_call_reads isUrl q db') as Hreads'.
  pose proof (listing_call_same_posts isUrl q db db' Hposts Hplace) as Hsame.
  destruct (exec isUrl (listing_call q) db) as [[e|[count rows]] db1];
    cbn [fst snd] in Hsame, Hreads; cbn in Hres; [discriminate Hres|].
  subst db1. injection Hres as <- <-.
  destruct (exec isUrl (listing_call q) db') as [[e|[count' rows']] db1];
    cbn [fst snd] in Hsame, Hreads'; [discriminate Hsame|].
  subst db1. injection Hsame as -> ->.
  cbn. do 4 eexists. split; [reflexivity|]. split; [reflexivity|].
  cbn. rewrite !map_map. apply map_ext. intros row.
  unfold counts_shown, UsePostsAdvanced.toggled, counted, post_of; cbn.
  destruct (Hlikes (Post.id (row_post row))) as [Hflag Hcount].
  cbv zeta in Hflag, Hcount. rewrite Hflag, Hcount.
  unfold count_comments. rewrite Hcomments.
  destruct (Post.id (row_post row) =? n); reflexivity.
Qed.

(** Alice, who reads the example store and has opened post 2, likes
    it. *)
Lemma optimistic_like_predicts_listing_witness :
  exists items items' pgn pgn',
    result (run any_url
                (PostController.getPosts (Some as_alice)
                                         (listing None None None)) demo)
    = inr (mkResponse 200 (PostsBody items pgn))
    /\ result (run any_url
                   (PostController.getPosts (Some as_alice)
                                            (listing None None None))
                   demo_liked)
       = inr (mkResponse 200 (PostsBody items' pgn'))
    /\ map counts_shown (map (UsePostsAdvanced.toggled 2) items)
       = map counts_shown items'.
Proof.
  destruct (optimistic_like_predicts_listing any_url as_alice alice "2" 2 99
              (demo_post 2 1 true 20) (listing None None None) demo _ _
              demo_schema_ok eq_refl eq_refl eq_refl eq_refl)
    as (_ & Hmade).
  destruct (Hmade (UsePostsAdvanced.mkPostData
                     (mkPostDetail (demo_post 2 1 true 20) None [] 0 false)
                     None None))
    as (context & cache & items' & pgn' & Hmutate & Hres & Hshown).
  injection Hmutate as _ <-.
  eexists. exists items'. eexists. exists pgn'. split; [reflexivity|].
  split; [exact Hres|]. exact Hshown.
Defined.

(** *** The comments the client holds *)

(** The first page of the comments of a stored post. *)
Lemma first_page_run isUrl postId n db :
  JS.parseInt postId = Some n ->
  find_post n db <> None ->
  result (run isUrl (first_page postId) db)
  = inr (mkResponse 200
           (CommentsBody
              (map (join_comment db) (firstn 20 (thread_heads n db)))
              (pagination (Some 1) (Some 20)
                 (total (map (comment_join_rows db)
                             (filter (is_top_level n) (scan_comments db))))))).
Proof.
  intros Hid Hpost. unfold first_page.
  assert (Hwin : page_window 1 20) by (unfold page_window; lia).
  exact (getComments_answers isUrl postId (Some "1") (Some "20") n 1 20 db
           Hid Hpost eq_refl eq_refl Hwin).
Qed.

Lemma filter_scan_comments_length f db :
  List.length (filter f (scan_comments db))
  = List.length (filter f (comments db)).
Proof.
  apply Permutation_length, filter_Permutation, scan_comments_Permutation.
Qed.

Lemma thread_heads_length n db :
  List.length (thread_heads n db)
  = List.length (filter (is_top_level n) (comments db)).
Proof.
  unfold thread_heads. now rewrite sort_by_length, filter_scan_comments_length.
Qed.

(** *** A row that is added *)

Lemma insert_by_split {A} (leb : A -> A -> bool) x l :
  exists a b, l = (a ++ b)%list /\ insert_by leb x l = (a ++ x :: b)%list.
Proof.
  induction l as [|y l IH]; cbn.
  - exists [], []. split; reflexivity.
  - destruct (leb x y).
    + exists [], (y :: l). split; reflexivity.
    + destruct IH as (a & b & -> & ->). exists (y :: a), b.
      split; reflexivity.
Qed.

Lemma insert_by_app {A} (leb : A -> A -> bool) x (l r : list A) :
  insert_by leb x (l ++ r)
  = if existsb (leb x) l then (insert_by leb x l ++ r)%list
    else (l ++ insert_by leb x r)%list.
Proof.
  induction l as [|y l IH]; cbn; [reflexivity|].
  destruct (leb x y); cbn; [reflexivity|].
  rewrite IH. now destruct (existsb (leb x) l).
Qed.

Section Added.
Context {A : Type} (leb : A -> A -> bool).
Hypothesis leb_total : forall a b, leb a b = true \/ leb b a = true.
Hypothesis leb_trans :
  forall a b c, leb a b = true -> leb b c = true -> leb a c = true.

(** Sorting a list with one more row at its end puts that row
    somewhere among the others, which keep their order; what comes
    after it is strictly after it. *)
Lemma sort_by_snoc (l : list A) c :
  exists l1 l2,
    sort_by leb l = (l1 ++ l2)%list
    /\ sort_by leb (l ++ [c]) = (l1 ++ c :: l2)%list
    /\ forall y, In y l2 -> leb y c = false.
Proof.
  unfold sort_by. induction l as [|x l IH].
  - exists [], []. cbn. repeat split. intros y [].
  - destruct IH as (l1 & l2 & H1 & H2 & H3).
    cbn [app fold_right]. rewrite H1, H2, !insert_by_app.
    destruct (existsb (leb x) l1).
    + destruct (insert_by_split leb x l1) as (a & b & -> & ->).
      exists (a ++ x :: b)%list, l2. repeat split. exact H3.
    + cbn [insert_by]. destruct (leb x c) eqn:Hxc.
      * exists (l1 ++ [x])%list, l2. rewrite <- !app_assoc. cbn.
        split; [|split; [reflexivity|exact H3]].
        destruct l2 as [|y l2]; [reflexivity|]. cbn.
        assert (Hyc : leb y c = false) by (apply H3; now left).
        destruct (leb_total c y) as [Hcy|Hcy]; [|congruence].
        now rewrite (leb_trans _ _ _ Hxc Hcy).
      * exists l1, (insert_by leb x l2). repeat split.
        intros y Hy. apply insert_by_In in Hy.
        destruct Hy as [->|Hy]; [exact Hxc|now apply H3].
Qed.
End Added.

(** A row that is before every other in the order sorted by comes
    first, wherever it was. *)
Lemma sort_by_first {A} (leb : A -> A -> bool) (l1 l2 : list A) c :
  (forall x, In x (l1 ++ l2) -> leb x c = false /\ leb c x = true) ->
  sort_by leb (l1 ++ c :: l2) = c :: sort_by leb (l1 ++ l2).
Proof.
  induction l1 as [|x l1 IH]; intros Hc.
  - cbn [app]. change (sort_by leb (c :: l2))
      with (insert_by leb c (sort_by leb l2)).
    destruct (sort_by leb l2) as [|y s] eqn:Hs; [reflexivity|]. cbn.
    assert (Hy : In y l2).
    { apply (sort_by_In leb). rewrite Hs. now left. }
    now rewrite (proj2 (Hc y Hy)).
  - change (sort_by leb ((x :: l1) ++ c :: l2))
      with (insert_by leb x (sort_by leb (l1 ++ c :: l2))).
    rewrite IH by (intros y Hy; apply Hc; now right). cbn.
    now rewrite (proj1 (Hc x (or_introl eq_refl))).
Qed.

(** What [createComment] has done when it answers 201. *)
Lemma createComment_created isUrl u req now db :
  keyed Comment.id (next_comment_id db) (comments db) ->
  Validation.createCommentSchema req = true ->
  let o := run isUrl (CommentController.createComment (Some u) req now) db in
  let c := Comment.mk (next_comment_id db) (CommentController.content req)
                      (CommentController.postId req) (Http.id u)
                      (CommentController.parentId req) true now now in
  status_of o = Some 201 ->
  find_post (CommentController.postId req) db <> None
  /\ store o = bump_comment_id (set_comments (comments db ++ [c]) db)
  /\ comment_of o = Some (c, join_author Public (Http.id u) db).
Proof.
  intros Hkeys Hvalid. cbv zeta.
  unfold Validation.createCommentSchema, Validation.string_between in Hvalid.
  apply andb_prop in Hvalid. destruct Hvalid as [Hvalid Hparent].
  apply andb_prop in Hvalid. destruct Hvalid as [Hcontent _].
  assert (Hnew : forall c,
             Comment.id c = next_comment_id db ->
             find_comment (next_comment_id db)
               (bump_comment_id (set_comments (comments db ++ [c]) db))
             = Some c).
  { intros c Hc. unfold find_comment; cbn. rewrite find_app.
    rewrite (keyed_fresh _ _ _ Hkeys). cbn. now rewrite Hc, Z.eqb_refl. }
  unfold run, CommentController.createComment, status_of, comment_of; cbn.
  destruct (find_post (CommentController.postId req) db) as [post|] eqn:Hpost;
    cbn; [|discriminate].
  destruct (CommentController.parentId req) as [pid|] eqn:Hpid;
    cbn -[firstn].
  - unfold JS.truthy_num.
    assert ((pid =? 0) = false) as ->
        by (apply Z.eqb_neq; apply Z.ltb_lt in Hparent; lia).
    cbn.
    destruct (find_comment pid db) as [parent|] eqn:Hfind; cbn;
      [|discriminate].
    destruct (Comment.postId parent =? CommentController.postId req); cbn;
      [|discriminate].
    rewrite Hcontent, Hpost, Hfind; cbn.
    destruct (find_user (Http.id u) db) as [usr|] eqn:Husr; cbn;
      [|discriminate].
    rewrite Hnew by reflexivity. cbn. intros _.
    split; [discriminate|]. split; [reflexivity|].
    unfold with_author, join_author; cbn.
    change (find_user (Http.id u) (bump_comment_id _))
      with (find_user (Http.id u) db).
    reflexivity.
  - rewrite Hcontent, Hpost; cbn.
    destruct (find_user (Http.id u) db) as [usr|] eqn:Husr; cbn;
      [|discriminate].
    rewrite Hnew by reflexivity. cbn. intros _.
    split; [discriminate|]. split; [reflexivity|].
    unfold with_author, join_author; cbn.
    change (find_user (Http.id u) (bump_comment_id _))
      with (find_user (Http.id u) db).
    reflexivity.
Qed.

Section AfterACreation.
Variables (db : Store) (c : Comment.t).
Hypothesis later : forall x, In x (comments db) ->
                             Comment.createdAt x < Comment.createdAt c.

(** The comments in the order of the store, once [c] is added. *)
Lemma scan_comments_after :
  exists l1 l2,
    scan_comments db = (l1 ++ l2)%list
    /\ scan_comments
         (bump_comment_id (set_comments (comments db ++ [c]) db))
       = (l1 ++ c :: l2)%list
    /\ forall y,
        In y l2 ->
        place db Comments (Comment.id c) < place db Comments (Comment.id y).
Proof.
  unfold scan_comments. cbn [comments place bump_comment_id set_comments].
  destruct (sort_by_snoc (by_place Comment.id (place db Comments)))
    with (l := comments db) (c := c) as (l1 & l2 & H1 & H2 & H3).
  - intros a b. unfold by_place. rewrite !Z.leb_le. lia.
  - intros a b d. unfold by_place. rewrite !Z.leb_le. lia.
  - exists l1, l2. split; [exact H1|]. split; [exact H2|].
    intros y Hy. specialize (H3 y Hy). unfold by_place in H3.
    apply Z.leb_gt in H3. exact H3.
Qed.

Lemma thread_heads_after n :
  thread_heads n (bump_comment_id (set_comments (comments db ++ [c]) db))
  = if is_top_level n c then c :: thread_heads n db else thread_heads n db.
Proof.
  unfold thread_heads.
  destruct scan_comments_after as (l1 & l2 & Hscan & -> & _).
  assert (Hold : forall x, In x (l1 ++ l2) -> In x (comments db)).
  { intros x Hx. rewrite <- Hscan in Hx. now apply scan_comments_In. }
  rewrite Hscan, !filter_app. cbn [filter].
  destruct (is_top_level n c); [|reflexivity].
  apply sort_by_first. intros x Hx.
  assert (Hin : In x (l1 ++ l2)).
  { apply in_app_or in Hx. apply in_or_app.
    destruct Hx as [Hx|Hx]; apply in_filter_sub in Hx; auto. }
  specialize (later x (Hold x Hin)).
  unfold by_createdAt; cbn. split; [apply Z.leb_gt|apply Z.leb_le]; lia.
Qed.

(** The replies to [k], when the store places [c] after those it
    holds. *)
Lemma replies_of_after k :
  (is_reply_to k c = true ->
   forall x,
     In x (comments db) -> is_reply_to k x = true ->
     place db Comments (Comment.id x) <= place db Comments (Comment.id c)) ->
  replies_of (bump_comment_id (set_comments (comments db ++ [c]) db)) k
  = if is_reply_to k c
    then (replies_of db k ++ [with_author Public db c])%list
    else replies_of db k.
Proof.
  intros Hplaced. unfold replies_of.
  destruct scan_comments_after as (l1 & l2 & Hscan & -> & Hafter).
  assert (Hold : forall x, In x (l1 ++ l2) -> In x (comments db)).
  { intros x Hx. rewrite <- Hscan in Hx. now apply scan_comments_In. }
  rewrite Hscan, !filter_app. cbn [filter].
  destruct (is_reply_to k c) eqn:Hreply.
  - assert (Hnone : filter (is_reply_to k) l2 = []).
    { apply filter_none. intros y Hy.
      destruct (is_reply_to k y) eqn:Hyk; [|reflexivity]. exfalso.
      specialize (Hafter y Hy).
      specialize (Hplaced eq_refl y (Hold y (in_or_app _ _ _ (or_intror Hy)))
                          Hyk).
      lia. }
    rewrite Hnone, app_nil_r, !map_app. reflexivity.
  - reflexivity.
Qed.

End AfterACreation.

Lemma no_reply_to_next_comment db :
  schema_ok db -> replies_of db (next_comment_id db) = [].
Proof.
  intros Hok. unfold replies_of.
  rewrite (filter_none (is_reply_to (next_comment_id db)) (scan_comments db));
    [reflexivity|].
  intros x Hx. apply scan_comments_In in Hx.
  destruct (is_reply_to _ x) eqn:Hreply; [|reflexivity].
  exfalso. apply is_reply_to_spec in Hreply.
  pose proof Hok as (_ & Hkeys & _ & _ & _ & Hrc & _).
  destruct (Hrc x Hx) as (_ & _ & Hparent).
  specialize (Hparent _ Hreply). unfold find_comment in Hparent.
  now rewrite (keyed_fresh _ _ _ Hkeys) in Hparent.
Qed.

(** X27. The comments the client holds after a creation are those of a
    new fetch. The client holds the first page of the comments of a
    post, fewer than 20 of them top-level, and a comment or a reply
    created later than every stored comment is answered 201. Then what
    [addComment] makes of the list (the comment put first, or the reply
    put last among the replies of its parent) renders as the first page
    the server lists afterwards, provided the store places a new reply
    after the replies of its parent that it holds: the order of the
    replies is that of the store. *)
Theorem addComment_agrees_with_a_new_fetch :
  forall (isUrl : string -> bool) (u : AuthUser)
         (req : CommentController.CreateCommentRequest) (now : Z)
         (postId : string) (n : Z) (db : Store)
         (created : Comment.t * option Author),
    schema_ok db ->
    JS.parseInt postId = Some n ->
    CommentController.postId req = n ->
    Validation.createCommentSchema req = true ->
    (forall x, In x (comments db) -> Comment.createdAt x < now) ->
    (List.length (filter (is_top_level n) (comments db)) < 20)%nat ->
    placed_last (CommentController.parentId req) db ->
    let o := run isUrl (CommentController.createComment (Some u) req now) db in
    status_of o = Some 201 ->
    comment_of o = Some created ->
    exists before after,
      body_of (run isUrl (first_page postId) db) = Some before
      /\ body_of (run isUrl (first_page postId) (store o)) = Some after
      /\ map UseComments.rendered
           (UseComments.addComment (CommentController.parentId req) created
                                   (UseComments.fetched before))
         = map UseComments.rendered (UseComments.fetched after).
Proof.
  intros isUrl u req now postId n db created Hok Hid Hpost Hvalid Hlater
         Hfew Hplaced.
  pose proof Hok as (_ & Hkeys & _).
  cbv zeta. intros Hstatus Hcreated.
  destruct (createComment_created isUrl u req now db Hkeys Hvalid Hstatus)
    as (Hstored & Hstore & Hcomment).
  rewrite Hcomment in Hcreated. injection Hcreated as <-.
  rewrite Hstore. rewrite Hpost in *.
  set (c := Comment.mk (next_comment_id db) (CommentController.content req) n
                       (Http.id u) (CommentController.parentId req) true now
                       now) in *.
  unfold body_of.
  rewrite (first_page_run isUrl postId n db Hid Hstored).
  rewrite (first_page_run isUrl postId n _ Hid)
    by (unfold find_post in *; exact Hstored).
  eexists. eexists. split; [reflexivity|]. split; [reflexivity|].
  cbn [UseComments.fetched Http.body].
  assert (Hlater' : forall x, In x (comments db) ->
                              Comment.createdAt x < Comment.createdAt c)
    by exact Hlater.
  rewrite (thread_heads_after db c Hlater' n).
  assert (Hall : firstn 20 (thread_heads n db) = thread_heads n db).
  { apply firstn_all2. rewrite thread_heads_length. lia. }
  assert (Hcut : firstn 20 (c :: thread_heads n db)
                 = c :: thread_heads n db).
  { apply firstn_all2. cbn [List.length]. rewrite thread_heads_length. lia. }
  assert (Hreplies : forall x,
             replies_of
               (bump_comment_id (set_comments (comments db ++ [c]) db))
               (Comment.id x)
             = if is_reply_to (Comment.id x) c
               then (replies_of db (Comment.id x)
                     ++ [with_author Public db c])%list
               else replies_of db (Comment.id x)).
  { intros x. apply (replies_of_after db c). intros Hxc y Hy Hyx.
    apply is_reply_to_spec in Hxc. apply is_reply_to_spec in Hyx.
    exact (Hplaced (Comment.id x) y Hxc Hy Hyx). }
  unfold Validation.createCommentSchema in Hvalid.
  apply andb_prop in Hvalid. destruct Hvalid as [_ Hparent].
  assert (Hrendered : forall x,
             UseComments.rendered
               (UseComments.of_row
                  (join_comment
                     (bump_comment_id (set_comments (comments db ++ [c]) db))
                     x))
             = (x, join_author Public (Comment.authorId x) db,
                if is_reply_to (Comment.id x) c
                then (replies_of db (Comment.id x)
                      ++ [with_author Public db c])%list
                else replies_of db (Comment.id x))).
  { intros x. unfold UseComments.rendered, UseComments.of_row, join_comment.
    cbn [UseComments.comment UseComments.author UseComments.replies
         row_comment row_cauthor row_replies default].
    now rewrite Hreplies. }
  destruct (CommentController.parentId req) as [pid|] eqn:Hpid.
  - assert (Htop : is_top_level n c = false).
    { unfold is_top_level, c; cbn. apply andb_false_r. }
    assert (Hreply : forall k, is_reply_to k c = (pid =? k)).
    { intros k. reflexivity. }
    rewrite Htop, Hall. unfold UseComments.addComment.
    assert (CommentController.supplied (Some pid) = Some pid) as ->.
    { unfold CommentController.supplied, JS.truthy_num.
      assert ((pid =? 0) = false) as ->
          by (apply Z.eqb_neq; apply Z.ltb_lt in Hparent; lia).
      reflexivity. }
    rewrite !map_map. apply map_ext. intros x.
    rewrite Hrendered, Hreply, (Z.eqb_sym pid).
    cbn [UseComments.of_row UseComments.comment row_comment join_comment].
    destruct (Comment.id x =? pid); reflexivity.
  - assert (Htop : is_top_level n c = true).
    { unfold is_top_level, c; cbn. now rewrite Z.eqb_refl. }
    assert (Hreply : forall k, is_reply_to k c = false).
    { intros k. reflexivity. }
    rewrite Htop, Hcut, Hall. unfold UseComments.addComment.
    cbn [CommentController.supplied map]. f_equal.
    + rewrite Hrendered, Hreply.
      change (Comment.id c) with (next_comment_id db).
      now rewrite (no_reply_to_next_comment db Hok).
    + rewrite !map_map. apply map_ext. intros x.
      now rewrite Hrendered, Hreply.
Qed.

(** Alice comments on post 1 of the example store at 100, and Bob
    replies to comment 1, which has two replies; the store lists the
    replies in the order of their insertion. *)
Lemma addComment_agrees_with_a_new_fetch_witness :
  (exists before after,
      body_of (run any_url (first_page "1") demo) = Some before
      /\ body_of
           (run any_url (first_page "1")
                (store
                   (run any_url
                        (CommentController.createComment (Some as_alice)
                           (CommentController.mkCreateCommentRequest
                              "A thought" 1 None) 100) demo)))
         = Some after
      /\ map UseComments.rendered
           (UseComments.addComment None
              (Comment.mk 6 "A thought" 1 1 None true 100 100,
               Some (select_author Public alice))
              (UseComments.fetched before))
         = map UseComments.rendered (UseComments.fetched after))
  /\ (exists before after,
         body_of (run any_url (first_page "1") demo) = Some before
         /\ body_of
              (run any_url (first_page "1")
                   (store
                      (run any_url
                           (CommentController.createComment (Some as_bob)
                              (CommentController.mkCreateCommentRequest
                                 "A reply" 1 (Some 1)) 100) demo)))
            = Some after
         /\ map UseComments.rendered
              (UseComments.addComment (Some 1)
                 (Comment.mk 6 "A reply" 1 2 (Some 1) true 100 100,
                  Some (select_author Public bob))
                 (UseComments.fetched before))
            = map UseComments.rendered (UseComments.fetched after)).
Proof.
  assert (Hlater : forall x, In x (comments demo) -> Comment.createdAt x < 100)
    by (intros x [<-|[<-|[<-|[<-|[<-|[]]]]]]; cbn; lia).
  split.
  - apply (addComment_agrees_with_a_new_fetch any_url as_alice
             (CommentController.mkCreateCommentRequest "A thought" 1 None)
             100 "1" 1 demo _ demo_schema_ok eq_refl eq_refl eq_refl Hlater);
      [cbn; lia|intros pid x Hpid; discriminate Hpid|reflexivity|reflexivity].
  - apply (addComment_agrees_with_a_new_fetch any_url as_bob
             (CommentController.mkCreateCommentRequest "A reply" 1 (Some 1))
             100 "1" 1 demo _ demo_schema_ok eq_refl eq_refl eq_refl Hlater);
      [cbn; lia|intros pid x _ _ _; vm_compute; discriminate|reflexivity
      |reflexivity].
Defined.

(** What [updateComment] has done when it answers 200. *)
Lemma updateComment_edited isUrl u id k content now db :
  JS.parseInt id = Some k ->
  let o :=
    run isUrl (CommentController.updateComment (Some u) id content now) db in
  status_of o = Some 200 ->
  exists g,
    keeps_place g
    /\ comments (store o) = map g (comments db)
    /\ posts (store o) = posts db
    /\ users (store o) = users db
    /\ forall updated,
        comment_of o = Some updated -> Comment.id (fst updated) = k.
Proof.
  intros Hid. cbv zeta.
  unfold run, CommentController.updateComment, status_of, comment_of; cbn.
  rewrite Hid; cbn.
  destruct (find_comment k db) as [c|] eqn:Hc; cbn; [|discriminate].
  pose proof (find_comment_id _ _ _ Hc) as Hkey.
  destruct (Comment.authorId c =? Http.id u); cbn; [|discriminate].
  destruct (changed_str (Comment.content c) content) as [s|]; cbn.
  - destruct (len_between 1 5000 s); cbn; [|discriminate].
    intros _.
    exists (fun d => if Comment.id d =? Comment.id c then edited s now d
                     else d).
    split; [|split; [|split; [|split]]].
    + intros x. destruct (Comment.id x =? Comment.id c); repeat split.
    + reflexivity.
    + reflexivity.
    + reflexivity.
    + intros updated.
      destruct (find_comment (Comment.id c) _) as [c'|] eqn:Hc'; cbn;
        [|discriminate].
      intros [= <-]. cbn.
      apply find_comment_id in Hc'. congruence.
  - intros _. exists (fun d => d).
    split; [|split; [|split; [|split]]].
    + intros x. repeat split.
    + now rewrite map_id.
    + reflexivity.
    + reflexivity.
    + intros updated. rewrite Hkey, Hc. cbn. intros [= <-]. exact Hkey.
Qed.

(** X28. An edit makes the client forget replies. When the client holds
    the first page of the comments of a post, at most 20 of them
    top-level, and the edit of a top-level comment that has a reply is
    answered 200, then [updateComment] puts the comment of the answer,
    which carries no replies, in the place of the one the client held:
    the client renders the comment without replies, while the first
    page the server lists afterwards has it with its reply. *)
Theorem updateComment_forgets_replies :
  forall (isUrl : string -> bool) (u : AuthUser) (id postId : string)
         (k n now : Z) (content : option string) (db : Store)
         (rows : list CommentRow) (pgn : Pagination) (row : CommentRow)
         (reply updated : Comment.t * option Author),
    JS.parseInt postId = Some n ->
    JS.parseInt id = Some k ->
    (List.length (filter (is_top_level n) (comments db)) <= 20)%nat ->
    body_of (run isUrl (first_page postId) db)
    = Some (CommentsBody rows pgn) ->
    In row rows ->
    Comment.id (row_comment row) = k ->
    In reply (row_replies row) ->
    let o :=
      run isUrl (CommentController.updateComment (Some u) id content now) db in
    status_of o = Some 200 ->
    comment_of o = Some updated ->
    (forall x,
        In x (UseComments.updateComment k updated (map UseComments.of_row rows))
        -> Comment.id (UseComments.comment x) = k ->
        snd (UseComments.rendered x) = [])
    /\ exists rows' pgn' row' reply',
        body_of (run isUrl (first_page postId) (store o))
        = Some (CommentsBody rows' pgn')
        /\ In row' rows'
        /\ Comment.id (row_comment row') = k
        /\ In reply' (row_replies row')
        /\ Comment.id (fst reply') = Comment.id (fst reply).
Proof.
  intros isUrl u id postId k n now content db rows pgn row reply updated
         Hpost Hid Hfew Hbefore Hrow Hk Hreply.
  cbv zeta. intros Hstatus Hupdated.
  destruct (updateComment_edited isUrl u id k content now db Hid Hstatus)
    as (g & Hplace & Hcomments & Hposts & Husers & Hkey).
  specialize (Hkey updated Hupdated).
  set (db' := store _) in *.
  assert (Hstored : find_post n db <> None).
  { intros Hnone. unfold body_of, run, first_page,
      CommentController.getComments in Hbefore.
    rewrite run_from_try_catch, run_from_bind, run_from_await in Hbefore.
    rewrite Hpost in Hbefore. cbn -[window num_mul num_sub] in Hbefore.
    rewrite Hnone in Hbefore. discriminate. }
  unfold body_of in *.
  rewrite (first_page_run isUrl postId n db Hpost Hstored) in Hbefore.
  rewrite firstn_all2 in Hbefore by now rewrite thread_heads_length.
  injection Hbefore as <- <-.
  split.
  - intros x Hx Hxk. unfold UseComments.updateComment in Hx.
    apply in_map_iff in Hx. destruct Hx as (y & <- & Hy).
    destruct (Comment.id (UseComments.comment y) =? k) eqn:Hyk;
      [reflexivity|].
    cbn in Hxk. apply Z.eqb_neq in Hyk. contradiction.
  - assert (Hstored' : find_post n db' <> None)
      by (unfold find_post in *; now rewrite Hposts).
    rewrite (first_page_run isUrl postId n db' Hpost Hstored').
    assert (Hlevel : forall x, is_top_level n (g x) = is_top_level n x).
    { intros x. destruct (Hplace x) as (_ & Hp & Hpar & _).
      unfold is_top_level. now rewrite Hp, Hpar. }
    assert (Hreplyto : forall j x, is_reply_to j (g x) = is_reply_to j x).
    { intros j x. destruct (Hplace x) as (_ & _ & Hpar & _).
      unfold is_reply_to. now rewrite Hpar. }
    assert (Hcount : List.length (filter (is_top_level n) (comments db'))
                     = List.length (filter (is_top_level n) (comments db))).
    { rewrite Hcomments. clear - Hlevel.
      induction (comments db) as [|x l IH]; cbn; [reflexivity|].
      rewrite Hlevel. destruct (is_top_level n x); cbn; now rewrite IH. }
    apply in_map_iff in Hrow. destruct Hrow as (top & <- & Htop).
    unfold thread_heads in Htop. apply sort_by_In, filter_In in Htop.
    destruct Htop as [Htop Htoplevel]. apply scan_comments_In in Htop.
    cbn [row_comment row_replies join_comment] in Hk, Hreply.
    unfold replies_of in Hreply. apply in_map_iff in Hreply.
    destruct Hreply as (r & <- & Hr).
    apply filter_In in Hr. destruct Hr as [Hr Hrto].
    apply scan_comments_In in Hr.
    eexists. eexists. exists (join_comment db' (g top)).
    exists (with_author Public db' (g r)).
    split; [reflexivity|]. split; [|split; [|split]].
    + apply in_map. rewrite firstn_all2.
      * unfold thread_heads. apply sort_by_In, filter_In. split.
        -- apply scan_comments_In. rewrite Hcomments. now apply in_map.
        -- now rewrite Hlevel.
      * rewrite thread_heads_length, Hcount. exact Hfew.
    + cbn. destruct (Hplace top) as (Hidg & _). now rewrite Hidg.
    + cbn [row_replies join_comment]. unfold replies_of. apply in_map.
      apply filter_In. split.
      * apply scan_comments_In. rewrite Hcomments. now apply in_map.
      * rewrite Hreplyto. destruct (Hplace top) as (Hidg & _).
        now rewrite Hidg.
    + cbn. now destruct (Hplace r) as (Hidg & _).
Qed.

(** Bob edits his comment 1 of the example store, which has the replies
    3 and 4. *)
Lemma updateComment_forgets_replies_witness :
  (forall x,
      In x (UseComments.updateComment 1
              (edited "Edited" 100 (demo_comment 1 1 2 None true 50),
               Some (select_author Public bob))
              (UseComments.fetched
                 (CommentsBody
                    (map (join_comment demo) (thread_heads 1 demo))
                    (pagination (Some 1) (Some 20) 3)))) ->
      Comment.id (UseComments.comment x) = 1 ->
      snd (UseComments.rendered x) = [])
  /\ exists rows' pgn' row' reply',
      body_of
        (run any_url (first_page "1")
             (store
                (run any_url
                     (CommentController.updateComment (Some as_bob) "1"
                        (Some "Edited") 100) demo)))
      = Some (CommentsBody rows' pgn')
      /\ In row' rows'
      /\ Comment.id (row_comment row') = 1
      /\ In reply' (row_replies row')
      /\ Comment.id (fst reply') = 3.
Proof.
  apply (updateComment_forgets_replies any_url as_bob "1" "1" 1 1 100
           (Some "Edited") demo
           (map (join_comment demo) (thread_heads 1 demo))
           (pagination (Some 1) (Some 20) 3)
           (join_comment demo (demo_comment 1 1 2 None true 50))
           (with_author Public demo (demo_comment 3 1 1 (Some 1) false 70))
           (edited "Edited" 100 (demo_comment 1 1 2 None true 50),
            Some (select_author Public bob))
           eq_refl eq_refl).
  - cbn. lia.
  - reflexivity.
  - cbn. right. left. reflexivity.
  - reflexivity.
  - cbn. left. reflexivity.
  - reflexivity.
  - reflexivity.
Defined.
